(** * ETF rotator: decision core and paper-trading driver

    A shallow embedding of the decision logic of the repository
    ([app/strategy.py], [app/costs.py], [core/utils.py]), of the weekly
    trigger of the backtest ([app/backtest.py]) and of the paper-trading
    driver ([app/paper.py], with its callers in [app/cli.py] and
    [backend/main.py]), followed by the properties the specification states
    about them.

    Conventions of the embedding.
    - Python [float] values are modelled by rationals ([Q]) and compared
      with the boolean comparisons of [Q]; rounding is not modelled.  A
      price that is missing or not finite is a failed look-up.
    - Python [int] values are modelled by [Z].
    - A Python [dict] keeps insertion order and the driver iterates over
      dicts, so a dict is an association list ([Dict]).
    - A calendar date is the number of days since 1970-01-01 (a Thursday).
    - A function that can raise returns a [result].
    - The account file is an [option PaperAccount], passed in and out of
      the driver; the price table is the table [_load_prices] has read.
    - [run_paper_once] builds a local list [trades] while it trades and
      returns a blotter rebuilt from the positions; here a run returns the
      rows of [trades], and [blotter_entry] gives the blotter's view of one
      symbol.  Reports and the equity curve are left out. *)

From Stdlib Require Import ZArith QArith Qround Qminmax List String Bool Lia Lqa.
From Stdlib Require Import Permutation Sorted.
Import ListNotations.

Local Open Scope Z_scope.
Local Open Scope Q_scope.

(** ** Floats as rationals *)

Definition Qltb (a b : Q) : bool := negb (Qle_bool b a).

(** Python's [max(a, b)]: the first argument unless the second is larger. *)
Definition pymax (a b : Q) : Q := if Qltb a b then b else a.

(** Python's [abs]. *)
Definition pyabs (a : Q) : Q := if Qltb a 0 then - a else a.

(** ** Python dicts *)

Module Dict.

Definition t (V : Type) : Type := list (string * V).

Fixpoint get {V} (d : t V) (k : string) : option V :=
  match d with
  | [] => None
  | (k', v) :: r => if String.eqb k k' then Some v else get r k
  end.

(** [d.get(k, default)] *)
Definition get_or {V} (d : t V) (k : string) (default : V) : V :=
  match get d k with Some v => v | None => default end.

(** [d[k] = v]: the value is replaced in place, a new key goes last. *)
Fixpoint set {V} (d : t V) (k : string) (v : V) : t V :=
  match d with
  | [] => [(k, v)]
  | (k', v') :: r =>
      if String.eqb k k' then (k', v) :: r else (k', v') :: set r k v
  end.

Definition keys {V} (d : t V) : list string := map fst d.

Definition mem {V} (d : t V) (k : string) : bool :=
  match get d k with Some _ => true | None => false end.

End Dict.

(** ** Errors *)

Inductive exn : Type :=
| DataInsufficient          (* RuntimeError: no weekly rebalance date at all *)
| AccountUpToDate           (* RuntimeError: no rebalance date after as_of *)
| KeyError (k : string)      (* a symbol missing from a price row *)
| DateKeyError (d : Z)      (* a date missing from the index *)
| IndexError.

Inductive result (A : Type) : Type :=
| Ok (a : A)
| Raise (e : exn).
Arguments Ok {A} a.
Arguments Raise {A} e.

Definition bind {A B} (r : result A) (f : A -> result B) : result B :=
  match r with
  | Ok a => f a
  | Raise e => Raise e
  end.

Notation "x <- c ;; k" := (bind c (fun x => k))
  (at level 61, c at next level, right associativity).

(** ** The risk gate ([app/strategy.py]) *)

Inductive RiskState : Type := NORMAL | DE_RISK | CIRCUIT_COOLDOWN.

Definition RiskState_eqb (a b : RiskState) : bool :=
  match a, b with
  | NORMAL, NORMAL | DE_RISK, DE_RISK | CIRCUIT_COOLDOWN, CIRCUIT_COOLDOWN => true
  | _, _ => false
  end.

Record RiskGate : Type := mkRiskGate {
  derisk_drawdown : Q;
  circuit_drawdown : Q;
  cooldown_weeks : Z;
  state : RiskState;
  cooldown_left : Z
}.

Definition set_gate (g : RiskGate) (s : RiskState) (left : Z) : RiskGate :=
  {| derisk_drawdown := derisk_drawdown g;
     circuit_drawdown := circuit_drawdown g;
     cooldown_weeks := cooldown_weeks g;
     state := s;
     cooldown_left := left |}.

(** The part of [next_state] after the cooldown test: the regime the
    thresholds give. *)
Definition threshold_regime (g : RiskGate) (drawdown : Q) : RiskState :=
  if Qle_bool (circuit_drawdown g) drawdown then CIRCUIT_COOLDOWN
  else if Qle_bool (derisk_drawdown g) drawdown then DE_RISK
  else NORMAL.

Definition next_state (g : RiskGate) (drawdown : Q) : RiskState :=
  if RiskState_eqb (state g) CIRCUIT_COOLDOWN && (0 <? cooldown_left g)%Z
  then CIRCUIT_COOLDOWN
  else threshold_regime g drawdown.

(** [on_rebalance] mutates the gate and returns [(state, changed)]; here the
    gate after the call is returned with them. *)
Definition on_rebalance (g : RiskGate) (drawdown : Q)
  : RiskGate * (RiskState * bool) :=
  let prev := state g in
  let new := next_state g drawdown in
  if RiskState_eqb new CIRCUIT_COOLDOWN && negb (RiskState_eqb prev CIRCUIT_COOLDOWN)
  then
    let g' := set_gate g CIRCUIT_COOLDOWN (Z.max (cooldown_weeks g - 1) 0) in
    (g', (state g', true))
  else if RiskState_eqb prev CIRCUIT_COOLDOWN && (0 <? cooldown_left g)%Z
  then
    let g' := set_gate g CIRCUIT_COOLDOWN (cooldown_left g - 1) in
    (g', (state g', false))
  else
    let g' := set_gate g new (cooldown_left g) in
    (g', (state g', negb (RiskState_eqb new prev))).

(** The gate driven through a sequence of rebalance events, with the
    reported pairs in order. *)
Fixpoint run_gate (g : RiskGate) (drawdowns : list Q)
  : RiskGate * list (RiskState * bool) :=
  match drawdowns with
  | [] => (g, [])
  | d :: ds =>
      let '(g1, r) := on_rebalance g d in
      let '(g2, rs) := run_gate g1 ds in
      (g2, r :: rs)
  end.

(** ** Target weights ([app/strategy.py]) *)

Definition target_weights (st : RiskState) (equity_symbol defensive_symbol : string)
    (normal_equity_weight derisk_equity_weight : Q) : Dict.t Q :=
  match st with
  | CIRCUIT_COOLDOWN => Dict.set [] defensive_symbol 1
  | DE_RISK =>
      let ew := derisk_equity_weight in
      Dict.set (Dict.set [] equity_symbol ew) defensive_symbol (1 - ew)
  | NORMAL => Dict.set [] equity_symbol normal_equity_weight
  end.

(** ** The cost model ([app/costs.py]) *)

Record CostModel : Type := mkCostModel {
  commission_rate : Q;
  min_commission : Q;
  stamp_tax_rate : Q;
  slippage_bps : Q
}.

Record TradeIntent : Type := mkTradeIntent {
  ti_symbol : string;
  trade_value : Q;
  sell_value : Q
}.

(** One pass of the loop body of [estimate_for_rebalance]. *)
Definition estimate_step (cm : CostModel) (total : Q) (t : TradeIntent) : Q :=
  if Qle_bool (trade_value t) 0 then total
  else
    let commission := pymax (trade_value t * commission_rate cm) (min_commission cm) in
    let stamp_tax := sell_value t * stamp_tax_rate cm in
    let slippage := trade_value t * (slippage_bps cm / 10000) in
    total + (commission + stamp_tax + slippage).

Definition estimate_for_rebalance (cm : CostModel) (trades : list TradeIntent) : Q :=
  fold_left (estimate_step cm) trades 0.

(** What one trade adds, as the specification words it. *)
Definition trade_cost (cm : CostModel) (t : TradeIntent) : Q :=
  if Qle_bool (trade_value t) 0 then 0
  else Qmax (trade_value t * commission_rate cm) (min_commission cm)
       + sell_value t * stamp_tax_rate cm
       + trade_value t * slippage_bps cm / 10000.

(** ** Weekly rebalance flags ([core/utils.py]) *)

Definition date : Type := Z.

(** [to_period("W-FRI")]: the week, Saturday to Friday, a day falls in.
    Day 1 (1970-01-02) is a Friday, so day 2 opens week 0. *)
Definition to_period_W_FRI (d : date) : Z := ((d - 2) / 7)%Z.

(** [PeriodIndex.shift(n)] moves every period of the index [n] periods
    forward (it is [self + n]); positions are kept. *)
Definition period_shift (n : Z) (periods : list Z) : list Z :=
  map (fun p => (p + n)%Z) periods.

(** Element-wise [!=] of two indexes of the same length. *)
Fixpoint index_ne (a b : list Z) : list bool :=
  match a, b with
  | x :: a', y :: b' => negb (x =? y)%Z :: index_ne a' b'
  | _, _ => []
  end.

(** [flag.iloc[0] = False] *)
Definition set_first_false (flag : list bool) : list bool :=
  match flag with
  | [] => []
  | _ :: r => false :: r
  end.

Definition first_day_after_week_end (dates : list date) : list bool :=
  match dates with
  | [] => []
  | _ =>
      let periods := map to_period_W_FRI dates in
      let prev := period_shift 1 periods in
      let flag := index_ne periods prev in
      set_first_false flag
  end.

(** ** Price table and account ([app/paper.py]) *)

(** The table [_load_prices] returns: one row of closes per trading day. *)
Definition PriceTable : Type := list (date * Dict.t Q).

Definition index (prices : PriceTable) : list date := map fst prices.

(** [prices.loc[d]] *)
Fixpoint loc (prices : PriceTable) (d : date) : result (Dict.t Q) :=
  match prices with
  | [] => Raise (DateKeyError d)
  | (d', row) :: r => if (d =? d')%Z then Ok row else loc r d
  end.

(** [idx.get_loc(d)] on an index without repeated dates, where it is a
    position; on an index that repeats [d] pandas returns a slice or a
    mask instead. *)
Fixpoint get_loc (idx : list date) (d : date) : result Z :=
  match idx with
  | [] => Raise (DateKeyError d)
  | d' :: r =>
      if (d =? d')%Z then Ok 0%Z
      else i <- get_loc r d ;; Ok (i + 1)%Z
  end.

(** [l[i]] with Python's negative positions. *)
Definition py_getitem {A} (l : list A) (i : Z) : result A :=
  let n := Z.of_nat (List.length l) in
  let j := if (i <? 0)%Z then (i + n)%Z else i in
  if (j <? 0)%Z then Raise IndexError
  else match nth_error l (Z.to_nat j) with
       | Some a => Ok a
       | None => Raise IndexError
       end.

(** [idx[flag.values]] *)
Fixpoint mask {A} (l : list A) (flag : list bool) : list A :=
  match l, flag with
  | x :: l', b :: flag' => if b then x :: mask l' flag' else mask l' flag'
  | _, _ => []
  end.

(** [list(dict.fromkeys(l))] *)
Definition fromkeys (l : list string) : list string :=
  fold_left (fun acc s => if existsb (String.eqb s) acc then acc else acc ++ [s]) l [].

Record PaperAccount : Type := mkPaperAccount {
  as_of : option date;
  cash : Q;
  positions : Dict.t Z;
  equity_peak : Q;
  gate_state : RiskState;
  gate_cooldown_left : Z;
  history : list (date * Q)
}.

Definition new_account (initial_capital : Q) : PaperAccount :=
  {| as_of := None;
     cash := initial_capital;
     positions := [];
     equity_peak := initial_capital;
     gate_state := NORMAL;
     gate_cooldown_left := 0%Z;
     history := [] |}.

(** The loop shared by [_account_value] and the pre-trade valuation:
    positions without a finite price are skipped. *)
Definition value_step (price_row : Dict.t Q) (v : Q) (p : string * Z) : Q :=
  match Dict.get price_row (fst p) with
  | Some px => v + inject_Z (snd p) * px
  | None => v
  end.

Definition value_of (cash0 : Q) (pos : Dict.t Z) (price_row : Dict.t Q) : Q :=
  fold_left (value_step price_row) pos cash0.

Definition _account_value (account : PaperAccount) (price_row : Dict.t Q) : Q :=
  value_of (cash account) (positions account) price_row.

Record PaperConfig : Type := mkPaperConfig {
  equity_etfs : list string;
  defensive_etf : string;
  initial_capital : Q;
  no_trade_band : Q;
  momentum_lookback_days : Z;
  vol_lookback_weeks : Z;
  vol_floor : Q;
  cfg_derisk_drawdown : Q;
  cfg_circuit_drawdown : Q;
  cfg_cooldown_weeks : Z;
  normal_equity_weight : Q;
  derisk_equity_weight : Q;
  cost_model : CostModel
}.

(** ** Scores ([app/strategy.py]) *)

(** A float score: [-inf] marks a symbol without enough history; a
    division by a zero close can give an infinity or a NaN. *)
Inductive score : Type := NegInf | Fin (q : Q) | PosInf | NaN.

Definition isfinite (s : score) : bool :=
  match s with Fin _ => true | _ => false end.

Definition pick_best_equity (scores : Dict.t score) (fallback : string) : string :=
  match scores with
  | [] => fallback
  | (best, top) :: _ => if isfinite top then best else fallback
  end.

(** ** Trades *)

Inductive Action : Type := SELL | BUY | HOLD.

Record TradeRow : Type := mkTradeRow {
  tr_symbol : string;
  tr_action : Action;
  tr_cur : Z;
  tr_tgt : Z;
  tr_delta : Z;
  tr_px : Q;
  tr_cost : Q
}.

Definition est_cost_for (cm : CostModel) (sym : string) (dv sv : Q) : Q :=
  estimate_for_rebalance cm [mkTradeIntent sym dv sv].

(** The tolerance of the affordability test, [1e-6]. *)
Definition cash_tolerance : Q := 1 # 1000000.

(** The test of the buy loop: [cash >= need - 1e-6]. *)
Definition affordable (cm : CostModel) (s : string) (px cash0 : Q) (buy : Z) : bool :=
  let buy_value := inject_Z buy * px in
  let cost := est_cost_for cm s buy_value 0 in
  let need := buy_value + cost in
  Qle_bool (need - cash_tolerance) cash0.

(** The [while buy > 0] loop: the share count is tried from the full delta
    downwards; [Some] is the count bought (the [break]), [None] is the loop
    running down to [buy == 0]. *)
Fixpoint buy_loop (cm : CostModel) (s : string) (px cash0 : Q) (buy : nat) : option Z :=
  match buy with
  | O => None
  | S fewer =>
      if affordable cm s px cash0 (Z.of_nat buy) then Some (Z.of_nat buy)
      else buy_loop cm s px cash0 fewer
  end.

(** [l.remove(x)]: the first occurrence goes. *)
Fixpoint remove_first (x : string) (l : list string) : list string :=
  match l with
  | [] => []
  | y :: r => if String.eqb x y then r else y :: remove_first x r
  end.

(** The running state of the trade loops: [cash], [account.positions] and
    the [trades] list. *)
Record ExecState : Type := mkExecState {
  ex_cash : Q;
  ex_positions : Dict.t Z;
  ex_trades : list TradeRow
}.

(** Everything [run_paper_once] has computed when the trade loops start. *)
Record Plan : Type := mkPlan {
  p_account : PaperAccount;      (* after the backfill and the signal-date peak *)
  p_gate : RiskGate;             (* after [on_rebalance] *)
  p_trade_dt : date;
  p_signal_dt : date;
  p_pre_positions : Dict.t Z;
  p_pre_cash : Q;
  p_px_trade : Dict.t Q;
  p_pre_value : Q;
  p_current_weights : Dict.t Q;
  p_tw : Dict.t Q;               (* after the no-trade band *)
  p_target_shares : Dict.t Z
}.

(** What the two callers make of a run. *)
Inductive TaskOutputs : Type :=
| NoUpdateNeeded
| Artifacts (blotter : list TradeRow).

Inductive TaskStatus : Type := success | failed.

Section Driver.

(** Two computations are left to pandas and numpy and are parameters
    here: the score of one symbol (lines 80-92 of [compute_score]: the
    momentum over the standard deviation of weekly returns, or [-inf]),
    and [Series.sort_values(ascending=False)]. *)
Variable symbol_score : PriceTable -> Z -> Z -> Q -> string -> score.
Variable sort_values : Dict.t score -> Dict.t score.

Definition compute_score (prices : PriceTable) (symbols : list string)
    (signal_date : date) (momentum_days vol_weeks : Z) (floor : Q) : Dict.t score :=
  let px := filter (fun r => (fst r <=? signal_date)%Z) prices in
  let scores :=
    fold_left (fun d s => Dict.set d s (symbol_score px momentum_days vol_weeks floor s))
              symbols [] in
  sort_values scores.

(** *** History backfill *)

Definition record_valuation (a : PaperAccount) (d : date) (v : Q) : PaperAccount :=
  {| as_of := as_of a;
     cash := cash a;
     positions := positions a;
     equity_peak := pymax (equity_peak a) v;
     gate_state := gate_state a;
     gate_cooldown_left := gate_cooldown_left a;
     history := history a ++ [(d, v)] |}.

Definition backfill_step (prices : PriceTable) (existing_dates : list date)
    (acc : result PaperAccount) (d : date) : result PaperAccount :=
  account <- acc ;;
  if existsb (Z.eqb d) existing_dates then Ok account
  else
    row <- loc prices d ;;
    Ok (record_valuation account d (_account_value account row)).

Definition backfill (prices : PriceTable) (account : PaperAccount) (signal_dt : date)
  : result PaperAccount :=
  match as_of account with
  | Some last_as_of =>
      let fill_dates :=
        filter (fun d => (last_as_of <? d)%Z && (d <=? signal_dt)%Z) (index prices) in
      let existing_dates := map fst (history account) in
      fold_left (backfill_step prices existing_dates) fill_dates (Ok account)
  | None => Ok account
  end.

Definition set_peak (a : PaperAccount) (pk : Q) : PaperAccount :=
  {| as_of := as_of a;
     cash := cash a;
     positions := positions a;
     equity_peak := pk;
     gate_state := gate_state a;
     gate_cooldown_left := gate_cooldown_left a;
     history := history a |}.

(** *** Weights held, band, share targets *)

Definition current_weights_step (pre_positions : Dict.t Z) (px_trade : Dict.t Q)
    (pre_value : Q) (acc : result (Dict.t Q)) (s : string) : result (Dict.t Q) :=
  cw <- acc ;;
  let sh := Dict.get_or pre_positions s 0%Z in
  if (sh <=? 0)%Z then Ok cw
  else if Qltb 0 pre_value then
    match Dict.get px_trade s with
    | Some px => Ok (Dict.set cw s ((inject_Z sh * px) / pre_value))
    | None => Raise (KeyError s)
    end
  else Ok (Dict.set cw s 0).

Definition current_weights (symbols : list string) (pre_positions : Dict.t Z)
    (px_trade : Dict.t Q) (pre_value : Q) : result (Dict.t Q) :=
  fold_left (current_weights_step pre_positions px_trade pre_value) symbols
            (Ok (fold_left (fun d s => Dict.set d s 0) symbols [])).

Definition band_step (band : Q) (cw : Dict.t Q) (tw : Dict.t Q) (item : string * Q)
  : Dict.t Q :=
  let c := Dict.get_or cw (fst item) 0 in
  if Qltb (pyabs (snd item - c)) band then Dict.set tw (fst item) c else tw.

(** The loop runs over a copy of the items, [list(tw.items())]. *)
Definition apply_band (band : Q) (cw tw : Dict.t Q) : Dict.t Q :=
  fold_left (band_step band cw) tw tw.

Definition shares_for (pre_value w px : Q) : Z :=
  let target_value := pre_value * w in
  if Qltb 0 px then Qfloor (target_value / px) else 0%Z.

Definition target_step (px_trade : Dict.t Q) (pre_value : Q)
    (acc : result (Dict.t Z)) (item : string * Q) : result (Dict.t Z) :=
  ts <- acc ;;
  match Dict.get px_trade (fst item) with
  | Some px => Ok (Dict.set ts (fst item) (shares_for pre_value (snd item) px))
  | None => Raise (KeyError (fst item))
  end.

Definition zero_step (ts : Dict.t Z) (s : string) : Dict.t Z :=
  if Dict.mem ts s then ts else Dict.set ts s 0%Z.

Definition target_shares_of (tw : Dict.t Q) (pre_positions : Dict.t Z)
    (px_trade : Dict.t Q) (pre_value : Q) : result (Dict.t Z) :=
  ts <- fold_left (target_step px_trade pre_value) tw (Ok []) ;;
  Ok (fold_left zero_step (Dict.keys pre_positions) ts).

(** *** The trade loops *)

Definition sell_step (cm : CostModel) (px_trade : Dict.t Q) (pre_positions : Dict.t Z)
    (st : ExecState) (item : string * Z) : ExecState :=
  let s := fst item in
  let tgt := snd item in
  let cur := Dict.get_or (ex_positions st) s (Dict.get_or pre_positions s 0%Z) in
  let delta := (tgt - cur)%Z in
  if (0 <=? delta)%Z then st
  else
    match Dict.get px_trade s with
    | None => st
    | Some px =>
        if Qle_bool px 0 then st
        else
          let sell_shares := (- delta)%Z in
          let sell_value := inject_Z sell_shares * px in
          let cost := est_cost_for cm s sell_value sell_value in
          {| ex_cash := ex_cash st + (sell_value - cost);
             ex_positions := Dict.set (ex_positions st) s (cur - sell_shares)%Z;
             ex_trades := ex_trades st ++ [mkTradeRow s SELL cur tgt delta px cost] |}
    end.

Definition sell_phase (cm : CostModel) (px_trade : Dict.t Q) (pre_positions : Dict.t Z)
    (target_shares : Dict.t Z) (st : ExecState) : ExecState :=
  fold_left (sell_step cm px_trade pre_positions) target_shares st.

Definition buy_syms (defensive : string) (target_shares : Dict.t Z) : list string :=
  let ks := Dict.keys target_shares in
  if existsb (String.eqb defensive) ks
  then remove_first defensive ks ++ [defensive]
  else ks.

Definition buy_one (cm : CostModel) (px_trade : Dict.t Q) (pre_positions : Dict.t Z)
    (st : ExecState) (s : string) (tgt : Z) : ExecState :=
  let cur := Dict.get_or (ex_positions st) s (Dict.get_or pre_positions s 0%Z) in
  let delta := (tgt - cur)%Z in
  if (delta <=? 0)%Z then st
  else
    match Dict.get px_trade s with
    | None => st
    | Some px =>
        if Qle_bool px 0 then st
        else
          match buy_loop cm s px (ex_cash st) (Z.to_nat delta) with
          | Some buy =>
              let buy_value := inject_Z buy * px in
              let cost := est_cost_for cm s buy_value 0 in
              let need := buy_value + cost in
              {| ex_cash := ex_cash st - need;
                 ex_positions := Dict.set (ex_positions st) s (cur + buy)%Z;
                 ex_trades := ex_trades st ++ [mkTradeRow s BUY cur tgt buy px cost] |}
          | None =>
              let tgt2 := Dict.get_or (ex_positions st) s cur in
              {| ex_cash := ex_cash st;
                 ex_positions := ex_positions st;
                 ex_trades := ex_trades st ++ [mkTradeRow s HOLD cur tgt2 0 px 0] |}
          end
    end.

Definition buy_step (cm : CostModel) (px_trade : Dict.t Q) (pre_positions : Dict.t Z)
    (target_shares : Dict.t Z) (acc : result ExecState) (s : string) : result ExecState :=
  st <- acc ;;
  match Dict.get target_shares s with
  | Some tgt => Ok (buy_one cm px_trade pre_positions st s tgt)
  | None => Raise (KeyError s)
  end.

Definition buy_phase (cm : CostModel) (defensive : string) (px_trade : Dict.t Q)
    (pre_positions : Dict.t Z) (target_shares : Dict.t Z) (st : ExecState)
  : result ExecState :=
  fold_left (buy_step cm px_trade pre_positions target_shares)
            (buy_syms defensive target_shares) (Ok st).

Definition drop_zero (pos : Dict.t Z) : Dict.t Z :=
  filter (fun kv => negb (snd kv =? 0)%Z) pos.

(** Lines 193-262: sells, buys, clean-up and the account to be saved. *)
Definition execute (cm : CostModel) (defensive : string) (plan : Plan)
  : result (PaperAccount * list TradeRow) :=
  let account := p_account plan in
  let st0 := mkExecState (p_pre_cash plan) (positions account) [] in
  let st1 := sell_phase cm (p_px_trade plan) (p_pre_positions plan)
                        (p_target_shares plan) st0 in
  st2 <- buy_phase cm defensive (p_px_trade plan) (p_pre_positions plan)
                   (p_target_shares plan) st1 ;;
  let positions' := drop_zero (ex_positions st2) in
  let post_value := value_of (ex_cash st2) positions' (p_px_trade plan) in
  Ok ({| as_of := Some (p_trade_dt plan);
         cash := ex_cash st2;
         positions := positions';
         equity_peak := pymax (equity_peak account) post_value;
         gate_state := state (p_gate plan);
         gate_cooldown_left := cooldown_left (p_gate plan);
         history := history account ++ [(p_trade_dt plan, post_value)] |},
      ex_trades st2).

(** *** The driver *)

Definition rebalance_dates_of (prices : PriceTable) : list date :=
  mask (index prices) (first_day_after_week_end (index prices)).

Definition candidates (account : PaperAccount) (rebalance_dates : list date) : list date :=
  match as_of account with
  | Some last => filter (fun d => (last <? d)%Z) rebalance_dates
  | None => rebalance_dates
  end.

(** Lines 95-101: the account of the file, or a new one. *)
Definition load_or_new (cfg : PaperConfig) (store : option PaperAccount) : PaperAccount :=
  match store with
  | Some a => a
  | None => new_account (initial_capital cfg)
  end.

(** Lines 87-191: everything up to the share targets. *)
Definition paper_plan (cfg : PaperConfig) (prices : PriceTable)
    (store : option PaperAccount) : result Plan :=
  let symbols := fromkeys (equity_etfs cfg ++ [defensive_etf cfg]) in
  let idx := index prices in
  let rebalance_dates := rebalance_dates_of prices in
  match rebalance_dates with
  | [] => Raise DataInsufficient
  | _ =>
      let account := load_or_new cfg store in
      match candidates account rebalance_dates with
      | [] => Raise AccountUpToDate
      | trade_dt :: _ =>
          i <- get_loc idx trade_dt ;;
          signal_dt <- py_getitem idx (i - 1)%Z ;;
          let pre_positions := positions account in
          let pre_cash := cash account in
          account <- backfill prices account signal_dt ;;
          let gate := mkRiskGate (cfg_derisk_drawdown cfg) (cfg_circuit_drawdown cfg)
                                 (cfg_cooldown_weeks cfg)
                                 (gate_state account) (gate_cooldown_left account) in
          row_signal <- loc prices signal_dt ;;
          let signal_value := _account_value account row_signal in
          let account := set_peak account (pymax (equity_peak account) signal_value) in
          let drawdown :=
            if Qltb 0 (equity_peak account)
            then 1 - signal_value / equity_peak account else 0 in
          let gate := fst (on_rebalance gate drawdown) in
          let scores := compute_score prices (equity_etfs cfg) signal_dt
                          (momentum_lookback_days cfg) (vol_lookback_weeks cfg)
                          (vol_floor cfg) in
          fallback <- py_getitem (equity_etfs cfg) 0%Z ;;
          let winner := pick_best_equity scores fallback in
          let tw := target_weights (state gate) winner (defensive_etf cfg)
                      (normal_equity_weight cfg) (derisk_equity_weight cfg) in
          px_trade <- loc prices trade_dt ;;
          let pre_value := value_of pre_cash pre_positions px_trade in
          cw <- current_weights symbols pre_positions px_trade pre_value ;;
          let tw := apply_band (no_trade_band cfg) cw tw in
          target_shares <- target_shares_of tw pre_positions px_trade pre_value ;;
          Ok (mkPlan account gate trade_dt signal_dt pre_positions pre_cash
                     px_trade pre_value cw tw target_shares)
      end
  end.

Definition paper_advance (cfg : PaperConfig) (prices : PriceTable)
    (store : option PaperAccount) : result (PaperAccount * list TradeRow) :=
  plan <- paper_plan cfg prices store ;;
  execute (cost_model cfg) (defensive_etf cfg) plan.

(** [run_paper_once] on the account file: the file is written once, by
    [account.save] on the last line of a run that did not raise. *)
Definition run_paper_once (cfg : PaperConfig) (prices : PriceTable)
    (store : option PaperAccount) : result (list TradeRow) * option PaperAccount :=
  match paper_advance cfg prices store with
  | Ok (account, trades) => (Ok trades, Some account)
  | Raise e => (Raise e, store)
  end.

(** [cmd_run_paper] of the command line: an exception of the driver goes
    through to [main], which logs it and raises it again.  After a run
    that saved an account the command goes on to write the report, which
    is left out here: [Ok] says that the driver has returned. *)
Definition cmd_run_paper (cfg : PaperConfig) (prices : PriceTable)
    (store : option PaperAccount) : result unit * option PaperAccount :=
  match run_paper_once cfg prices store with
  | (Ok _, store') => (Ok tt, store')
  | (Raise e, store') => (Raise e, store')
  end.

(** [_task_run_paper] of the backend: the up-to-date error is caught and
    becomes an output message, every other exception goes through. *)
Definition _task_run_paper (cfg : PaperConfig) (prices : PriceTable)
    (store : option PaperAccount) : result TaskOutputs * option PaperAccount :=
  match run_paper_once cfg prices store with
  | (Ok trades, store') => (Ok (Artifacts trades), store')
  | (Raise AccountUpToDate, store') => (Ok NoUpdateNeeded, store')
  | (Raise e, store') => (Raise e, store')
  end.

(** [_run_task] for a paper task: the status the backend reports. *)
Definition _run_task (cfg : PaperConfig) (prices : PriceTable)
    (store : option PaperAccount) : TaskStatus * option PaperAccount :=
  match _task_run_paper cfg prices store with
  | (Ok _, store') => (success, store')
  | (Raise _, store') => (failed, store')
  end.

(** Lines 266-275: what the blotter written after the save says of one
    symbol: its action, [target_shares] and [delta_shares].  The target is
    read from the saved positions and, for a symbol they do not hold, from
    the share targets. *)
Definition blotter_entry (pre_positions target_shares saved_positions : Dict.t Z)
    (s : string) : Action * Z * Z :=
  let cur_sh := Dict.get_or pre_positions s 0%Z in
  let tgt_sh := Dict.get_or saved_positions s (Dict.get_or target_shares s cur_sh) in
  let delta := (tgt_sh - cur_sh)%Z in
  (if (delta =? 0)%Z then HOLD else if (0 <? delta)%Z then BUY else SELL, tgt_sh, delta).

Definition blotter_entry_of_run (cfg : PaperConfig) (prices : PriceTable)
    (store : option PaperAccount) (s : string) : result (Action * Z * Z) :=
  plan <- paper_plan cfg prices store ;;
  done <- execute (cost_model cfg) (defensive_etf cfg) plan ;;
  Ok (blotter_entry (p_pre_positions plan) (p_target_shares plan) (positions (fst done)) s).

(** Successive invocations on one account file, each with the
    configuration and the price table of its day. *)
Fixpoint run_many (runs : list (PaperConfig * PriceTable)) (store : option PaperAccount)
  : option PaperAccount :=
  match runs with
  | [] => store
  | (cfg, prices) :: rest => run_many rest (snd (run_paper_once cfg prices store))
  end.

End Driver.

(** ** The weekly trigger of the backtest ([app/backtest.py]) *)

(** [RunWeeklyAfterFriday.__call__] at the day [now]: [Some signal_date]
    when the rebalance runs, [None] when the algo stack stops. *)
Definition RunWeeklyAfterFriday (idx : list date) (now : date) : result (option date) :=
  let rebalance_flag := first_day_after_week_end idx in
  i <- get_loc idx now ;;
  if (i <=? 0)%Z then Ok None
  else
    flagged <- py_getitem rebalance_flag i ;;
    if negb flagged then Ok None
    else
      signal_date <- py_getitem idx (i - 1)%Z ;;
      Ok (Some signal_date).

(** ** Quantities the statements below speak about *)

(** The sum of the per-trade costs of the specification. *)
Definition sum_costs (cm : CostModel) (trades : list TradeIntent) : Q :=
  fold_right (fun t acc => trade_cost cm t + acc) 0 trades.

(** A weight is a fraction of the account. *)
Definition unit_weight (w : Q) : Prop := 0 <= w /\ w <= 1.

(** What one position is worth at the prices of a row; a position without
    a price counts for nothing. *)
Definition priced (row : Dict.t Q) (p : string * Z) : Q :=
  match Dict.get row (fst p) with
  | Some px => inject_Z (snd p) * px
  | None => 0
  end.

(** The sum over the held positions of shares times price. *)
Definition holdings_value (pos : Dict.t Z) (row : Dict.t Q) : Q :=
  fold_right (fun p acc => priced row p + acc) 0 pos.

Definition is_sell (r : TradeRow) : Prop := tr_action r = SELL.

Definition is_buy_or_hold (r : TradeRow) : Prop :=
  tr_action r = BUY \/ (tr_action r = HOLD /\ tr_delta r = 0%Z).

(** Two accounts that differ in history and peak only. *)
Definition same_book (a a' : PaperAccount) : Prop :=
  as_of a' = as_of a /\ cash a' = cash a /\ positions a' = positions a /\
  gate_state a' = gate_state a /\ gate_cooldown_left a' = gate_cooldown_left a.

Definition nonneg_shares (pos : Dict.t Z) : Prop :=
  Forall (fun kv => (0 <= snd kv)%Z) pos.

Definition nonneg_prices (row : Dict.t Q) : Prop :=
  Forall (fun kv => 0 <= snd kv) row.

Definition nonneg_weights (tw : Dict.t Q) : Prop :=
  Forall (fun kv => 0 <= snd kv) tw.

(** The buy of one symbol of the loop, its target read from the dict. *)
Definition buy_listed (cm : CostModel) (px_trade : Dict.t Q) (pre_positions : Dict.t Z)
    (target_shares : Dict.t Z) (st : ExecState) (s : string) : ExecState :=
  buy_one cm px_trade pre_positions st s (Dict.get_or target_shares s 0%Z).

(** What a buy of [buy] shares at [px] takes from the cash. *)
Definition need_for (cm : CostModel) (s : string) (px : Q) (buy : Z) : Q :=
  inject_Z buy * px + est_cost_for cm s (inject_Z buy * px) 0.

(** The symbol, action and share delta of each row of the trades. *)
Definition actions (trades : list TradeRow) : list (string * Action * Z) :=
  map (fun r => (tr_symbol r, tr_action r, tr_delta r)) trades.

(** A run that saved an account, and what holds of its rows and of that
    account. *)
Definition saved_with (r : result (list TradeRow) * option PaperAccount)
    (P : list TradeRow -> PaperAccount -> Prop) : Prop :=
  match r with
  | (Ok trades, Some a) => P trades a
  | _ => False
  end.

(** *** The contract of the descending sort *)

Definition is_nan (s : score) : bool :=
  match s with NaN => true | _ => false end.

(** [a >= b] on float scores that are not NaN. *)
Definition score_geb (a b : score) : bool :=
  match a, b with
  | NaN, _ | _, NaN => false
  | PosInf, _ => true
  | _, NegInf => true
  | Fin x, Fin y => Qle_bool y x
  | _, _ => false
  end.

(** What pandas promises of [sort_values(ascending=False)] with the
    default [kind]: the entries are kept, those with a value come first in
    descending order, those with a NaN come last.  Nothing is promised on
    the order of equal values. *)
Definition sorts_descending (input output : Dict.t score) : Prop :=
  Permutation input output /\
  exists valued nans,
    output = valued ++ nans /\
    Forall (fun kv => is_nan (snd kv) = false) valued /\
    Forall (fun kv => is_nan (snd kv) = true) nans /\
    StronglySorted (fun a b => score_geb (snd a) (snd b) = true) valued.

(** ** Inputs of the worked examples *)

(** The thresholds of the specification's scenario: de-risk at 10%,
    circuit at 20%, four weeks of cooldown; the cooldown has run out. *)
Definition gate_cooled_down : RiskGate :=
  mkRiskGate (1 # 10) (1 # 5) 4 CIRCUIT_COOLDOWN 0.

(** Rates of an A-share broker: 0.03% commission with a minimum of 5,
    0.1% stamp tax, 2 bps of slippage. *)
Definition broker_rates : CostModel :=
  mkCostModel (3 # 10000) 5 (1 # 1000) 2.

(** A cost model with a negative slippage (a price improvement). *)
Definition rebate_rates : CostModel :=
  mkCostModel 0 0 0 (- 10000).

Definition trade_of (dv sv : Q) : TradeIntent := mkTradeIntent "510300" dv sv.

(** Four trading days: Thursday 1970-01-01, Friday, then Monday and Tuesday
    of the next week. *)
Definition two_weeks : list date := [0; 1; 4; 5]%Z.

(** Two candidates with the same score, in candidate order and reversed. *)
Definition tied_scores : Dict.t score :=
  [("510300"%string, Fin 1); ("159915"%string, Fin 1)].

Definition tied_scores_reversed : Dict.t score :=
  [("159915"%string, Fin 1); ("510300"%string, Fin 1)].

(** The worked runs of the driver use tables shorter than the momentum
    look-back of 20 days, where line 81 of [compute_score] gives every
    symbol the score [-inf] whatever the prices are, and a sort has nothing
    to reorder; there is one equity fund, so the winner is that fund. *)
Definition short_history_score : PriceTable -> Z -> Z -> Q -> string -> score :=
  fun _ _ _ _ _ => NegInf.

Definition kept_order : Dict.t score -> Dict.t score := fun d => d.

Definition run_example := run_paper_once short_history_score kept_order.

(** One equity fund and the defensive fund, a band of 2%, the thresholds
    10% and 20%, four weeks of cooldown, half the account in the winner
    when de-risked, and the broker's rates. *)
Definition account_cfg (capital normal_weight : Q) : PaperConfig :=
  {| equity_etfs := ["510300"%string];
     defensive_etf := "511010"%string;
     initial_capital := capital;
     no_trade_band := 1 # 50;
     momentum_lookback_days := 20;
     vol_lookback_weeks := 8;
     vol_floor := 1 # 100;
     cfg_derisk_drawdown := 1 # 10;
     cfg_circuit_drawdown := 1 # 5;
     cfg_cooldown_weeks := 4;
     normal_equity_weight := normal_weight;
     derisk_equity_weight := 1 # 2;
     cost_model := broker_rates |}.

(** An account of 10 with 80% in the winner. *)
Definition small_account_cfg : PaperConfig := account_cfg 10 (8 # 10).

(** An account of 4, less than the minimum commission. *)
Definition tiny_account_cfg : PaperConfig := account_cfg 4 (8 # 10).

(** An account of 15.0019995 put whole into the winner; at a close of 10
    one share and its cost come to 15.002. *)
Definition edge_cfg : PaperConfig := account_cfg (150019995 # 10000000) 1.

(** Four Fridays, 1970-01-02 to 1970-01-23, with closes that never move:
    1 for the equity fund, 100 for the defensive fund. *)
Definition flat_row : Dict.t Q := [("510300"%string, 1); ("511010"%string, 100)].

Definition flat_prices : PriceTable :=
  [(1%Z, flat_row); (8%Z, flat_row); (15%Z, flat_row); (22%Z, flat_row)].

(** Two Fridays with the equity fund at 10. *)
Definition edge_row : Dict.t Q := [("510300"%string, 10); ("511010"%string, 100)].

Definition edge_prices : PriceTable := [(1%Z, edge_row); (8%Z, edge_row)].

(** The account file after the first and the second run of the small
    account on the flat prices. *)
Definition after_first_run : option PaperAccount :=
  snd (run_example small_account_cfg flat_prices None).

Definition after_second_run : option PaperAccount :=
  snd (run_example small_account_cfg flat_prices after_first_run).

(** The account and the rows of that first run. *)
Definition first_run_outcome : PaperAccount * list TradeRow :=
  match paper_advance short_history_score kept_order small_account_cfg flat_prices None with
  | Ok r => r
  | Raise _ => (new_account 0, [])
  end.

(** An account that has already traded on the last Friday of the table. *)
Definition settled_account : PaperAccount :=
  {| as_of := Some 22%Z;
     cash := 100;
     positions := [];
     equity_peak := 100;
     gate_state := NORMAL;
     gate_cooldown_left := 0%Z;
     history := [(22%Z, 100)] |}.

(** ** Quantities of the further properties *)

(** What holds of every gate a run of rebalances reaches from a new gate:
    the counter is never negative, it is positive in CIRCUIT_COOLDOWN only,
    and it never exceeds [cooldown_weeks - 1]. *)
Definition gate_ok (g : RiskGate) : Prop :=
  (0 <= cooldown_left g)%Z /\
  ((0 < cooldown_left g)%Z -> state g = CIRCUIT_COOLDOWN) /\
  (cooldown_left g <= Z.max (cooldown_weeks g - 1) 0)%Z.

(** The dataclass defaults: a gate starts NORMAL with a counter of 0. *)
Definition new_gate (derisk circuit : Q) (weeks : Z) : RiskGate :=
  mkRiskGate derisk circuit weeks NORMAL 0.

(** The sum of the weights of a target. *)
Definition weight_sum (tw : Dict.t Q) : Q :=
  fold_right (fun kv acc => snd kv + acc) 0 tw.

(** The trades of a list that are charged: those with a positive value. *)
Definition charged (trades : list TradeIntent) : list TradeIntent :=
  filter (fun t => negb (Qle_bool (trade_value t) 0)) trades.

(** The estimate the paper driver makes, one symbol at a time. *)
Definition per_symbol_estimate (cm : CostModel) (trades : list TradeIntent) : Q :=
  fold_right
    (fun t acc => est_cost_for cm (ti_symbol t) (trade_value t) (sell_value t) + acc)
    0 trades.

(** ** The no-trade band of the backtest ([app/backtest.py]) *)

(** Lines 146-154 of [ComputeTarget]: the adjusted weights are collected
    in a new dict. *)
Definition bt_band_step (band : Q) (pre_weights : Dict.t Q) (adj : Dict.t Q)
    (item : string * Q) : Dict.t Q :=
  let cw := Dict.get_or pre_weights (fst item) 0 in
  if Qltb (pyabs (snd item - cw)) band
  then Dict.set adj (fst item) cw
  else Dict.set adj (fst item) (snd item).

Definition bt_apply_band (band : Q) (pre_weights tw : Dict.t Q) : Dict.t Q :=
  fold_left (bt_band_step band pre_weights) tw [].

(** The weight one symbol is left with by either band. *)
Definition banded (band : Q) (cw : Dict.t Q) (item : string * Q) : string * Q :=
  let c := Dict.get_or cw (fst item) 0 in
  (fst item, if Qltb (pyabs (snd item - c)) band then c else snd item).

(** ** The maximum drawdown of the backtest ([app/backtest.py]) *)

(** [Series.cummax] *)
Fixpoint cummax_from (peak : Q) (l : list Q) : list Q :=
  match l with
  | [] => []
  | x :: r => let p := pymax peak x in p :: cummax_from p r
  end.

Definition cummax (l : list Q) : list Q :=
  match l with
  | [] => []
  | x :: r => x :: cummax_from x r
  end.

(** [Series.min]; the minimum of an empty series is NaN, here [None]. *)
Definition series_min (l : list Q) : option Q :=
  match l with
  | [] => None
  | x :: r => Some (fold_left (fun m y => if Qltb y m then y else m) r x)
  end.

(** Element-wise [equity / peak - 1.0] *)
Fixpoint drawdowns (equity peak : list Q) : list Q :=
  match equity, peak with
  | e :: equity', p :: peak' => (e / p - 1) :: drawdowns equity' peak'
  | _, _ => []
  end.

Definition _max_drawdown (equity : list Q) : option Q :=
  let peak := cummax equity in
  let dd := drawdowns equity peak in
  series_min dd.

(** ** Loading the price table ([app/paper.py]) *)

(** The close column of one parquet file, by date; the market directory
    holds one file per symbol. *)
Definition Frame : Type := list (date * Q).

Definition MarketDir : Type := Dict.t Frame.

Inductive loaded : Type :=
| Loaded (prices : PriceTable)
| FileNotFound (symbol : string).

(** The loop of [_load_prices]: the first symbol without a file raises. *)
Fixpoint read_frames (market_dir : MarketDir) (symbols : list string)
  : string + list (string * Frame) :=
  match symbols with
  | [] => inr []
  | s :: rest =>
      match Dict.get market_dir s with
      | None => inl s
      | Some frame =>
          match read_frames market_dir rest with
          | inl missing => inl missing
          | inr frames => inr ((s, frame) :: frames)
          end
      end
  end.

(** A date put in its place in an increasing index that may hold it
    already. *)
Fixpoint insert_date (d : date) (idx : list date) : list date :=
  match idx with
  | [] => [d]
  | x :: r =>
      if (d <? x)%Z then d :: x :: r
      else if (d =? x)%Z then x :: r
      else x :: insert_date d r
  end.

(** The index of [pd.concat(frames, axis=1).sort_index()] for at least
    one frame and frames that each hold a date once ([distinct_dates]
    below): the dates of all frames, each once, increasing. *)
Definition union_index (frames : list (string * Frame)) : list date :=
  fold_left (fun idx fr => fold_left (fun idx p => insert_date (fst p) idx) (snd fr) idx)
            frames [].

Fixpoint frame_close (frame : Frame) (d : date) : option Q :=
  match frame with
  | [] => None
  | (d', c) :: r => if (d =? d')%Z then Some c else frame_close r d
  end.

(** The row of the concatenated table at a date: a symbol without a close
    on that date has no entry (a NaN). *)
Definition concat_row (frames : list (string * Frame)) (d : date) : Dict.t Q :=
  fold_left (fun row fr =>
               match frame_close (snd fr) d with
               | Some c => Dict.set row (fst fr) c
               | None => row
               end)
            frames [].

Definition concat_sorted (frames : list (string * Frame)) : PriceTable :=
  map (fun d => (d, concat_row frames d)) (union_index frames).

(** One row of [ffill]: a missing close is taken from the row before. *)
Definition ffill_row (symbols : list string) (last row : Dict.t Q) : Dict.t Q :=
  fold_left (fun acc s =>
               match Dict.get row s with
               | Some v => Dict.set acc s v
               | None =>
                   match Dict.get last s with
                   | Some v => Dict.set acc s v
                   | None => acc
                   end
               end)
            symbols [].

Fixpoint ffill (symbols : list string) (last : Dict.t Q) (table : PriceTable) : PriceTable :=
  match table with
  | [] => []
  | (d, row) :: r =>
      let filled := ffill_row symbols last row in
      (d, filled) :: ffill symbols filled r
  end.

Definition complete_row (symbols : list string) (row : Dict.t Q) : bool :=
  forallb (Dict.mem row) symbols.

(** [dropna()]: a row with a missing close goes. *)
Definition dropna (symbols : list string) (table : PriceTable) : PriceTable :=
  filter (fun r => complete_row symbols (snd r)) table.

Definition _load_prices (market_dir : MarketDir) (symbols : list string) : loaded :=
  match read_frames market_dir symbols with
  | inl missing => FileNotFound missing
  | inr frames => Loaded (dropna symbols (ffill symbols [] (concat_sorted frames)))
  end.

(** No file of a requested symbol holds a date twice. *)
Definition distinct_dates (market_dir : MarketDir) (symbols : list string) : Prop :=
  forall s frame,
    In s symbols -> Dict.get market_dir s = Some frame -> NoDup (map fst frame).

(** A table in which every row has a close for every symbol. *)
Definition complete_table (symbols : list string) (prices : PriceTable) : Prop :=
  Forall (fun r => complete_row symbols (snd r) = true) prices.

(** Two files: the equity fund trades from Friday 1970-01-02, the
    defensive fund from the Friday after and not on the third Friday. *)
Definition two_files : MarketDir :=
  [("510300"%string, [(1%Z, 1); (8%Z, 2); (15%Z, 3); (22%Z, 4)]);
   ("511010"%string, [(8%Z, 100); (22%Z, 101)])].

(** ** Quantities of the trade rows *)

(** What one trade row moves into the cash: the value of its share delta
    at its price goes out (a sale has a negative delta), and so does its
    cost. *)
Definition cash_flow (r : TradeRow) : Q :=
  - (inject_Z (tr_delta r) * tr_px r) - tr_cost r.

Definition net_cash (trades : list TradeRow) : Q :=
  fold_right (fun r acc => cash_flow r + acc) 0 trades.

Definition total_cost (trades : list TradeRow) : Q :=
  fold_right (fun r acc => tr_cost r + acc) 0 trades.

(** The shares of a symbol in a positions dict, [positions.get(s, 0)]. *)
Definition held (pos : Dict.t Z) (s : string) : Z := Dict.get_or pos s 0%Z.

(** Every valuation of the history is at most the peak. *)
Definition peak_covers_history (a : PaperAccount) : Prop :=
  Forall (fun dv => snd dv <= equity_peak a) (history a).

(** ** Invariants of the trade loops *)

(** Every symbol held before the trades is still a key of the positions,
    so that [positions.get(s, pre_positions.get(s, 0))] reads the
    positions. *)
Definition keeps_keys (pre_positions : Dict.t Z) (st : ExecState) : Prop :=
  forall k, Dict.mem pre_positions k = true -> Dict.mem (ex_positions st) k = true.

(** Cash plus holdings at the trade prices is the starting value less the
    costs of the rows so far. *)
Definition value_balanced (row : Dict.t Q) (v0 : Q) (st : ExecState) : Prop :=
  ex_cash st + holdings_value (ex_positions st) row == v0 - total_cost (ex_trades st).

(** The shares of [s] lie between the shares held before the trades and
    the target. *)
Definition between_held_and_target (pre_positions target_shares : Dict.t Z)
    (s : string) (pos : Dict.t Z) : Prop :=
  let cur := held pre_positions s in
  let tgt := Dict.get_or target_shares s cur in
  (Z.min cur tgt <= held pos s <= Z.max cur tgt)%Z.

(** ** The gate a run starts from ([app/paper.py]) *)

(** Lines 126-128: the gate of the configuration, set to the state and the
    counter of the account. *)
Definition stored_gate (cfg : PaperConfig) (a : PaperAccount) : RiskGate :=
  mkRiskGate (cfg_derisk_drawdown cfg) (cfg_circuit_drawdown cfg) (cfg_cooldown_weeks cfg)
             (gate_state a) (gate_cooldown_left a).

(** Lines 135-137: the drawdown of the signal date, for the account after
    the backfill and the row of the signal date; the peak it is measured
    against is first raised to the signal-date value. *)
Definition paper_drawdown (account : PaperAccount) (row_signal : Dict.t Q) : Q :=
  let signal_value := _account_value account row_signal in
  let peak := pymax (equity_peak account) signal_value in
  if Qltb 0 peak then 1 - signal_value / peak else 0.

(** ** The recorder of the backtest ([app/backtest.py]) *)

(** A dict keyed by dates. *)
Fixpoint date_get (d : list (date * Q)) (k : date) : option Q :=
  match d with
  | [] => None
  | (k', v) :: r => if (k =? k')%Z then Some v else date_get r k
  end.

Fixpoint date_set (d : list (date * Q)) (k : date) (v : Q) : list (date * Q) :=
  match d with
  | [] => [(k, v)]
  | (k', v') :: r => if (k =? k')%Z then (k', v) :: r else (k', v') :: date_set r k v
  end.

(** What the algos keep in [target.perm]; every key is absent at first. *)
Record Perm : Type := mkPerm {
  equity_by_date : list (date * Q);
  peak_by_date : list (date * Q);
  perm_peak : option Q
}.

Definition empty_perm : Perm := mkPerm [] [] None.

(** [DailyRecorder.__call__] on the day [d] with [target.value = v]. *)
Definition DailyRecorder (perm : Perm) (d : date) (v : Q) : Perm :=
  let equity := date_set (equity_by_date perm) d v in
  let prev_peak := match perm_peak perm with Some p => p | None => v end in
  let pk := pymax prev_peak v in
  {| equity_by_date := equity;
     peak_by_date := date_set (peak_by_date perm) d pk;
     perm_peak := Some pk |}.

(** The end of [ApplyCosts.__call__]: the value after the costs is
    written over the record of the day. *)
Definition record_after_costs (perm : Perm) (now : date) (value : Q) : Perm :=
  let equity := date_set (equity_by_date perm) now value in
  let prev_peak := match perm_peak perm with Some p => p | None => value end in
  let pk := pymax prev_peak value in
  {| equity_by_date := equity;
     peak_by_date := date_set (peak_by_date perm) now pk;
     perm_peak := Some pk |}.

(** The drawdown [ComputeTarget] gives the gate. *)
Definition signal_drawdown (perm : Perm) (signal_date : date) (value : Q) : Q :=
  let signal_value :=
    match date_get (equity_by_date perm) signal_date with Some v => v | None => value end in
  let peak_value :=
    match date_get (peak_by_date perm) signal_date with
    | Some p => p
    | None => match perm_peak perm with Some p => p | None => signal_value end
    end in
  if Qltb 0 peak_value then 1 - signal_value / peak_value else 0.

(** The writes to [perm] of a backtest, in order. *)
Inductive perm_write : Type :=
| Daily (d : date) (v : Q)
| AfterCosts (d : date) (v : Q).

Definition write_perm (perm : Perm) (w : perm_write) : Perm :=
  match w with
  | Daily d v => DailyRecorder perm d v
  | AfterCosts d v => record_after_costs perm d v
  end.

(** Each recorded value is at most the peak recorded with it, which is at
    most the running peak. *)
Definition perm_ok (perm : Perm) : Prop :=
  (forall d v, date_get (equity_by_date perm) d = Some v ->
               exists p, date_get (peak_by_date perm) d = Some p /\ v <= p) /\
  (forall d p, date_get (peak_by_date perm) d = Some p ->
               (exists v, date_get (equity_by_date perm) d = Some v) /\
               exists pk, perm_peak perm = Some pk /\ p <= pk).

(** ** The trades [ApplyCosts] estimates ([app/backtest.py]) *)

Definition cost_intent_step (pre_weights post_weights : Dict.t Q) (pre_value : Q)
    (trades : list TradeIntent) (s : string) : list TradeIntent :=
  let w0 := Dict.get_or pre_weights s 0 in
  let w1 := Dict.get_or post_weights s 0 in
  let dw := pyabs (w1 - w0) in
  if Qle_bool dw 0 then trades
  else trades ++ [mkTradeIntent s (dw * pre_value) (pymax (w0 - w1) 0 * pre_value)].

Definition cost_intents (symbols : list string) (pre_weights post_weights : Dict.t Q)
    (pre_value : Q) : list TradeIntent :=
  fold_left (cost_intent_step pre_weights post_weights pre_value) symbols [].

(** ** Reading the configuration ([app/config.py]) *)

(** A YAML value: a mapping from keys to values, or anything else. *)
Inductive yaml : Type :=
| YScalar (v : string)
| YMap (entries : yaml_map)
with yaml_map : Type :=
| YEmpty
| YEntry (k : string) (v : yaml) (rest : yaml_map).

(** [cur[k]] for a key that [k in cur] holds of. *)
Fixpoint yaml_lookup (d : yaml_map) (k : string) : option yaml :=
  match d with
  | YEmpty => None
  | YEntry k' v rest => if String.eqb k k' then Some v else yaml_lookup rest k
  end.

(** [AppConfig.get] on [raw], with its keys and its default. *)
Fixpoint AppConfig_get (cur : yaml) (keys : list string) (default : yaml) : yaml :=
  match keys with
  | [] => cur
  | k :: ks =>
      match cur with
      | YMap d =>
          match yaml_lookup d k with
          | Some v => AppConfig_get v ks default
          | None => default
          end
      | YScalar _ => default
      end
  end.

(** ** Nonnegative rates *)

Definition nonneg_rates (cm : CostModel) : Prop :=
  0 <= commission_rate cm /\ 0 <= stamp_tax_rate cm /\ 0 <= slippage_bps cm.

(** ** Rows of the trades list *)

(** What a row of [trades] says: a price above zero; a sale goes down to
    the target, a buy goes up and not beyond it, a HOLD row changes nothing
    and names the held shares as its target. *)
Definition sound_row (r : TradeRow) : Prop :=
  0 < tr_px r /\
  match tr_action r with
  | SELL => (tr_delta r < 0)%Z /\ tr_tgt r = (tr_cur r + tr_delta r)%Z
  | BUY => (0 < tr_delta r)%Z /\ (tr_cur r + tr_delta r <= tr_tgt r)%Z
  | HOLD => tr_delta r = 0%Z /\ tr_tgt r = tr_cur r /\ tr_cost r = 0
  end.

(** ** The dates of the history *)

(** The dates of the history go up strictly and none is after [as_of]; an
    account that has never traded has no history. *)
Definition history_in_order (a : PaperAccount) : Prop :=
  StronglySorted Z.lt (map fst (history a)) /\
  match as_of a with
  | Some last => Forall (fun d => (d <= last)%Z) (map fst (history a))
  | None => history a = []
  end.

(** * Properties *)

(** ** Comparisons and maxima *)

Lemma Qltb_lt (a b : Q) : Qltb a b = true <-> a < b.
Proof.
  unfold Qltb. rewrite negb_true_iff. split; intro H.
  - apply Qnot_le_lt. intro Hle. apply Qle_bool_iff in Hle. congruence.
  - destruct (Qle_bool b a) eqn:E; trivial.
    apply Qle_bool_iff in E. apply Qle_not_lt in E. contradiction.
Qed.

Lemma Qltb_ge (a b : Q) : Qltb a b = false <-> b <= a.
Proof.
  unfold Qltb. rewrite negb_false_iff. apply Qle_bool_iff.
Qed.

Lemma Qle_bool_false (a b : Q) : Qle_bool a b = false <-> b < a.
Proof.
  rewrite <- Qltb_lt. unfold Qltb. rewrite negb_true_iff. tauto.
Qed.

Lemma pymax_ge_l (a b : Q) : a <= pymax a b.
Proof.
  unfold pymax. destruct (Qltb a b) eqn:E.
  - apply Qltb_lt in E. lra.
  - lra.
Qed.

Lemma pymax_ge_r (a b : Q) : b <= pymax a b.
Proof.
  unfold pymax. destruct (Qltb a b) eqn:E.
  - lra.
  - apply Qltb_ge in E. exact E.
Qed.

Lemma pymax_Qmax (a b : Q) : pymax a b == Qmax a b.
Proof.
  unfold pymax. destruct (Qltb a b) eqn:E.
  - apply Qltb_lt in E. symmetry. apply Q.max_r. lra.
  - apply Qltb_ge in E. symmetry. apply Q.max_l. exact E.
Qed.

Lemma pyabs_nonneg (a : Q) : 0 <= pyabs a.
Proof.
  unfold pyabs. destruct (Qltb a 0) eqn:E.
  - apply Qltb_lt in E. lra.
  - apply Qltb_ge in E. exact E.
Qed.

Lemma RiskState_eqb_eq (a b : RiskState) : RiskState_eqb a b = true <-> a = b.
Proof. destruct a, b; simpl; split; congruence. Qed.

Lemma RiskState_eqb_neq (a b : RiskState) : RiskState_eqb a b = false <-> a <> b.
Proof. destruct a, b; simpl; split; congruence. Qed.

(** ** The risk gate *)

Lemma threshold_regime_cases (g : RiskGate) (d : Q) :
  (circuit_drawdown g <= d -> threshold_regime g d = CIRCUIT_COOLDOWN) /\
  (d < circuit_drawdown g -> derisk_drawdown g <= d -> threshold_regime g d = DE_RISK) /\
  (d < circuit_drawdown g -> d < derisk_drawdown g -> threshold_regime g d = NORMAL).
Proof.
  unfold threshold_regime. repeat split; intros.
  - apply Qle_bool_iff in H. now rewrite H.
  - apply Qle_bool_false in H. apply Qle_bool_iff in H0. now rewrite H, H0.
  - apply Qle_bool_false in H, H0. now rewrite H, H0.
Qed.

Lemma set_gate_same (g : RiskGate) : set_gate g (state g) (cooldown_left g) = g.
Proof. destruct g; reflexivity. Qed.

(** C2.  [on_rebalance] follows the ordered transition rules: (1) in
    CIRCUIT_COOLDOWN with a positive counter the state is kept, the counter
    goes down by exactly one and no change is reported; (2) otherwise the
    candidate is the regime of the thresholds (CIRCUIT_COOLDOWN from
    [circuit_drawdown] on, else DE_RISK from [derisk_drawdown] on, else
    NORMAL); (3) a candidate CIRCUIT_COOLDOWN reached from another state
    sets the counter to [max (cooldown_weeks - 1) 0] and reports a change;
    (4) otherwise the candidate is adopted, the counter is kept and a change
    is reported exactly when the candidate differs from the state at entry.
    The thresholds and [cooldown_weeks] are never touched and the reported
    state is the state of the gate after the call. *)
Theorem on_rebalance_transition_rules (g : RiskGate) (d : Q) :
  let g' := fst (on_rebalance g d) in
  let reported := fst (snd (on_rebalance g d)) in
  let changed := snd (snd (on_rebalance g d)) in
  let candidate := threshold_regime g d in
  (derisk_drawdown g' = derisk_drawdown g /\
   circuit_drawdown g' = circuit_drawdown g /\
   cooldown_weeks g' = cooldown_weeks g /\
   reported = state g') /\
  (state g = CIRCUIT_COOLDOWN /\ (0 < cooldown_left g)%Z ->
     state g' = CIRCUIT_COOLDOWN /\
     cooldown_left g' = (cooldown_left g - 1)%Z /\
     changed = false) /\
  ((circuit_drawdown g <= d -> candidate = CIRCUIT_COOLDOWN) /\
   (d < circuit_drawdown g -> derisk_drawdown g <= d -> candidate = DE_RISK) /\
   (d < circuit_drawdown g -> d < derisk_drawdown g -> candidate = NORMAL)) /\
  (~ (state g = CIRCUIT_COOLDOWN /\ (0 < cooldown_left g)%Z) ->
     (candidate = CIRCUIT_COOLDOWN /\ state g <> CIRCUIT_COOLDOWN ->
        state g' = CIRCUIT_COOLDOWN /\
        cooldown_left g' = Z.max (cooldown_weeks g - 1) 0 /\
        changed = true) /\
     (~ (candidate = CIRCUIT_COOLDOWN /\ state g <> CIRCUIT_COOLDOWN) ->
        state g' = candidate /\
        cooldown_left g' = cooldown_left g /\
        (changed = true <-> candidate <> state g))).
Proof.
  cbv zeta.
  split; [| split; [| split; [apply threshold_regime_cases |]]].
  - unfold on_rebalance.
    destruct (RiskState_eqb (next_state g d) CIRCUIT_COOLDOWN
              && negb (RiskState_eqb (state g) CIRCUIT_COOLDOWN));
      [| destruct (RiskState_eqb (state g) CIRCUIT_COOLDOWN && (0 <? cooldown_left g)%Z)];
      simpl; auto.
  - intros [Hs Hc]. apply Z.ltb_lt in Hc.
    unfold on_rebalance, next_state. rewrite Hs, Hc. simpl. auto.
  - intros Hno.
    assert (Hnext : next_state g d = threshold_regime g d).
    { unfold next_state.
      destruct (RiskState_eqb (state g) CIRCUIT_COOLDOWN) eqn:Es; simpl; trivial.
      destruct (0 <? cooldown_left g)%Z eqn:Ec; trivial.
      exfalso. apply Hno. split.
      - now apply RiskState_eqb_eq.
      - now apply Z.ltb_lt. }
    assert (Hsecond :
              RiskState_eqb (state g) CIRCUIT_COOLDOWN && (0 <? cooldown_left g)%Z = false).
    { destruct (RiskState_eqb (state g) CIRCUIT_COOLDOWN) eqn:Es; simpl; trivial.
      destruct (0 <? cooldown_left g)%Z eqn:Ec; trivial.
      exfalso. apply Hno. split.
      - now apply RiskState_eqb_eq.
      - now apply Z.ltb_lt. }
    unfold on_rebalance. rewrite Hnext, Hsecond. split.
    + intros [Hcand Hprev]. rewrite Hcand.
      apply RiskState_eqb_neq in Hprev. rewrite Hprev. simpl. auto.
    + intros Hnot.
      assert (Hfirst :
                RiskState_eqb (threshold_regime g d) CIRCUIT_COOLDOWN
                && negb (RiskState_eqb (state g) CIRCUIT_COOLDOWN) = false).
      { destruct (RiskState_eqb (threshold_regime g d) CIRCUIT_COOLDOWN) eqn:E1; simpl; trivial.
        destruct (RiskState_eqb (state g) CIRCUIT_COOLDOWN) eqn:E2; simpl; trivial.
        exfalso. apply Hnot. split.
        - now apply RiskState_eqb_eq.
        - now apply RiskState_eqb_neq. }
      rewrite Hfirst. simpl. repeat split; trivial.
      * intros Hch. apply negb_true_iff in Hch. now apply RiskState_eqb_neq.
      * intros Hne. apply negb_true_iff. now apply RiskState_eqb_neq.
Qed.

Lemma on_rebalance_deep_drawdown (g : RiskGate) (d : Q) :
  state g = CIRCUIT_COOLDOWN -> cooldown_left g = 0%Z -> circuit_drawdown g <= d ->
  on_rebalance g d = (g, (CIRCUIT_COOLDOWN, false)).
Proof.
  intros Hs Hc Hd.
  unfold on_rebalance, next_state, threshold_regime.
  apply Qle_bool_iff in Hd. rewrite Hs, Hc, Hd. simpl.
  rewrite <- Hs at 1. rewrite <- Hc. now rewrite set_gate_same.
Qed.

(** C3.  A gate in CIRCUIT_COOLDOWN whose counter is 0 and whose drawdown
    is still at or above [circuit_drawdown] is left exactly as it is, with
    the counter still 0 and no change reported: the cooldown is not armed
    again.  The same holds for every further call as long as the drawdown
    stays at or above the threshold; the first drawdown below it moves the
    gate out of CIRCUIT_COOLDOWN. *)
Theorem cooldown_not_rearmed (g : RiskGate) :
  state g = CIRCUIT_COOLDOWN -> cooldown_left g = 0%Z ->
  (forall d, circuit_drawdown g <= d ->
     on_rebalance g d = (g, (CIRCUIT_COOLDOWN, false))) /\
  (forall ds, Forall (fun d => circuit_drawdown g <= d) ds ->
     run_gate g ds = (g, map (fun _ => (CIRCUIT_COOLDOWN, false)) ds)) /\
  (forall d, d < circuit_drawdown g ->
     state (fst (on_rebalance g d)) <> CIRCUIT_COOLDOWN /\
     cooldown_left (fst (on_rebalance g d)) = 0%Z).
Proof.
  intros Hs Hc. split; [| split].
  - intros d Hd. now apply on_rebalance_deep_drawdown.
  - intros ds Hall. induction Hall as [| d ds Hd _ IH]; simpl.
    + reflexivity.
    + rewrite (on_rebalance_deep_drawdown g d Hs Hc Hd), IH. reflexivity.
  - intros d Hd. apply Qle_bool_false in Hd.
    unfold on_rebalance, next_state, threshold_regime.
    rewrite Hs, Hc, Hd. simpl.
    destruct (Qle_bool (derisk_drawdown g) d); simpl; split; congruence.
Qed.

Lemma cooldown_not_rearmed_witness :
  run_gate gate_cooled_down [22 # 100; 1 # 4; 1 # 5]
  = (gate_cooled_down,
     [(CIRCUIT_COOLDOWN, false); (CIRCUIT_COOLDOWN, false); (CIRCUIT_COOLDOWN, false)]).
Proof.
  apply (proj1 (proj2 (cooldown_not_rearmed gate_cooled_down eq_refl eq_refl))).
  repeat constructor; discriminate.
Defined.

(** ** Target weights *)

Lemma target_weights_equations (eq def : string) (nw dw : Q) :
  target_weights CIRCUIT_COOLDOWN eq def nw dw = [(def, 1)] /\
  target_weights DE_RISK eq def nw dw
  = (if String.eqb def eq then [(eq, 1 - dw)] else [(eq, dw); (def, 1 - dw)]) /\
  target_weights NORMAL eq def nw dw = [(eq, nw)].
Proof.
  repeat split.
Qed.

Lemma target_weights_bounded (st : RiskState) (eq def : string) (nw dw : Q) :
  unit_weight nw -> unit_weight dw ->
  forall s w, In (s, w) (target_weights st eq def nw dw) -> unit_weight w.
Proof.
  intros [Hn0 Hn1] [Hd0 Hd1] s w Hin.
  destruct (target_weights_equations eq def nw dw) as (Ec & Ed & En).
  unfold unit_weight.
  destruct st.
  - rewrite En in Hin. destruct Hin as [Heq | []]. inversion Heq; subst. lra.
  - rewrite Ed in Hin. destruct (String.eqb def eq).
    + destruct Hin as [Heq | []]. inversion Heq; subst. lra.
    + destruct Hin as [Heq | [Heq | []]]; inversion Heq; subst; lra.
  - rewrite Ec in Hin. destruct Hin as [Heq | []]. inversion Heq; subst. lra.
Qed.

(** C5, as stated, fails: nothing clamps the configured weights, so a
    de-risk weight of 1.5 gives the winner 1.5 and the defensive symbol
    -0.5. *)
Lemma target_weights_not_always_unit :
  ~ (forall s w, In (s, w) (target_weights DE_RISK "510300" "511010" 1 (3 # 2)) ->
                 unit_weight w).
Proof.
  intros H. destruct (H "510300"%string (3 # 2)) as [_ Hle].
  - simpl. left. reflexivity.
  - revert Hle. apply Qlt_not_le. reflexivity.
Qed.

(** C5, amended.  For configured weights that are themselves in [0,1],
    every weight [target_weights] returns is in [0,1]; in CIRCUIT_COOLDOWN
    the result is exactly [{defensive: 1}], in DE_RISK it is
    [{winner: derisk_weight, defensive: 1 - derisk_weight}] (one entry, the
    defensive one, when the winner is the defensive symbol, as a dict
    literal with a repeated key gives), in NORMAL it is
    [{winner: normal_weight}]. *)
Theorem target_weights_unit (st : RiskState) (eq def : string) (nw dw : Q) :
  unit_weight nw -> unit_weight dw ->
  (forall s w, In (s, w) (target_weights st eq def nw dw) -> unit_weight w) /\
  target_weights CIRCUIT_COOLDOWN eq def nw dw = [(def, 1)] /\
  target_weights DE_RISK eq def nw dw
  = (if String.eqb def eq then [(eq, 1 - dw)] else [(eq, dw); (def, 1 - dw)]) /\
  target_weights NORMAL eq def nw dw = [(eq, nw)].
Proof.
  intros Hn Hd. split; [| apply target_weights_equations].
  now apply target_weights_bounded.
Qed.

Lemma target_weights_unit_witness :
  target_weights DE_RISK "510300" "511010" 1 (1 # 2)
  = [("510300"%string, 1 # 2); ("511010"%string, 1 - (1 # 2))].
Proof.
  assert (H1 : unit_weight 1) by (split; discriminate).
  assert (H2 : unit_weight (1 # 2)) by (split; discriminate).
  exact (proj1 (proj2 (proj2
           (target_weights_unit DE_RISK "510300" "511010" 1 (1 # 2) H1 H2)))).
Defined.

(** ** The cost model *)

Lemma estimate_step_cost (cm : CostModel) (total : Q) (t : TradeIntent) :
  estimate_step cm total t == total + trade_cost cm t.
Proof.
  unfold estimate_step, trade_cost.
  destruct (Qle_bool (trade_value t) 0).
  - ring.
  - rewrite pymax_Qmax. field.
Qed.

Lemma fold_estimate (cm : CostModel) (trades : list TradeIntent) (total : Q) :
  fold_left (estimate_step cm) trades total == total + sum_costs cm trades.
Proof.
  revert total. induction trades as [| t r IH]; intros total; simpl.
  - ring.
  - rewrite IH, estimate_step_cost. ring.
Qed.

Lemma estimate_is_sum (cm : CostModel) (trades : list TradeIntent) :
  estimate_for_rebalance cm trades == sum_costs cm trades.
Proof.
  unfold estimate_for_rebalance. rewrite fold_estimate. ring.
Qed.

Lemma sum_costs_app (cm : CostModel) (a b : list TradeIntent) :
  sum_costs cm (a ++ b) == sum_costs cm a + sum_costs cm b.
Proof.
  induction a as [| t a IH]; simpl.
  - ring.
  - rewrite IH. ring.
Qed.

Lemma trade_cost_nonneg (cm : CostModel) (t : TradeIntent) :
  0 <= commission_rate cm -> 0 <= stamp_tax_rate cm -> 0 <= slippage_bps cm ->
  0 <= sell_value t ->
  0 <= trade_cost cm t.
Proof.
  intros Hc Hs Hb Hv. unfold trade_cost.
  destruct (Qle_bool (trade_value t) 0) eqn:E; [lra |].
  apply Qle_bool_false in E.
  assert (0 <= trade_value t * commission_rate cm) by (apply Qmult_le_0_compat; lra).
  assert (trade_value t * commission_rate cm
          <= Qmax (trade_value t * commission_rate cm) (min_commission cm))
    by apply Q.le_max_l.
  assert (0 <= sell_value t * stamp_tax_rate cm) by (apply Qmult_le_0_compat; lra).
  assert (0 <= trade_value t * slippage_bps cm) by (apply Qmult_le_0_compat; lra).
  assert (trade_value t * slippage_bps cm / 10000
          == (trade_value t * slippage_bps cm) * (1 # 10000)) as -> by field.
  lra.
Qed.

Lemma trade_cost_monotone (cm : CostModel) (t t' : TradeIntent) :
  0 <= commission_rate cm -> 0 <= stamp_tax_rate cm -> 0 <= slippage_bps cm ->
  0 <= sell_value t -> sell_value t' == sell_value t ->
  trade_value t <= trade_value t' ->
  trade_cost cm t <= trade_cost cm t'.
Proof.
  intros Hc Hs Hb Hv Hsv Hle.
  destruct (Qle_bool (trade_value t) 0) eqn:E.
  - assert (trade_cost cm t = 0) as -> by (unfold trade_cost; now rewrite E).
    apply trade_cost_nonneg; trivial. lra.
  - unfold trade_cost. rewrite E.
    apply Qle_bool_false in E.
    assert (E' : Qle_bool (trade_value t') 0 = false) by (apply Qle_bool_false; lra).
    rewrite E', Hsv.
    assert (Hcomm : Qmax (trade_value t * commission_rate cm) (min_commission cm)
                    <= Qmax (trade_value t' * commission_rate cm) (min_commission cm)).
    { apply Q.max_le_compat_r. apply Qmult_le_compat_r; trivial. }
    assert (Hslip : trade_value t * slippage_bps cm <= trade_value t' * slippage_bps cm)
      by (apply Qmult_le_compat_r; trivial).
    assert (trade_value t * slippage_bps cm / 10000
            == (trade_value t * slippage_bps cm) * (1 # 10000)) as -> by field.
    assert (trade_value t' * slippage_bps cm / 10000
            == (trade_value t' * slippage_bps cm) * (1 # 10000)) as -> by field.
    lra.
Qed.

(** C8, as stated, fails: the rates are not checked, and with a negative
    slippage the estimate goes down when the traded value goes up. *)
Lemma estimate_not_monotone_for_all_rates :
  ~ (forall pre post t t',
       sell_value t' == sell_value t ->
       trade_value t <= trade_value t' ->
       estimate_for_rebalance rebate_rates (pre ++ t :: post)
       <= estimate_for_rebalance rebate_rates (pre ++ t' :: post)).
Proof.
  intros H.
  specialize (H [] [] (trade_of 1 0) (trade_of 2 0)).
  revert H. vm_compute. intros H. apply H; congruence.
Qed.

(** C8, amended.  The estimate of an empty trade list is 0; the estimate
    is the sum of the per-trade costs, where a trade with
    [trade_value <= 0] adds nothing and a trade with [trade_value > 0] adds
    [max(trade_value * commission_rate, min_commission)
     + sell_value * stamp_tax_rate + trade_value * slippage_bps / 10000];
    and, for a commission rate, a stamp-tax rate and a slippage that are
    not negative, raising the [trade_value] of one trade (its [sell_value],
    not negative, and all other trades kept) never lowers the estimate. *)
Theorem estimate_zero_and_monotone (cm : CostModel) :
  0 <= commission_rate cm -> 0 <= stamp_tax_rate cm -> 0 <= slippage_bps cm ->
  estimate_for_rebalance cm [] = 0 /\
  (forall trades, estimate_for_rebalance cm trades == sum_costs cm trades) /\
  (forall pre post t t',
     0 <= sell_value t -> sell_value t' == sell_value t ->
     trade_value t <= trade_value t' ->
     estimate_for_rebalance cm (pre ++ t :: post)
     <= estimate_for_rebalance cm (pre ++ t' :: post)).
Proof.
  intros Hc Hs Hb. split; [reflexivity | split].
  - apply estimate_is_sum.
  - intros pre post t t' Hv Hsv Hle.
    rewrite !estimate_is_sum, !sum_costs_app. simpl.
    pose proof (trade_cost_monotone cm t t' Hc Hs Hb Hv Hsv Hle). lra.
Qed.

Lemma estimate_zero_and_monotone_witness :
  estimate_for_rebalance broker_rates [trade_of 1000 0; trade_of 20000 20000]
  <= estimate_for_rebalance broker_rates [trade_of 1000 0; trade_of 30000 20000].
Proof.
  assert (Hc : 0 <= commission_rate broker_rates) by discriminate.
  assert (Hs : 0 <= stamp_tax_rate broker_rates) by discriminate.
  assert (Hb : 0 <= slippage_bps broker_rates) by discriminate.
  apply (proj2 (proj2 (estimate_zero_and_monotone broker_rates Hc Hs Hb))
           [trade_of 1000 0] [] (trade_of 20000 20000) (trade_of 30000 20000)).
  - discriminate.
  - reflexivity.
  - discriminate.
Defined.

(** ** Weekly rebalance flags *)

Lemma index_ne_shift (periods : list Z) :
  index_ne periods (period_shift 1 periods) = map (fun _ => true) periods.
Proof.
  induction periods as [| p r IH]; simpl.
  - reflexivity.
  - rewrite IH. f_equal. apply negb_true_iff. apply Z.eqb_neq. lia.
Qed.

(** Since a period never equals its successor, every day but the first is
    flagged. *)
Lemma first_day_flags (d : date) (rest : list date) :
  first_day_after_week_end (d :: rest) = false :: map (fun _ => true) rest.
Proof.
  unfold first_day_after_week_end. rewrite index_ne_shift. simpl.
  now rewrite map_map.
Qed.

Lemma first_day_length (dates : list date) :
  List.length (first_day_after_week_end dates) = List.length dates.
Proof.
  destruct dates as [| d rest]; [reflexivity |].
  rewrite first_day_flags. simpl. now rewrite length_map.
Qed.

Lemma flagged_position (dates : list date) (i : nat) :
  nth_error (first_day_after_week_end dates) i = Some true ->
  (1 <= i < List.length dates)%nat.
Proof.
  intros H. split.
  - destruct i; [| lia]. destruct dates as [| d rest]; [discriminate |].
    rewrite first_day_flags in H. discriminate.
  - rewrite <- first_day_length. apply nth_error_Some. congruence.
Qed.

Lemma mask_In {A} (l : list A) (flag : list bool) (x : A) :
  In x (mask l flag) ->
  exists i, nth_error l i = Some x /\ nth_error flag i = Some true.
Proof.
  revert flag. induction l as [| y l IH]; intros flag Hin; [contradiction |].
  destruct flag as [| b flag]; [contradiction |].
  simpl in Hin. destruct b.
  - destruct Hin as [-> | Hin].
    + exists 0%nat. auto.
    + destruct (IH _ Hin) as (i & H1 & H2). exists (S i). auto.
  - destruct (IH _ Hin) as (i & H1 & H2). exists (S i). auto.
Qed.

Lemma get_loc_nth (idx : list date) (i : nat) (d : date) :
  NoDup idx -> nth_error idx i = Some d -> get_loc idx d = Ok (Z.of_nat i).
Proof.
  revert i. induction idx as [| d' r IH]; intros i Hnd Hn.
  - destruct i; discriminate.
  - inversion Hnd as [| ? ? Hnotin Hnd']; subst.
    destruct i as [| i]; simpl in *.
    + inversion Hn; subst. now rewrite Z.eqb_refl.
    + destruct (d =? d')%Z eqn:E.
      * apply Z.eqb_eq in E; subst. exfalso. apply Hnotin.
        eapply nth_error_In; eauto.
      * rewrite (IH i Hnd' Hn). simpl. f_equal. lia.
Qed.

Lemma py_getitem_nth {A} (l : list A) (i : nat) (a : A) :
  nth_error l i = Some a -> py_getitem l (Z.of_nat i) = Ok a.
Proof.
  intros H. unfold py_getitem.
  assert (Hneg : (Z.of_nat i <? 0)%Z = false) by (apply Z.ltb_ge; lia).
  rewrite Hneg, Hneg, Nat2Z.id, H. reflexivity.
Qed.

Lemma sorted_NoDup (idx : list date) : StronglySorted Z.lt idx -> NoDup idx.
Proof.
  induction 1 as [| d r _ IH Hall]; constructor; trivial.
  intros Hin. rewrite Forall_forall in Hall. specialize (Hall _ Hin). lia.
Qed.

Lemma sorted_nth_lt (idx : list date) (i j : nat) (a b : date) :
  StronglySorted Z.lt idx -> (i < j)%nat ->
  nth_error idx i = Some a -> nth_error idx j = Some b -> (a < b)%Z.
Proof.
  intros Hs. revert i j. induction Hs as [| d r _ IH Hall]; intros i j Hij Ha Hb.
  - destruct i; discriminate.
  - destruct j as [| j]; [lia |]. simpl in Hb.
    destruct i as [| i]; simpl in Ha.
    + inversion Ha; subst. rewrite Forall_forall in Hall.
      apply Hall. eapply nth_error_In; eauto.
    + apply (IH i j); trivial. lia.
Qed.

(** ** Dicts *)

Lemma dict_get_In {V} (d : Dict.t V) (k : string) :
  In k (Dict.keys d) -> exists v, Dict.get d k = Some v.
Proof.
  induction d as [| [k' v'] r IH]; simpl; [contradiction |].
  intros [-> | Hin].
  - rewrite String.eqb_refl. eauto.
  - destruct (String.eqb k k'); eauto.
Qed.

Lemma dict_get_Some_In {V} (d : Dict.t V) (k : string) (v : V) :
  Dict.get d k = Some v -> In (k, v) d.
Proof.
  induction d as [| [k' v'] r IH]; simpl; [discriminate |].
  destruct (String.eqb k k') eqn:E.
  - apply String.eqb_eq in E. subst. intros H. inversion H. now left.
  - intros H. right. auto.
Qed.

Lemma dict_set_In {V} (d : Dict.t V) (k : string) (v : V) (x : string * V) :
  In x (Dict.set d k v) -> In x d \/ x = (k, v).
Proof.
  induction d as [| [k' v'] r IH]; simpl.
  - intros [<- | []]. now right.
  - destruct (String.eqb k k') eqn:E.
    + apply String.eqb_eq in E. subst. simpl. intros [<- | Hin]; auto.
    + simpl. intros [<- | Hin]; auto. destruct (IH Hin); auto.
Qed.

Lemma dict_set_Forall {V} (P : string * V -> Prop) (d : Dict.t V) (k : string) (v : V) :
  Forall P d -> P (k, v) -> Forall P (Dict.set d k v).
Proof.
  intros Hd Hv. apply Forall_forall. intros x Hin.
  destruct (dict_set_In _ _ _ _ Hin) as [H | ->]; trivial.
  rewrite Forall_forall in Hd. auto.
Qed.

Lemma dict_get_or_Forall {V} (P : V -> Prop) (d : Dict.t V) (k : string) (default : V) :
  Forall (fun kv => P (snd kv)) d -> P default -> P (Dict.get_or d k default).
Proof.
  intros Hd Hdef. unfold Dict.get_or.
  destruct (Dict.get d k) as [v |] eqn:E; trivial.
  apply dict_get_Some_In in E. rewrite Forall_forall in Hd. apply (Hd _ E).
Qed.

Lemma remove_first_In (x y : string) (l : list string) :
  In y (remove_first x l) -> In y l.
Proof.
  induction l as [| z r IH]; simpl; [trivial |].
  destruct (String.eqb x z); simpl; intuition.
Qed.

Lemma existsb_eqb_In (x : string) (l : list string) :
  existsb (String.eqb x) l = true <-> In x l.
Proof.
  rewrite existsb_exists. split.
  - intros (y & Hin & E). apply String.eqb_eq in E. now subst.
  - intros Hin. exists x. split; trivial. apply String.eqb_refl.
Qed.

(** ** The error monad *)

Lemma bind_Ok {A B} (r : result A) (f : A -> result B) (b : B) :
  bind r f = Ok b -> exists a, r = Ok a /\ f a = Ok b.
Proof. destruct r; simpl; [eauto | discriminate]. Qed.

Lemma fold_left_Raise {A B} (f : result A -> B -> result A) (l : list B) (e : exn) :
  (forall b, f (Raise e) b = Raise e) -> fold_left f l (Raise e) = Raise e.
Proof.
  intros Hf. induction l as [| b l IH]; simpl; [reflexivity |]. now rewrite Hf.
Qed.

(** ** Valuation *)

Lemma value_of_sum (cash0 : Q) (pos : Dict.t Z) (row : Dict.t Q) :
  value_of cash0 pos row == cash0 + holdings_value pos row.
Proof.
  unfold value_of. revert cash0.
  induction pos as [| p r IH]; intros cash0; simpl.
  - ring.
  - rewrite IH. unfold value_step, priced.
    destruct (Dict.get row (fst p)); ring.
Qed.

Lemma holdings_value_nonneg (pos : Dict.t Z) (row : Dict.t Q) :
  Forall (fun kv => (0 <= snd kv)%Z) pos ->
  Forall (fun kv => 0 <= snd kv) row ->
  0 <= holdings_value pos row.
Proof.
  intros Hpos Hrow. induction Hpos as [| p r Hp _ IH]; simpl; [lra |].
  assert (0 <= priced row p).
  { unfold priced. destruct (Dict.get row (fst p)) as [px |] eqn:E; [| lra].
    apply dict_get_Some_In in E. rewrite Forall_forall in Hrow.
    specialize (Hrow _ E). simpl in Hrow.
    apply Qmult_le_0_compat; trivial.
    change 0 with (inject_Z 0). now rewrite <- Zle_Qle. }
  lra.
Qed.

(** ** History backfill *)

Lemma same_book_refl (a : PaperAccount) : same_book a a.
Proof. unfold same_book. auto. Qed.

Lemma backfill_step_Raise (prices : PriceTable) (existing : list date) (e : exn) (d : date) :
  backfill_step prices existing (Raise e) d = Raise e.
Proof. reflexivity. Qed.

Lemma backfill_fold (prices : PriceTable) (existing dates : list date) :
  forall acc a',
    fold_left (backfill_step prices existing) dates acc = Ok a' ->
    exists a0, acc = Ok a0 /\ equity_peak a0 <= equity_peak a' /\ same_book a0 a'.
Proof.
  induction dates as [| d ds IH]; intros acc a' H; simpl in H.
  - exists a'. split; trivial. split; [apply Qle_refl | apply same_book_refl].
  - destruct (IH _ _ H) as (a1 & Hstep & Hpk & Hbook).
    destruct acc as [a0 | e]; [| discriminate].
    exists a0. split; trivial.
    unfold backfill_step in Hstep. simpl in Hstep.
    destruct (existsb (Z.eqb d) existing).
    + inversion Hstep; subst. auto.
    + apply bind_Ok in Hstep. destruct Hstep as (row & _ & Hrec).
      inversion Hrec; subst a1. clear Hrec. split.
      * eapply Qle_trans; [| exact Hpk]. simpl. apply pymax_ge_l.
      * unfold same_book in *. simpl in Hbook. exact Hbook.
Qed.

Lemma backfill_keeps (prices : PriceTable) (a a' : PaperAccount) (signal_dt : date) :
  backfill prices a signal_dt = Ok a' ->
  equity_peak a <= equity_peak a' /\ same_book a a'.
Proof.
  unfold backfill. destruct (as_of a) as [last |].
  - intros H. apply backfill_fold in H. destruct H as (a0 & E & Hpk & Hbook).
    inversion E; subst. auto.
  - intros H. inversion H; subst. split; [apply Qle_refl | apply same_book_refl].
Qed.

(** ** The plan of a run *)

Section PlanProperties.

Variable symbol_score : PriceTable -> Z -> Z -> Q -> string -> score.
Variable sort_values : Dict.t score -> Dict.t score.


Lemma paper_plan_inv (cfg : PaperConfig) (prices : PriceTable)
    (store : option PaperAccount) (plan : Plan) :
  paper_plan symbol_score sort_values cfg prices store = Ok plan ->
  let account0 := load_or_new cfg store in
  rebalance_dates_of prices <> [] /\
  (exists rest,
      candidates account0 (rebalance_dates_of prices) = p_trade_dt plan :: rest) /\
  p_pre_positions plan = positions account0 /\
  p_pre_cash plan = cash account0 /\
  positions (p_account plan) = positions account0 /\
  equity_peak account0 <= equity_peak (p_account plan) /\
  loc prices (p_trade_dt plan) = Ok (p_px_trade plan) /\
  p_pre_value plan
  = value_of (p_pre_cash plan) (p_pre_positions plan) (p_px_trade plan) /\
  current_weights (fromkeys (equity_etfs cfg ++ [defensive_etf cfg]))
                  (p_pre_positions plan) (p_px_trade plan) (p_pre_value plan)
  = Ok (p_current_weights plan) /\
  (exists winner,
      p_tw plan
      = apply_band (no_trade_band cfg) (p_current_weights plan)
          (target_weights (state (p_gate plan)) winner (defensive_etf cfg)
             (normal_equity_weight cfg) (derisk_equity_weight cfg))) /\
  target_shares_of (p_tw plan) (p_pre_positions plan) (p_px_trade plan)
                   (p_pre_value plan)
  = Ok (p_target_shares plan).
Proof.
  unfold paper_plan. intros H. cbv zeta.
set (account0 := load_or_new cfg store) in *.
  destruct (rebalance_dates_of prices) as [| r0 rs] eqn:Hreb; [discriminate |].
  fold account0 in H.
  destruct (candidates account0 (r0 :: rs)) as [| trade_dt rest] eqn:Hcand;
    [discriminate |].
  apply bind_Ok in H. destruct H as (i & Hloc & H).
  apply bind_Ok in H. destruct H as (signal_dt & Hsig & H).
  apply bind_Ok in H. destruct H as (account1 & Hfill & H).
  apply bind_Ok in H. destruct H as (row_signal & Hrow & H).
  apply bind_Ok in H. destruct H as (fallback & Hfb & H).
  apply bind_Ok in H. destruct H as (px_trade & Hpx & H).
  apply bind_Ok in H. destruct H as (cw & Hcw & H).
  apply bind_Ok in H. destruct H as (ts & Hts & H).
  inversion H; subst plan; clear H. simpl.
  apply backfill_keeps in Hfill. destruct Hfill as (Hpk & Hbook).
  destruct Hbook as (_ & _ & Hpos & _).
  repeat split; trivial.
  - discriminate.
  - eauto.
  - eapply Qle_trans; [exact Hpk | apply pymax_ge_l].
  - eauto.
Qed.

Lemma paper_plan_peak (cfg : PaperConfig) (prices : PriceTable)
    (store : option PaperAccount) (plan : Plan) :
  paper_plan symbol_score sort_values cfg prices store = Ok plan ->
  exists backfilled row,
    backfill prices (load_or_new cfg store) (p_signal_dt plan) = Ok backfilled /\
    loc prices (p_signal_dt plan) = Ok row /\
    equity_peak (p_account plan)
    = pymax (equity_peak backfilled) (_account_value backfilled row).
Proof.
  unfold paper_plan. intros H.
  destruct (rebalance_dates_of prices) as [| r0 rs] eqn:Hreb; [discriminate |].
  destruct (candidates (load_or_new cfg store) (r0 :: rs)) as [| trade_dt rest] eqn:Hcand;
    [discriminate |].
  apply bind_Ok in H. destruct H as (i & Hloc & H).
  apply bind_Ok in H. destruct H as (signal_dt & Hsig & H).
  apply bind_Ok in H. destruct H as (account1 & Hfill & H).
  apply bind_Ok in H. destruct H as (row_signal & Hrow & H).
  apply bind_Ok in H. destruct H as (fallback & Hfb & H).
  apply bind_Ok in H. destruct H as (px_trade & Hpx & H).
  apply bind_Ok in H. destruct H as (cw & Hcw & H).
  apply bind_Ok in H. destruct H as (ts & Hts & H).
  inversion H; subst plan; clear H. simpl. eauto.
Qed.

Lemma paper_plan_dates (cfg : PaperConfig) (prices : PriceTable)
    (store : option PaperAccount) (plan : Plan) :
  paper_plan symbol_score sort_values cfg prices store = Ok plan ->
  In (p_trade_dt plan) (rebalance_dates_of prices) /\
  exists i, get_loc (index prices) (p_trade_dt plan) = Ok i /\
            py_getitem (index prices) (i - 1)%Z = Ok (p_signal_dt plan).
Proof.
  unfold paper_plan. intros H.
  destruct (rebalance_dates_of prices) as [| r0 rs] eqn:Hreb; [discriminate |].
  destruct (candidates (load_or_new cfg store) (r0 :: rs)) as [| trade_dt rest] eqn:Hcand;
    [discriminate |].
  apply bind_Ok in H. destruct H as (i & Hloc & H).
  apply bind_Ok in H. destruct H as (signal_dt & Hsig & H).
  apply bind_Ok in H. destruct H as (account1 & Hfill & H).
  apply bind_Ok in H. destruct H as (row_signal & Hrow & H).
  apply bind_Ok in H. destruct H as (fallback & Hfb & H).
  apply bind_Ok in H. destruct H as (px_trade & Hpx & H).
  apply bind_Ok in H. destruct H as (cw & Hcw & H).
  apply bind_Ok in H. destruct H as (ts & Hts & H).
  inversion H; subst plan; clear H. simpl. split; [| eauto].
  assert (Hin : In trade_dt (candidates (load_or_new cfg store) (r0 :: rs)))
    by (rewrite Hcand; simpl; auto).
  unfold candidates in Hin.
  destruct (as_of (load_or_new cfg store)); trivial.
  apply filter_In in Hin. tauto.
Qed.

End PlanProperties.

(** ** The signal date *)

Lemma flagged_date_lookup (idx : list date) (d : date) :
  StronglySorted Z.lt idx ->
  In d (mask idx (first_day_after_week_end idx)) ->
  exists i signal,
    get_loc idx d = Ok i /\ (1 <= i)%Z /\
    py_getitem idx (i - 1)%Z = Ok signal /\
    nth_error idx (Z.to_nat (i - 1)) = Some signal /\
    (signal < d)%Z.
Proof.
  intros Hs Hin.
  destruct (mask_In _ _ _ Hin) as (i & Hd & Hflag).
  pose proof (flagged_position idx i Hflag) as Hpos.
  destruct (nth_error idx (i - 1)) as [signal |] eqn:E.
  2:{ apply nth_error_None in E. lia. }
  exists (Z.of_nat i), signal.
  assert (Hi : (Z.of_nat i - 1)%Z = Z.of_nat (i - 1)) by lia.
  rewrite Hi, Nat2Z.id. repeat split.
  - apply get_loc_nth; trivial. now apply sorted_NoDup.
  - lia.
  - now apply py_getitem_nth.
  - exact E.
  - apply (sorted_nth_lt idx (i - 1) i); trivial. lia.
Qed.

Lemma get_loc_position (idx : list date) (d : date) (i : Z) :
  get_loc idx d = Ok i ->
  (0 <= i)%Z /\ nth_error idx (Z.to_nat i) = Some d.
Proof.
  revert i. induction idx as [| d' r IH]; intros i H; simpl in H; [discriminate |].
  destruct (d =? d')%Z eqn:E.
  - apply Z.eqb_eq in E. inversion H; subst. simpl. auto with zarith.
  - apply bind_Ok in H. destruct H as (j & Hj & H). inversion H; subst i.
    destruct (IH _ Hj) as (H0 & Hn). split; [lia |].
    replace (Z.to_nat (j + 1)) with (S (Z.to_nat j)) by lia. exact Hn.
Qed.

Lemma py_getitem_position {A} (l : list A) (i : Z) (a : A) :
  (0 <= i)%Z -> py_getitem l i = Ok a -> nth_error l (Z.to_nat i) = Some a.
Proof.
  intros Hi. unfold py_getitem.
  assert (E : (i <? 0)%Z = false) by (apply Z.ltb_ge; lia).
  rewrite E, E. destruct (nth_error l (Z.to_nat i)); congruence.
Qed.


(** C10.  On a non-empty index the flag of the first date is False.  So a
    flagged position [i] is at least 1 and [i - 1] is a position of the
    index, and, the dates of the index increasing, a flagged rebalance date
    [d] is found by [get_loc] at a position [i >= 1] and [idx[i - 1]] is the
    trading day before it, strictly earlier than [d].  Both look-ups of the
    code stay inside the series: the signal date the backtest trigger
    returns and the signal date of a plan of the paper driver are strictly
    earlier than their trade date. *)
Theorem rebalance_flag_guards_signal_lookup (idx : list date) :
  idx <> [] ->
  nth_error (first_day_after_week_end idx) 0 = Some false /\
  (forall i, nth_error (first_day_after_week_end idx) i = Some true ->
     (1 <= i < List.length idx)%nat /\
     exists signal, nth_error idx (i - 1) = Some signal) /\
  (StronglySorted Z.lt idx ->
   forall d, In d (mask idx (first_day_after_week_end idx)) ->
     exists i signal,
       get_loc idx d = Ok i /\ (1 <= i)%Z /\
       py_getitem idx (i - 1)%Z = Ok signal /\
       nth_error idx (Z.to_nat (i - 1)) = Some signal /\
       (signal < d)%Z) /\
  (StronglySorted Z.lt idx ->
   forall now signal_date,
     RunWeeklyAfterFriday idx now = Ok (Some signal_date) ->
     exists i, get_loc idx now = Ok i /\ (1 <= i)%Z /\
               nth_error idx (Z.to_nat (i - 1)) = Some signal_date /\
               (signal_date < now)%Z) /\
  (forall symbol_score sort_values cfg prices store plan,
     index prices = idx ->
     StronglySorted Z.lt idx ->
     paper_plan symbol_score sort_values cfg prices store = Ok plan ->
     exists i, get_loc idx (p_trade_dt plan) = Ok i /\ (1 <= i)%Z /\
               nth_error idx (Z.to_nat (i - 1)) = Some (p_signal_dt plan) /\
               (p_signal_dt plan < p_trade_dt plan)%Z).
Proof.
  intros Hne. split; [| split; [| split; [| split]]].
  - destruct idx as [| d rest]; [congruence |]. now rewrite first_day_flags.
  - intros i Hi. pose proof (flagged_position idx i Hi) as Hpos. split; trivial.
    destruct (nth_error idx (i - 1)) as [signal |] eqn:E; [eauto |].
    apply nth_error_None in E. lia.
  - intros Hs d Hin. now apply flagged_date_lookup.
  - intros Hs now signal_date H. unfold RunWeeklyAfterFriday in H.
    apply bind_Ok in H. destruct H as (i & Hloc & H).
    destruct (i <=? 0)%Z eqn:Ei; [discriminate |]. apply Z.leb_gt in Ei.
    apply bind_Ok in H. destruct H as (flagged & Hflag & H).
    destruct flagged; simpl in H; [| discriminate].
    apply bind_Ok in H. destruct H as (signal & Hsig & H). inversion H; subst signal.
    exists i. split; trivial. split; [lia |].
    apply py_getitem_position in Hsig; [| lia]. split; trivial.
    apply get_loc_position in Hloc. destruct Hloc as (_ & Hnow).
    apply (sorted_nth_lt idx (Z.to_nat (i - 1)) (Z.to_nat i)); trivial. lia.
  - intros symbol_score sort_values cfg prices store plan Hidx Hs Hplan.
    apply paper_plan_dates in Hplan. destruct Hplan as (Hin & i & Hloc & Hsig).
    unfold rebalance_dates_of in Hin. rewrite Hidx in *.
    destruct (flagged_date_lookup idx _ Hs Hin) as (j & signal & Hj & Hj1 & Hget & Hnth & Hlt).
    assert (i = j) by congruence. subst j.
    assert (signal = p_signal_dt plan) by congruence. subst signal.
    exists i. auto.
Qed.

Lemma rebalance_flag_guards_signal_lookup_witness :
  nth_error (first_day_after_week_end two_weeks) 0 = Some false /\
  exists i signal,
    get_loc two_weeks 4%Z = Ok i /\ (1 <= i)%Z /\
    py_getitem two_weeks (i - 1)%Z = Ok signal /\
    nth_error two_weeks (Z.to_nat (i - 1)) = Some signal /\
    (signal < 4)%Z.
Proof.
  assert (Hne : two_weeks <> []) by discriminate.
  assert (Hsorted : StronglySorted Z.lt two_weeks).
  { repeat constructor. }
  assert (Hin : In 4%Z (mask two_weeks (first_day_after_week_end two_weeks))).
  { vm_compute. auto. }
  destruct (rebalance_flag_guards_signal_lookup two_weeks Hne) as (H0 & _ & Hloc & _).
  split; [exact H0 |]. exact (Hloc Hsorted 4%Z Hin).
Defined.

(** ** The buy loop *)

Lemma affordable_iff (cm : CostModel) (s : string) (px cash0 : Q) (buy : Z) :
  affordable cm s px cash0 buy = true <-> need_for cm s px buy - cash_tolerance <= cash0.
Proof. unfold affordable, need_for. apply Qle_bool_iff. Qed.

Lemma buy_loop_succ (cm : CostModel) (s : string) (px cash0 : Q) (n : nat) :
  buy_loop cm s px cash0 (S n)
  = if affordable cm s px cash0 (Z.of_nat (S n)) then Some (Z.of_nat (S n))
    else buy_loop cm s px cash0 n.
Proof. reflexivity. Qed.

Lemma buy_loop_Some (cm : CostModel) (s : string) (px cash0 : Q) (n : nat) (b : Z) :
  buy_loop cm s px cash0 n = Some b ->
  (1 <= b <= Z.of_nat n)%Z /\
  affordable cm s px cash0 b = true /\
  (forall b', (b < b' <= Z.of_nat n)%Z -> affordable cm s px cash0 b' = false).
Proof.
  induction n as [| n IH]; [discriminate |].
  rewrite buy_loop_succ.
  destruct (affordable cm s px cash0 (Z.of_nat (S n))) eqn:E.
  - intros H. inversion H; subst b. repeat split; trivial; lia.
  - intros H. destruct (IH H) as (Hb & Ha & Hlarger). repeat split; trivial; try lia.
    intros b' Hb'. destruct (Z.eq_dec b' (Z.of_nat (S n))) as [-> | Hne]; trivial.
    apply Hlarger. lia.
Qed.

Lemma buy_loop_None (cm : CostModel) (s : string) (px cash0 : Q) (n : nat) :
  buy_loop cm s px cash0 n = None ->
  forall b', (1 <= b' <= Z.of_nat n)%Z -> affordable cm s px cash0 b' = false.
Proof.
  induction n as [| n IH]; [intros _ b' Hb'; lia |].
  rewrite buy_loop_succ.
  destruct (affordable cm s px cash0 (Z.of_nat (S n))) eqn:E; [discriminate |].
  intros H b' Hb'. destruct (Z.eq_dec b' (Z.of_nat (S n))) as [-> | Hne]; trivial.
  apply IH; trivial. lia.
Qed.

(** One buy: nothing happens without a positive delta and a positive
    price; otherwise the largest affordable count from the delta downwards
    is bought, or no count is affordable and a HOLD row is written. *)
Lemma buy_one_cases (cm : CostModel) (px_trade : Dict.t Q) (pre_positions : Dict.t Z)
    (st : ExecState) (s : string) (tgt : Z) :
  let cur := Dict.get_or (ex_positions st) s (Dict.get_or pre_positions s 0%Z) in
  let delta := (tgt - cur)%Z in
  let st' := buy_one cm px_trade pre_positions st s tgt in
  ((delta <= 0)%Z -> st' = st) /\
  (Dict.get px_trade s = None -> st' = st) /\
  (forall px, Dict.get px_trade s = Some px -> px <= 0 -> st' = st) /\
  (forall px, Dict.get px_trade s = Some px -> 0 < px -> (0 < delta)%Z ->
     (exists buy,
         (1 <= buy <= delta)%Z /\
         affordable cm s px (ex_cash st) buy = true /\
         (forall b, (buy < b <= delta)%Z -> affordable cm s px (ex_cash st) b = false) /\
         st' = {| ex_cash := ex_cash st - need_for cm s px buy;
                  ex_positions := Dict.set (ex_positions st) s (cur + buy)%Z;
                  ex_trades := ex_trades st
                               ++ [mkTradeRow s BUY cur tgt buy px
                                     (est_cost_for cm s (inject_Z buy * px) 0)] |})
     \/
     ((forall b, (1 <= b <= delta)%Z -> affordable cm s px (ex_cash st) b = false) /\
      st' = {| ex_cash := ex_cash st;
               ex_positions := ex_positions st;
               ex_trades := ex_trades st
                            ++ [mkTradeRow s HOLD cur
                                  (Dict.get_or (ex_positions st) s cur) 0 px 0] |})).
Proof.
  cbv zeta. unfold buy_one.
  set (cur := Dict.get_or (ex_positions st) s (Dict.get_or pre_positions s 0%Z)).
  repeat split.
  - intros Hd. apply Z.leb_le in Hd. now rewrite Hd.
  - intros Hnone. rewrite Hnone. now destruct (tgt - cur <=? 0)%Z.
  - intros px Hpx Hle. rewrite Hpx. apply Qle_bool_iff in Hle. rewrite Hle.
    now destruct (tgt - cur <=? 0)%Z.
  - intros px Hpx Hpos Hdelta. rewrite Hpx.
    assert (E1 : (tgt - cur <=? 0)%Z = false) by (apply Z.leb_gt; lia).
    assert (E2 : Qle_bool px 0 = false) by (now apply Qle_bool_false).
    rewrite E1, E2.
    destruct (buy_loop cm s px (ex_cash st) (Z.to_nat (tgt - cur))) as [buy |] eqn:E.
    + left. exists buy. apply buy_loop_Some in E. rewrite Z2Nat.id in E by lia.
      destruct E as (Hb & Ha & Hl). repeat split; trivial; lia.
    + right. split; trivial. intros b Hb.
      eapply buy_loop_None; eauto. rewrite Z2Nat.id; lia.
Qed.

Lemma buy_one_action (cm : CostModel) (px_trade : Dict.t Q) (pre_positions : Dict.t Z)
    (st : ExecState) (s : string) (tgt : Z) :
  exists rows, ex_trades (buy_one cm px_trade pre_positions st s tgt) = ex_trades st ++ rows
               /\ Forall is_buy_or_hold rows.
Proof.
  unfold buy_one.
  destruct (_ <=? 0)%Z; [exists []; rewrite app_nil_r; auto |].
  destruct (Dict.get px_trade s) as [px |]; [| exists []; rewrite app_nil_r; auto].
  destruct (Qle_bool px 0); [exists []; rewrite app_nil_r; auto |].
  destruct (buy_loop _ _ _ _ _); simpl; eexists; split; try reflexivity;
    apply Forall_cons; try apply Forall_nil; unfold is_buy_or_hold; simpl; auto.
Qed.

Lemma buy_one_cash (cm : CostModel) (px_trade : Dict.t Q) (pre_positions : Dict.t Z)
    (st : ExecState) (s : string) (tgt : Z) (floor : Q) :
  floor <= - cash_tolerance -> floor <= ex_cash st ->
  floor <= ex_cash (buy_one cm px_trade pre_positions st s tgt).
Proof.
  intros Htol Hst. unfold buy_one.
  destruct (_ <=? 0)%Z; trivial.
  destruct (Dict.get px_trade s) as [px |]; trivial.
  destruct (Qle_bool px 0); trivial.
  destruct (buy_loop _ _ _ _ _) as [buy |] eqn:E; simpl; trivial.
  apply buy_loop_Some in E. destruct E as (_ & Ha & _).
  apply affordable_iff in Ha. unfold need_for in Ha. lra.
Qed.

Lemma buy_one_shares (cm : CostModel) (px_trade : Dict.t Q) (pre_positions : Dict.t Z)
    (st : ExecState) (s : string) (tgt : Z) :
  nonneg_shares pre_positions -> nonneg_shares (ex_positions st) ->
  nonneg_shares (ex_positions (buy_one cm px_trade pre_positions st s tgt)).
Proof.
  intros Hpre Hst. unfold buy_one.
  destruct (_ <=? 0)%Z; trivial.
  destruct (Dict.get px_trade s) as [px |]; trivial.
  destruct (Qle_bool px 0); trivial.
  destruct (buy_loop _ _ _ _ _) as [buy |] eqn:E; simpl; trivial.
  apply buy_loop_Some in E. destruct E as (Hb & _ & _).
  apply dict_set_Forall; trivial. simpl.
  assert (0 <= Dict.get_or (ex_positions st) s (Dict.get_or pre_positions s 0))%Z.
  { apply (dict_get_or_Forall (fun n => (0 <= n)%Z)); trivial.
    apply (dict_get_or_Forall (fun n => (0 <= n)%Z)); trivial. lia. }
  lia.
Qed.

Lemma fold_left_invariant {A B} (P : A -> Prop) (f : A -> B -> A) (l : list B) (a : A) :
  P a -> (forall a b, In b l -> P a -> P (f a b)) -> P (fold_left f l a).
Proof.
  revert a. induction l as [| b l IH]; intros a Ha Hf; simpl; trivial.
  apply IH.
  - apply Hf; simpl; auto.
  - intros a' b' Hin. apply Hf. simpl. auto.
Qed.

Lemma buy_syms_listed (defensive : string) (target_shares : Dict.t Z) (s : string) :
  In s (buy_syms defensive target_shares) -> In s (Dict.keys target_shares).
Proof.
  unfold buy_syms.
  destruct (existsb (String.eqb defensive) (Dict.keys target_shares)) eqn:E; trivial.
  apply existsb_eqb_In in E. rewrite in_app_iff. intros [H | [<- | []]]; trivial.
  eapply remove_first_In; eauto.
Qed.

(** The buy loop never raises: every symbol it visits is a key of the
    targets. *)
Lemma buy_fold_total (cm : CostModel) (px_trade : Dict.t Q) (pre_positions : Dict.t Z)
    (target_shares : Dict.t Z) (syms : list string) :
  (forall s, In s syms -> In s (Dict.keys target_shares)) ->
  forall st,
    fold_left (buy_step cm px_trade pre_positions target_shares) syms (Ok st)
    = Ok (fold_left (buy_listed cm px_trade pre_positions target_shares) syms st).
Proof.
  induction syms as [| s syms IH]; intros Hin st; simpl; [reflexivity |].
  destruct (dict_get_In target_shares s) as (tgt & Hget); [apply Hin; simpl; auto |].
  unfold buy_listed at 2. unfold Dict.get_or. rewrite Hget.
  apply IH. intros s' Hs'. apply Hin. simpl. auto.
Qed.

Lemma buy_phase_total (cm : CostModel) (defensive : string) (px_trade : Dict.t Q)
    (pre_positions target_shares : Dict.t Z) (st : ExecState) :
  buy_phase cm defensive px_trade pre_positions target_shares st
  = Ok (fold_left (buy_listed cm px_trade pre_positions target_shares)
                  (buy_syms defensive target_shares) st).
Proof.
  unfold buy_phase. apply buy_fold_total. apply buy_syms_listed.
Qed.

(** ** The sell loop *)

(** One step of the sell loop: cash and positions are left as they are,
    or the position is above its target at a positive price and is written
    down to the target, the proceeds less the cost going to the cash. *)
Lemma sell_step_cases (cm : CostModel) (px_trade : Dict.t Q) (pre_positions : Dict.t Z)
    (st : ExecState) (item : string * Z) :
  let s := fst item in
  let tgt := snd item in
  let cur := Dict.get_or (ex_positions st) s (Dict.get_or pre_positions s 0%Z) in
  let st' := sell_step cm px_trade pre_positions st item in
  (ex_cash st' = ex_cash st /\ ex_positions st' = ex_positions st) \/
  (exists px,
      Dict.get px_trade s = Some px /\ 0 < px /\ (tgt < cur)%Z /\
      ex_cash st'
      = ex_cash st + (inject_Z (- (tgt - cur)) * px
                      - est_cost_for cm s (inject_Z (- (tgt - cur)) * px)
                                     (inject_Z (- (tgt - cur)) * px)) /\
      ex_positions st' = Dict.set (ex_positions st) s tgt).
Proof.
  cbv zeta. unfold sell_step.
  set (cur := Dict.get_or (ex_positions st) (fst item)
                          (Dict.get_or pre_positions (fst item) 0%Z)).
  destruct (0 <=? snd item - cur)%Z eqn:Ed; [now left |].
  destruct (Dict.get px_trade (fst item)) as [px |]; [| now left].
  destruct (Qle_bool px 0) eqn:Epx; [now left |].
  right. exists px. apply Z.leb_gt in Ed. apply Qle_bool_false in Epx.
  cbn [ex_cash ex_positions]. repeat split; trivial; try lia.
  f_equal. lia.
Qed.

Lemma sell_step_action (cm : CostModel) (px_trade : Dict.t Q) (pre_positions : Dict.t Z)
    (st : ExecState) (item : string * Z) :
  exists rows, ex_trades (sell_step cm px_trade pre_positions st item) = ex_trades st ++ rows
               /\ Forall is_sell rows.
Proof.
  unfold sell_step.
  destruct (0 <=? _)%Z; [exists []; rewrite app_nil_r; auto |].
  destruct (Dict.get px_trade (fst item)) as [px |]; [| exists []; rewrite app_nil_r; auto].
  destruct (Qle_bool px 0); [exists []; rewrite app_nil_r; auto |].
  simpl. eexists. split; [reflexivity |].
  apply Forall_cons; [reflexivity | apply Forall_nil].
Qed.

Lemma sell_step_shares (cm : CostModel) (px_trade : Dict.t Q) (pre_positions : Dict.t Z)
    (st : ExecState) (item : string * Z) :
  (0 <= snd item)%Z -> nonneg_shares (ex_positions st) ->
  nonneg_shares (ex_positions (sell_step cm px_trade pre_positions st item)).
Proof.
  intros Htgt Hst. unfold sell_step.
  destruct (0 <=? _)%Z; trivial.
  destruct (Dict.get px_trade (fst item)) as [px |]; trivial.
  destruct (Qle_bool px 0); trivial.
  simpl. apply dict_set_Forall; trivial. simpl. lia.
Qed.

Lemma sell_phase_trades (cm : CostModel) (px_trade : Dict.t Q)
    (pre_positions target_shares : Dict.t Z) (st : ExecState) :
  exists sells,
    ex_trades (sell_phase cm px_trade pre_positions target_shares st) = ex_trades st ++ sells
    /\ Forall is_sell sells.
Proof.
  unfold sell_phase.
  apply (fold_left_invariant
           (fun st' => exists sells, ex_trades st' = ex_trades st ++ sells
                                     /\ Forall is_sell sells)).
  - exists []. rewrite app_nil_r. auto.
  - intros st' item _ (sells & Htr & Hall).
    destruct (sell_step_action cm px_trade pre_positions st' item) as (rows & Hrows & Hr).
    exists (sells ++ rows). rewrite Hrows, Htr, app_assoc. split; trivial.
    apply Forall_app. auto.
Qed.

Lemma sell_phase_shares (cm : CostModel) (px_trade : Dict.t Q)
    (pre_positions target_shares : Dict.t Z) (st : ExecState) :
  nonneg_shares target_shares -> nonneg_shares (ex_positions st) ->
  nonneg_shares (ex_positions (sell_phase cm px_trade pre_positions target_shares st)).
Proof.
  intros Hts Hst. unfold sell_phase.
  apply (fold_left_invariant (fun st' => nonneg_shares (ex_positions st'))); trivial.
  intros st' item Hin Hst'. apply sell_step_shares; trivial.
  unfold nonneg_shares in Hts. rewrite Forall_forall in Hts. now apply Hts.
Qed.

(** ** The buy loop as a whole *)

Lemma buy_fold_trades (cm : CostModel) (px_trade : Dict.t Q)
    (pre_positions target_shares : Dict.t Z) (syms : list string) (st : ExecState) :
  exists buys,
    ex_trades (fold_left (buy_listed cm px_trade pre_positions target_shares) syms st)
    = ex_trades st ++ buys
    /\ Forall is_buy_or_hold buys.
Proof.
  apply (fold_left_invariant
           (fun st' => exists buys, ex_trades st' = ex_trades st ++ buys
                                    /\ Forall is_buy_or_hold buys)).
  - exists []. rewrite app_nil_r. auto.
  - intros st' s _ (buys & Htr & Hall). unfold buy_listed.
    destruct (buy_one_action cm px_trade pre_positions st' s
                (Dict.get_or target_shares s 0%Z)) as (rows & Hrows & Hr).
    exists (buys ++ rows). rewrite Hrows, Htr, app_assoc. split; trivial.
    apply Forall_app. auto.
Qed.

Lemma buy_fold_cash (cm : CostModel) (px_trade : Dict.t Q)
    (pre_positions target_shares : Dict.t Z) (syms : list string) (st : ExecState) :
  Qmin (ex_cash st) (- cash_tolerance)
  <= ex_cash (fold_left (buy_listed cm px_trade pre_positions target_shares) syms st).
Proof.
  apply (fold_left_invariant
           (fun st' => Qmin (ex_cash st) (- cash_tolerance) <= ex_cash st')).
  - apply Q.le_min_l.
  - intros st' s _ Hst'. unfold buy_listed. apply buy_one_cash; trivial.
    apply Q.le_min_r.
Qed.

Lemma buy_fold_shares (cm : CostModel) (px_trade : Dict.t Q)
    (pre_positions target_shares : Dict.t Z) (syms : list string) (st : ExecState) :
  nonneg_shares pre_positions -> nonneg_shares (ex_positions st) ->
  nonneg_shares
    (ex_positions (fold_left (buy_listed cm px_trade pre_positions target_shares) syms st)).
Proof.
  intros Hpre Hst.
  apply (fold_left_invariant (fun st' => nonneg_shares (ex_positions st'))); trivial.
  intros st' s _ Hst'. unfold buy_listed. now apply buy_one_shares.
Qed.

(** ** Weights and share targets that are not negative *)

Lemma fold_result_invariant {A B} (P : A -> Prop) (f : result A -> B -> result A)
    (l : list B) :
  (forall e b, f (Raise e) b = Raise e) ->
  (forall a b a', In b l -> f (Ok a) b = Ok a' -> P a -> P a') ->
  forall acc a', fold_left f l acc = Ok a' -> (forall a, acc = Ok a -> P a) -> P a'.
Proof.
  intros Hraise. induction l as [| b l IH]; intros Hstep acc a' H Hacc; simpl in H.
  - auto.
  - apply (IH (fun a b' a' Hin => Hstep a b' a' (or_intror Hin)) _ _ H).
    intros a Ha. destruct acc as [a0 | e].
    + eapply Hstep; simpl; eauto.
    + rewrite Hraise in Ha. discriminate.
Qed.

Lemma Qdiv_nonneg (a b : Q) : 0 <= a -> 0 < b -> 0 <= a / b.
Proof.
  intros Ha Hb. unfold Qdiv. apply Qmult_le_0_compat; trivial.
  apply Qlt_le_weak. now apply Qinv_lt_0_compat.
Qed.

Lemma shares_for_nonneg (pre_value w px : Q) :
  0 <= pre_value -> 0 <= w -> (0 <= shares_for pre_value w px)%Z.
Proof.
  intros Hv Hw. unfold shares_for. destruct (Qltb 0 px) eqn:E; [| lia].
  apply Qltb_lt in E. change 0%Z with (Qfloor 0). apply Qfloor_resp_le.
  apply Qdiv_nonneg; trivial. now apply Qmult_le_0_compat.
Qed.

Lemma init_weights_nonneg (symbols : list string) :
  nonneg_weights (fold_left (fun d s => Dict.set d s 0) symbols []).
Proof.
  apply (fold_left_invariant nonneg_weights).
  - constructor.
  - intros d s _ Hd. apply dict_set_Forall; trivial. simpl. lra.
Qed.

Lemma current_weights_nonneg (symbols : list string) (pre_positions : Dict.t Z)
    (px_trade : Dict.t Q) (pre_value : Q) (cw : Dict.t Q) :
  nonneg_prices px_trade ->
  current_weights symbols pre_positions px_trade pre_value = Ok cw ->
  nonneg_weights cw.
Proof.
  intros Hpx H. unfold current_weights in H.
  apply (fold_result_invariant nonneg_weights _ _ (fun _ _ => eq_refl)) in H; trivial.
  - intros a s a' _ Hstep Ha. unfold current_weights_step in Hstep. simpl in Hstep.
    destruct (Dict.get_or pre_positions s 0 <=? 0)%Z eqn:Esh; [now inversion Hstep; subst |].
    apply Z.leb_gt in Esh.
    destruct (Qltb 0 pre_value) eqn:Ev.
    + destruct (Dict.get px_trade s) as [px |] eqn:Eg; [| discriminate].
      inversion Hstep; subst a'. apply dict_set_Forall; trivial. simpl.
      apply Qltb_lt in Ev. apply Qdiv_nonneg; trivial.
      apply Qmult_le_0_compat.
      * change 0 with (inject_Z 0). rewrite <- Zle_Qle. lia.
      * apply dict_get_Some_In in Eg. unfold nonneg_prices in Hpx.
        rewrite Forall_forall in Hpx. apply (Hpx _ Eg).
    + inversion Hstep; subst a'. apply dict_set_Forall; trivial. simpl. lra.
  - intros a Ha. inversion Ha; subst. apply init_weights_nonneg.
Qed.

Lemma apply_band_nonneg (band : Q) (cw tw : Dict.t Q) :
  nonneg_weights cw -> nonneg_weights tw -> nonneg_weights (apply_band band cw tw).
Proof.
  intros Hcw Htw. unfold apply_band.
  apply (fold_left_invariant nonneg_weights); trivial.
  intros tw' item _ Htw'. unfold band_step.
  destruct (Qltb _ band); trivial.
  apply dict_set_Forall; trivial. simpl.
  apply (dict_get_or_Forall (fun w => 0 <= w)); trivial. lra.
Qed.

Lemma target_shares_nonneg (tw : Dict.t Q) (pre_positions : Dict.t Z)
    (px_trade : Dict.t Q) (pre_value : Q) (ts : Dict.t Z) :
  0 <= pre_value -> nonneg_weights tw ->
  target_shares_of tw pre_positions px_trade pre_value = Ok ts ->
  nonneg_shares ts.
Proof.
  intros Hv Htw H. unfold target_shares_of in H.
  apply bind_Ok in H. destruct H as (ts0 & Hfold & H). inversion H; subst ts; clear H.
  apply (fold_left_invariant nonneg_shares).
  - apply (fold_result_invariant nonneg_shares _ _ (fun _ _ => eq_refl)) in Hfold; trivial.
    + intros a item a' Hin Hstep Ha. unfold target_step in Hstep. simpl in Hstep.
      destruct (Dict.get px_trade (fst item)) as [px |]; [| discriminate].
      inversion Hstep; subst a'. apply dict_set_Forall; trivial. simpl.
      apply shares_for_nonneg; trivial.
      unfold nonneg_weights in Htw. rewrite Forall_forall in Htw. now apply Htw.
    + intros a Ha. inversion Ha; subst. constructor.
  - intros ts' s _ Hts'. unfold zero_step. destruct (Dict.mem ts' s); trivial.
    apply dict_set_Forall; trivial. simpl. lia.
Qed.

(** ** Keys of the share targets *)

Lemma dict_set_keys {V} (d : Dict.t V) (k : string) (v : V) :
  Dict.keys (Dict.set d k v)
  = if existsb (String.eqb k) (Dict.keys d) then Dict.keys d else Dict.keys d ++ [k].
Proof.
  induction d as [| [k' v'] r IH]; simpl; [reflexivity |].
  destruct (String.eqb k k') eqn:E; simpl; [reflexivity |].
  unfold Dict.keys in *. rewrite IH.
  now destruct (existsb (String.eqb k) (map fst r)).
Qed.

Lemma dict_set_NoDup {V} (d : Dict.t V) (k : string) (v : V) :
  NoDup (Dict.keys d) -> NoDup (Dict.keys (Dict.set d k v)).
Proof.
  intros Hd. rewrite dict_set_keys.
  destruct (existsb (String.eqb k) (Dict.keys d)) eqn:E; trivial.
  apply NoDup_app; trivial.
  - repeat constructor. intros [].
  - intros x Hx [<- | []].
    apply existsb_eqb_In in Hx. congruence.
Qed.

Lemma target_shares_NoDup (tw : Dict.t Q) (pre_positions : Dict.t Z)
    (px_trade : Dict.t Q) (pre_value : Q) (ts : Dict.t Z) :
  target_shares_of tw pre_positions px_trade pre_value = Ok ts ->
  NoDup (Dict.keys ts).
Proof.
  intros H. unfold target_shares_of in H.
  apply bind_Ok in H. destruct H as (ts0 & Hfold & H). inversion H; subst ts; clear H.
  apply (fold_left_invariant (fun d => NoDup (Dict.keys d))).
  - apply (fold_result_invariant (fun d => NoDup (Dict.keys d)) _ _ (fun _ _ => eq_refl))
      in Hfold; trivial.
    + intros a item a' _ Hstep Ha. unfold target_step in Hstep. simpl in Hstep.
      destruct (Dict.get px_trade (fst item)) as [px |]; [| discriminate].
      inversion Hstep; subst a'. now apply dict_set_NoDup.
    + intros a Ha. inversion Ha; subst. constructor.
  - intros ts' s _ Hts'. unfold zero_step. destruct (Dict.mem ts' s); trivial.
    now apply dict_set_NoDup.
Qed.

Lemma remove_first_NoDup (x : string) (l : list string) :
  NoDup l -> ~ In x (remove_first x l).
Proof.
  induction 1 as [| y l Hy Hl IH]; simpl; [tauto |].
  destruct (String.eqb x y) eqn:E.
  - apply String.eqb_eq in E. now subst.
  - apply String.eqb_neq in E. simpl. intros [-> | Hin]; tauto.
Qed.

Lemma drop_zero_nonzero (pos : Dict.t Z) :
  Forall (fun kv => snd kv <> 0%Z) (drop_zero pos).
Proof.
  apply Forall_forall. intros kv Hin. unfold drop_zero in Hin.
  apply filter_In in Hin. destruct Hin as (_ & Hnz).
  apply negb_true_iff in Hnz. now apply Z.eqb_neq.
Qed.

Lemma drop_zero_positive (pos : Dict.t Z) :
  nonneg_shares pos -> Forall (fun kv => (0 < snd kv)%Z) (drop_zero pos).
Proof.
  intros Hpos. apply Forall_forall. intros kv Hin. unfold drop_zero in Hin.
  apply filter_In in Hin. destruct Hin as (Hin & Hnz).
  apply negb_true_iff in Hnz. apply Z.eqb_neq in Hnz.
  unfold nonneg_shares in Hpos. rewrite Forall_forall in Hpos.
  specialize (Hpos _ Hin). simpl in Hpos. lia.
Qed.

(** ** Running the trade loops *)

Lemma execute_runs (cm : CostModel) (defensive : string) (plan : Plan) :
  let st1 := sell_phase cm (p_px_trade plan) (p_pre_positions plan) (p_target_shares plan)
               (mkExecState (p_pre_cash plan) (positions (p_account plan)) []) in
  let st2 := fold_left
               (buy_listed cm (p_px_trade plan) (p_pre_positions plan) (p_target_shares plan))
               (buy_syms defensive (p_target_shares plan)) st1 in
  exists account',
    execute cm defensive plan = Ok (account', ex_trades st2) /\
    as_of account' = Some (p_trade_dt plan) /\
    cash account' = ex_cash st2 /\
    positions account' = drop_zero (ex_positions st2) /\
    equity_peak account'
    = pymax (equity_peak (p_account plan)) (_account_value account' (p_px_trade plan)) /\
    gate_state account' = state (p_gate plan) /\
    gate_cooldown_left account' = cooldown_left (p_gate plan).
Proof.
  cbv zeta. unfold execute. rewrite buy_phase_total. simpl.
  eexists. split; [reflexivity |]. simpl. repeat split; trivial.
Qed.

Lemma filter_none {A} (f : A -> bool) (l : list A) :
  (forall x, In x l -> f x = false) -> filter f l = [].
Proof.
  induction l as [| x l IH]; intros H; simpl; [reflexivity |].
  rewrite (H x) by (simpl; auto). apply IH. intros y Hy. apply H. simpl. auto.
Qed.

(** ** The paper-trading driver *)

Section DriverProperties.

Variable symbol_score : PriceTable -> Z -> Z -> Q -> string -> score.
Variable sort_values : Dict.t score -> Dict.t score.

Lemma advance_inv (cfg : PaperConfig) (prices : PriceTable)
    (store : option PaperAccount) (account' : PaperAccount) (trades : list TradeRow) :
  paper_advance symbol_score sort_values cfg prices store = Ok (account', trades) ->
  exists plan,
    paper_plan symbol_score sort_values cfg prices store = Ok plan /\
    execute (cost_model cfg) (defensive_etf cfg) plan = Ok (account', trades).
Proof.
  unfold paper_advance. intros H. apply bind_Ok in H.
  destruct H as (plan & Hplan & Hexec). eauto.
Qed.

Lemma run_once_saved (cfg : PaperConfig) (prices : PriceTable)
    (store saved : option PaperAccount) (trades : list TradeRow) :
  run_paper_once symbol_score sort_values cfg prices store = (Ok trades, saved) ->
  exists account',
    saved = Some account' /\
    paper_advance symbol_score sort_values cfg prices store = Ok (account', trades).
Proof.
  unfold run_paper_once.
  destruct (paper_advance symbol_score sort_values cfg prices store)
    as [[account' trades'] | e]; intros H; inversion H; subst. eauto.
Qed.

Lemma advance_peak (cfg : PaperConfig) (prices : PriceTable)
    (store : option PaperAccount) (account' : PaperAccount) (trades : list TradeRow) :
  paper_advance symbol_score sort_values cfg prices store = Ok (account', trades) ->
  equity_peak (load_or_new cfg store) <= equity_peak account'.
Proof.
  intros H. apply advance_inv in H. destruct H as (plan & Hplan & Hexec).
  apply paper_plan_inv in Hplan. cbv zeta in Hplan.
  destruct Hplan as (_ & _ & _ & _ & _ & Hpk & _).
  destruct (execute_runs (cost_model cfg) (defensive_etf cfg) plan)
    as (a & Ha & _ & _ & _ & Hpk' & _).
  rewrite Ha in Hexec. inversion Hexec; subst.
  eapply Qle_trans; [exact Hpk |]. rewrite Hpk'. apply pymax_ge_l.
Qed.

Lemma run_once_peak (cfg : PaperConfig) (prices : PriceTable) (a : PaperAccount) :
  exists a', snd (run_paper_once symbol_score sort_values cfg prices (Some a)) = Some a'
             /\ equity_peak a <= equity_peak a'.
Proof.
  unfold run_paper_once.
  destruct (paper_advance symbol_score sort_values cfg prices (Some a))
    as [[account' trades] | e] eqn:E; simpl.
  - exists account'. split; trivial. apply (advance_peak _ _ _ _ _ E).
  - exists a. split; trivial. apply Qle_refl.
Qed.

(** C9.  [equity_peak] never goes down.  Each of the three updates of a
    run sets the peak to the maximum of the peak so far and a valuation: a
    backfilled day, the signal-date valuation that ends the plan, the
    post-trade valuation of the saved account.  So the peak of the account
    file after a run (whether the run saved a new account or raised and
    left the file alone) is at least the peak before it, and the same holds
    after any number of runs on the file. *)
Theorem equity_peak_never_decreases :
  (forall a d v, equity_peak (record_valuation a d v) = pymax (equity_peak a) v) /\
  (forall prices a signal_dt a',
      backfill prices a signal_dt = Ok a' -> equity_peak a <= equity_peak a') /\
  (forall cfg prices store plan,
      paper_plan symbol_score sort_values cfg prices store = Ok plan ->
      exists backfilled row,
        backfill prices (load_or_new cfg store) (p_signal_dt plan) = Ok backfilled /\
        loc prices (p_signal_dt plan) = Ok row /\
        equity_peak (p_account plan)
        = pymax (equity_peak backfilled) (_account_value backfilled row)) /\
  (forall cm defensive plan account' trades,
      execute cm defensive plan = Ok (account', trades) ->
      equity_peak account'
      = pymax (equity_peak (p_account plan)) (_account_value account' (p_px_trade plan))) /\
  (forall cfg prices a,
      exists a', snd (run_paper_once symbol_score sort_values cfg prices (Some a)) = Some a'
                 /\ equity_peak a <= equity_peak a') /\
  (forall runs a,
      exists a', run_many symbol_score sort_values runs (Some a) = Some a'
                 /\ equity_peak a <= equity_peak a').
Proof.
  split; [| split; [| split; [| split; [| split]]]].
  - reflexivity.
  - intros prices a signal_dt a' H. now apply backfill_keeps in H.
  - intros cfg prices store plan H. now apply paper_plan_peak in H.
  - intros cm defensive plan account' trades H.
    destruct (execute_runs cm defensive plan) as (a & Ha & _ & _ & _ & Hpk & _).
    rewrite Ha in H. now inversion H; subst.
  - apply run_once_peak.
  - intros runs. induction runs as [| [cfg prices] rest IH]; intros a; simpl.
    + exists a. split; trivial. apply Qle_refl.
    + destruct (run_once_peak cfg prices a) as (a1 & E1 & H1).
      rewrite E1.
      destruct (IH a1) as (a' & E' & H'). exists a'. split; trivial.
      eapply Qle_trans; eauto.
Qed.

(** C1, amended.  When the table has rebalance dates but none strictly
    after the [as_of] of the account on file, [run_paper_once] raises its
    up-to-date error before anything is written: the account file is left
    as it was.  The backend task catches that error and ends as a success
    with the message that no update was needed; the command line lets the
    error through. *)
Theorem no_pending_rebalance (cfg : PaperConfig) (prices : PriceTable)
    (a : PaperAccount) (last : date) :
  as_of a = Some last ->
  rebalance_dates_of prices <> [] ->
  (forall d, In d (rebalance_dates_of prices) -> (d <= last)%Z) ->
  run_paper_once symbol_score sort_values cfg prices (Some a)
  = (Raise AccountUpToDate, Some a) /\
  _task_run_paper symbol_score sort_values cfg prices (Some a)
  = (Ok NoUpdateNeeded, Some a) /\
  _run_task symbol_score sort_values cfg prices (Some a) = (success, Some a) /\
  cmd_run_paper symbol_score sort_values cfg prices (Some a)
  = (Raise AccountUpToDate, Some a).
Proof.
  intros Hasof Hdates Hold.
  assert (Hplan : paper_plan symbol_score sort_values cfg prices (Some a)
                  = Raise AccountUpToDate).
  { unfold paper_plan.
    destruct (rebalance_dates_of prices) as [| r0 rs] eqn:Hreb; [congruence |].
    assert (Hcand : candidates (load_or_new cfg (Some a)) (r0 :: rs) = []).
    { unfold candidates, load_or_new. rewrite Hasof.
      apply filter_none. intros d Hd.
      apply Z.ltb_ge. now apply Hold. }
    now rewrite Hcand. }
  assert (Hrun : run_paper_once symbol_score sort_values cfg prices (Some a)
                 = (Raise AccountUpToDate, Some a)).
  { unfold run_paper_once, paper_advance.
    now rewrite Hplan. }
  unfold _run_task, _task_run_paper, cmd_run_paper. rewrite Hrun. auto.
Qed.

(** C4, amended.  After a successful run the saved positions hold no
    entry of zero shares, and every share count is positive when the
    pre-trade value of the run was not negative, the share counts it
    started from were not negative, the trade-date prices are not negative
    and the configured weights are in [0,1].  The pre-trade value used to
    size the targets is the cash plus the sum, over the held positions that
    have a trade-date price, of shares times that price.  Cash is not kept
    at or above 0: a buy is accepted when it passes the test
    [cash >= value + cost - 1e-6], so that, floats taken as exact
    rationals, the saved cash is at least the smaller of the cash after the
    sell loop and [-1e-6]. *)
Theorem advance_books (cfg : PaperConfig) (prices : PriceTable)
    (store saved : option PaperAccount) (trades : list TradeRow) :
  run_paper_once symbol_score sort_values cfg prices store = (Ok trades, saved) ->
  exists account' plan,
    saved = Some account' /\
    paper_plan symbol_score sort_values cfg prices store = Ok plan /\
    let account0 := load_or_new cfg store in
    let after_sells :=
      sell_phase (cost_model cfg) (p_px_trade plan) (positions account0)
        (p_target_shares plan) (mkExecState (cash account0) (positions account0) []) in
    Forall (fun kv => snd kv <> 0%Z) (positions account') /\
    loc prices (p_trade_dt plan) = Ok (p_px_trade plan) /\
    p_pre_value plan
    == cash account0 + holdings_value (positions account0) (p_px_trade plan) /\
    target_shares_of (p_tw plan) (positions account0) (p_px_trade plan) (p_pre_value plan)
    = Ok (p_target_shares plan) /\
    Qmin (ex_cash after_sells) (- cash_tolerance) <= cash account' /\
    (0 <= p_pre_value plan ->
     nonneg_shares (positions account0) ->
     nonneg_prices (p_px_trade plan) ->
     unit_weight (normal_equity_weight cfg) ->
     unit_weight (derisk_equity_weight cfg) ->
     Forall (fun kv => (0 < snd kv)%Z) (positions account')).
Proof.
  intros H. apply run_once_saved in H. destruct H as (account' & -> & H).
  apply advance_inv in H. destruct H as (plan & Hplan & Hexec).
  exists account', plan. split; trivial. split; trivial. cbv zeta.
  apply paper_plan_inv in Hplan. cbv zeta in Hplan.
  destruct Hplan
    as (_ & _ & Hpre & Hcash & Hpos & _ & Hloc & Hval & Hcw & (winner & Htw) & Hts).
  destruct (execute_runs (cost_model cfg) (defensive_etf cfg) plan)
    as (a & Ha & _ & Hc' & Hp' & _).
  rewrite Ha in Hexec. inversion Hexec; subst a trades; clear Hexec.
  rewrite Hpre, Hcash, Hpos in *.
  rewrite Hc', Hp'.
  split; [apply drop_zero_nonzero |].
  split; [exact Hloc |].
  split; [rewrite Hval; apply value_of_sum |].
  split; [exact Hts |].
  split; [apply buy_fold_cash |].
  intros Hc0 Hp0 Hpx Hnw Hdw.
  apply drop_zero_positive. apply buy_fold_shares; trivial.
  apply sell_phase_shares; trivial.
  apply target_shares_nonneg in Hts; trivial.
  rewrite Htw. apply apply_band_nonneg.
  - eapply current_weights_nonneg; eauto.
  - apply Forall_forall. intros [s w] Hin. simpl.
    apply (target_weights_bounded _ _ _ _ _ Hnw Hdw) in Hin. apply Hin.
Qed.

(** C7, amended.  The trade loops of a run never raise: once the plan
    of a run is made, the run saves an account.  The cash and the positions
    it saves are those the buy loop ends with, and the buy loop starts
    from the cash and the positions the sell loop ends with: every sell
    comes before any buy.  A step of the sell loop leaves cash and positions
    alone or writes a position down to its target; it never buys.  A step
    of the buy loop leaves them alone or adds shares; it never sells.  The
    buy loop visits the target symbols in their order with the defensive
    symbol moved to the end.  A buy with a positive delta at a positive
    price tries the full delta first and goes down one share at a time; it
    takes the first count [b] that passes the test
    [cash >= value + cost - 1e-6] (so a shortfall of up to [1e-6] does not
    reduce the count), every larger count having failed it; when no count
    from the delta down to 1 passes, nothing is bought: cash and positions
    are left as they are. *)
Theorem sells_before_buys_never_fatal (cm : CostModel) (defensive : string) (plan : Plan) :
  let px_trade := p_px_trade plan in
  let pre := p_pre_positions plan in
  let targets := p_target_shares plan in
  let after_sells :=
    sell_phase cm px_trade pre targets
      (mkExecState (p_pre_cash plan) (positions (p_account plan)) []) in
  let after_buys :=
    fold_left (buy_listed cm px_trade pre targets) (buy_syms defensive targets) after_sells in
  (exists account' trades,
      execute cm defensive plan = Ok (account', trades) /\
      cash account' = ex_cash after_buys /\
      positions account' = drop_zero (ex_positions after_buys)) /\
  (forall cfg prices store,
      paper_plan symbol_score sort_values cfg prices store = Ok plan ->
      exists trades account',
        run_paper_once symbol_score sort_values cfg prices store = (Ok trades, Some account')) /\
  (forall st item,
      let cur := Dict.get_or (ex_positions st) (fst item) (Dict.get_or pre (fst item) 0%Z) in
      let st' := sell_step cm px_trade pre st item in
      (ex_cash st' = ex_cash st /\ ex_positions st' = ex_positions st) \/
      (exists px,
          Dict.get px_trade (fst item) = Some px /\ 0 < px /\ (snd item < cur)%Z /\
          ex_cash st'
          = ex_cash st + (inject_Z (- (snd item - cur)) * px
                          - est_cost_for cm (fst item) (inject_Z (- (snd item - cur)) * px)
                                         (inject_Z (- (snd item - cur)) * px)) /\
          ex_positions st' = Dict.set (ex_positions st) (fst item) (snd item))) /\
  ((In defensive (Dict.keys targets) ->
      buy_syms defensive targets = remove_first defensive (Dict.keys targets) ++ [defensive]
      /\ (NoDup (Dict.keys targets) ->
          ~ In defensive (remove_first defensive (Dict.keys targets)))) /\
   (~ In defensive (Dict.keys targets) -> buy_syms defensive targets = Dict.keys targets)) /\
  (forall s px cash0 b,
      affordable cm s px cash0 b = true
      <-> inject_Z b * px + est_cost_for cm s (inject_Z b * px) 0 - (1 # 1000000) <= cash0) /\
  (forall st s tgt px,
      let cur := Dict.get_or (ex_positions st) s (Dict.get_or pre s 0%Z) in
      let delta := (tgt - cur)%Z in
      let st' := buy_one cm px_trade pre st s tgt in
      Dict.get px_trade s = Some px -> 0 < px -> (0 < delta)%Z ->
      (exists buy,
          (1 <= buy <= delta)%Z /\
          affordable cm s px (ex_cash st) buy = true /\
          (forall b, (buy < b <= delta)%Z -> affordable cm s px (ex_cash st) b = false) /\
          ex_cash st' = ex_cash st - need_for cm s px buy /\
          ex_positions st' = Dict.set (ex_positions st) s (cur + buy)%Z)
      \/
      ((forall b, (1 <= b <= delta)%Z -> affordable cm s px (ex_cash st) b = false) /\
       ex_cash st' = ex_cash st /\
       ex_positions st' = ex_positions st)) /\
  (forall st s tgt,
      let cur := Dict.get_or (ex_positions st) s (Dict.get_or pre s 0%Z) in
      let st' := buy_one cm px_trade pre st s tgt in
      (ex_cash st' = ex_cash st /\ ex_positions st' = ex_positions st) \/
      (exists px buy,
          Dict.get px_trade s = Some px /\ 0 < px /\ (1 <= buy <= tgt - cur)%Z /\
          ex_cash st' = ex_cash st - need_for cm s px buy /\
          ex_positions st' = Dict.set (ex_positions st) s (cur + buy)%Z)).
Proof.
  cbv zeta.
  destruct (execute_runs cm defensive plan) as (a & Ha & _ & Hc & Hp & _).
  cbv zeta in Ha, Hc, Hp.
  split; [| split; [| split; [| split; [| split; [| split]]]]].
  - exists a. eauto.
  - intros cfg prices store Hplan.
    destruct (execute_runs (cost_model cfg) (defensive_etf cfg) plan) as (a' & Ha' & _).
    cbv zeta in Ha'.
    unfold run_paper_once, paper_advance.
    rewrite Hplan. simpl. rewrite Ha'. eauto.
  - intros st item.
    exact (sell_step_cases cm (p_px_trade plan) (p_pre_positions plan) st item).
  - split.
    + intros Hin. unfold buy_syms.
      apply existsb_eqb_In in Hin. rewrite Hin. split; trivial.
      apply remove_first_NoDup.
    + intros Hnot. unfold buy_syms.
      destruct (existsb (String.eqb defensive) (Dict.keys (p_target_shares plan))) eqn:E;
        trivial.
      apply existsb_eqb_In in E. contradiction.
  - intros s px cash0 b. apply affordable_iff.
  - intros st s tgt px Hpx Hpos Hdelta.
    destruct (buy_one_cases cm (p_px_trade plan) (p_pre_positions plan) st s tgt)
      as (_ & _ & _ & Hcases).
    destruct (Hcases px Hpx Hpos Hdelta)
      as [(buy & Hb & Ha1 & Hl & ->) | (Hnone & ->)].
    + left. exists buy. auto.
    + right. auto.
  - intros st s tgt.
    destruct (buy_one_cases cm (p_px_trade plan) (p_pre_positions plan) st s tgt)
      as (Hle & Hnone & Hneg & Hcases).
    destruct (Z_le_gt_dec
                (tgt - Dict.get_or (ex_positions st) s
                                   (Dict.get_or (p_pre_positions plan) s 0%Z)) 0)
      as [Hd | Hd]; [left; now rewrite (Hle Hd) |].
    destruct (Dict.get (p_px_trade plan) s) as [px |] eqn:Epx;
      [| left; now rewrite (Hnone eq_refl)].
    destruct (Qlt_le_dec 0 px) as [Hpx | Hpx];
      [| left; now rewrite (Hneg px eq_refl Hpx)].
    destruct (Hcases px eq_refl Hpx ltac:(lia))
      as [(buy & Hb & _ & _ & ->) | (_ & ->)].
    + right. exists px, buy. auto.
    + left. auto.
Qed.

End DriverProperties.

(** ** Worked runs *)

Lemma Some_inj {A} (a b : A) : Some a = Some b -> a = b.
Proof. congruence. Qed.

(** C1, as stated, fails: with no rebalance date after [as_of] the driver
    raises, and the command-line caller ends with that error. *)
Lemma up_to_date_is_an_error :
  candidates settled_account (rebalance_dates_of flat_prices) = [] /\
  run_example small_account_cfg flat_prices (Some settled_account)
  = (Raise AccountUpToDate, Some settled_account) /\
  ~ (exists trades,
        fst (run_example small_account_cfg flat_prices (Some settled_account)) = Ok trades) /\
  fst (cmd_run_paper short_history_score kept_order small_account_cfg flat_prices
         (Some settled_account))
  = Raise AccountUpToDate.
Proof.
  repeat split; try reflexivity.
  intros (trades & H). vm_compute in H. discriminate.
Qed.

Lemma no_pending_rebalance_witness :
  _run_task short_history_score kept_order small_account_cfg flat_prices
    (Some settled_account)
  = (success, Some settled_account).
Proof.
  assert (H1 : as_of settled_account = Some 22%Z) by reflexivity.
  assert (H2 : rebalance_dates_of flat_prices <> []) by (vm_compute; discriminate).
  assert (H3 : forall d, In d (rebalance_dates_of flat_prices) -> (d <= 22)%Z).
  { intros d Hd. vm_compute in Hd.
    destruct Hd as [<- | [<- | [<- | []]]]; vm_compute; discriminate. }
  exact (proj1 (proj2 (proj2
           (no_pending_rebalance short_history_score kept_order small_account_cfg
              flat_prices settled_account 22%Z H1 H2 H3)))).
Defined.

(** C4, as stated, fails.  A new account of 15.0019995 that holds nothing
    wants one share at 10; its value and cost come to 15.002.  The test of
    the buy loop lets a shortfall below [1e-6] through: the share is bought
    and the cash saved is -0.0000005. *)
Lemma negative_cash_saved_by_tolerance :
  0 <= initial_capital edge_cfg /\
  saved_with (run_example edge_cfg edge_prices None)
    (fun _ a => positions a = [("510300"%string, 1%Z)]
                /\ cash a == - (5 # 10000000) /\ cash a < 0).
Proof.
  vm_compute. repeat split; discriminate.
Qed.

(** What the amended C4 leaves out: a sale that costs more than it
    yields.  A new account of 10 is run three times on closes that never
    move.  The first run buys 4 shares.  The second run, in
    CIRCUIT_COOLDOWN after the cost of the first, sells them for 4 at a
    cost above 5 and saves a negative cash.  The third run sizes its target
    from the negative account value, gets -1 share of the defensive fund
    and saves a position of -1 share. *)
Remark sale_at_a_loss_goes_short :
  saved_with (run_example small_account_cfg flat_prices None)
    (fun trades a => actions trades = [("510300"%string, BUY, 4%Z)]
                     /\ positions a = [("510300"%string, 4%Z)] /\ 0 <= cash a) /\
  saved_with (run_example small_account_cfg flat_prices after_first_run)
    (fun trades a => actions trades = [("510300"%string, SELL, (-4)%Z)]
                     /\ positions a = [] /\ cash a < 0) /\
  saved_with (run_example small_account_cfg flat_prices after_second_run)
    (fun trades a => actions trades = [("511010"%string, SELL, (-1)%Z)]
                     /\ positions a = [("511010"%string, (-1)%Z)]).
Proof.
  vm_compute. repeat split; discriminate.
Qed.

Lemma advance_books_witness :
  Forall (fun kv => snd kv <> 0%Z) (positions (fst first_run_outcome)) /\
  Forall (fun kv => (0 < snd kv)%Z) (positions (fst first_run_outcome)).
Proof.
  assert (H : run_example small_account_cfg flat_prices None
              = (Ok (snd first_run_outcome), Some (fst first_run_outcome)))
    by (vm_compute; reflexivity).
  destruct (advance_books short_history_score kept_order small_account_cfg flat_prices
              None _ _ H)
    as (account' & plan & Hsaved & _ & Hnz & Hloc & Hval & _ & _ & Hpos).
  rewrite (Some_inj _ _ Hsaved). split; [exact Hnz |].
  assert (Hrow : p_px_trade plan = flat_row).
  { unfold flat_prices in Hloc. simpl in Hloc.
    repeat match type of Hloc with
           | context [if ?c then _ else _] => destruct c
           end; congruence. }
  apply Hpos.
  - rewrite Hval. unfold Qle. simpl. lia.
  - constructor.
  - rewrite Hrow. repeat constructor; unfold Qle; simpl; lia.
  - split; unfold Qle; simpl; lia.
  - split; unfold Qle; simpl; lia.
Defined.

(** C7, as stated, fails.  A new account of 15.0019995 wants one share at
    10, which with its cost of 5.002 comes to 15.002, more than the cash.
    The count is not reduced: the share is bought, the test of the loop
    allowing a shortfall below [1e-6], and the saved cash is negative. *)
Lemma buy_accepted_without_cover :
  initial_capital edge_cfg < need_for broker_rates "510300" 10 1 /\
  saved_with (run_example edge_cfg edge_prices None)
    (fun trades a => actions trades = [("510300"%string, BUY, 1%Z)]
                     /\ positions a = [("510300"%string, 1%Z)] /\ cash a < 0).
Proof.
  vm_compute. repeat split; discriminate.
Qed.

(** What the amended C7 leaves out: what is written down of a buy that
    cannot be paid for at any count.  The local list of trades, which is
    not read again, gets a HOLD row of zero shares, and the saved positions
    get nothing; the entry of the blotter for a symbol that was not held
    before is read from the share target and shows a BUY of the whole
    target. *)
Remark unfunded_buy_in_trades_and_blotter :
  saved_with (run_example tiny_account_cfg flat_prices None)
    (fun trades a => actions trades = [("510300"%string, HOLD, 0%Z)]
                     /\ positions a = [] /\ cash a == 4) /\
  blotter_entry_of_run short_history_score kept_order tiny_account_cfg flat_prices None
    "510300"
  = Ok (BUY, 3%Z, 3%Z).
Proof.
  vm_compute. repeat split; discriminate.
Qed.

(** ** The score series *)

Section ScoreOrder.

Variable symbol_score : PriceTable -> Z -> Z -> Q -> string -> score.
Variable sort_values : Dict.t score -> Dict.t score.
Hypothesis sort_values_contract : forall d, sorts_descending d (sort_values d).

(** With a sort that keeps the contract, the score series is a
    rearrangement of the scores of the candidates, descending, NaN last. *)
Lemma compute_score_descending (prices : PriceTable) (symbols : list string)
    (signal_date : date) (momentum_days vol_weeks : Z) (floor : Q) :
  exists scores,
    Dict.keys scores = fromkeys symbols /\
    sorts_descending scores
      (compute_score symbol_score sort_values prices symbols signal_date
         momentum_days vol_weeks floor).
Proof.
  unfold compute_score.
  set (px := filter (fun r => (fst r <=? signal_date)%Z) prices).
  set (f := fun (d : Dict.t score) (s : string) =>
              Dict.set d s (symbol_score px momentum_days vol_weeks floor s)).
  exists (fold_left f symbols []). split; [| apply sort_values_contract].
  unfold fromkeys.
  assert (H : forall d acc, Dict.keys d = acc ->
              Dict.keys (fold_left f symbols d)
              = fold_left (fun acc s => if existsb (String.eqb s) acc then acc else acc ++ [s])
                          symbols acc).
  { induction symbols as [| s r IH]; intros d acc Hd; simpl; trivial.
    apply IH. unfold f. rewrite dict_set_keys, Hd. reflexivity. }
  now apply H.
Qed.

End ScoreOrder.

(** The contract leaves the order of equal scores open: both orders of
    two tied candidates are descending rearrangements of their scores. *)
Remark tied_scores_either_order :
  sorts_descending tied_scores tied_scores /\
  sorts_descending tied_scores tied_scores_reversed.
Proof.
  split; split.
  - apply Permutation_refl.
  - exists tied_scores, []. repeat split; repeat constructor.
  - apply perm_swap.
  - exists tied_scores_reversed, []. repeat split; repeat constructor.
Qed.

(** * Further properties of the code *)

(** ** The risk gate over several rebalances *)

Lemma cooldown_runs_down (ds : list Q) :
  forall g,
    state g = CIRCUIT_COOLDOWN ->
    cooldown_left g = Z.of_nat (List.length ds) ->
    run_gate g ds
    = (set_gate g CIRCUIT_COOLDOWN 0, map (fun _ => (CIRCUIT_COOLDOWN, false)) ds).
Proof.
  induction ds as [| d ds IH]; intros g Hs Hc.
  - simpl in *. rewrite <- Hs, <- Hc. now rewrite set_gate_same.
  - cbn [run_gate map].
    assert (Hpos : (0 <? cooldown_left g)%Z = true).
    { apply Z.ltb_lt. rewrite Hc. simpl List.length. lia. }
    assert (Hstep : on_rebalance g d
                    = (set_gate g CIRCUIT_COOLDOWN (cooldown_left g - 1),
                       (CIRCUIT_COOLDOWN, false))).
    { unfold on_rebalance, next_state. rewrite Hs, Hpos. reflexivity. }
    rewrite Hstep.
    rewrite (IH (set_gate g CIRCUIT_COOLDOWN (cooldown_left g - 1))).
    + reflexivity.
    + reflexivity.
    + simpl. rewrite Hc. simpl List.length. lia.
Qed.

(** X1.  The cooldown lasts [cooldown_weeks] rebalances, the tripping one
    included (the comment of [on_rebalance]): when a gate outside
    CIRCUIT_COOLDOWN meets a drawdown at or above [circuit_drawdown], that
    call reports CIRCUIT_COOLDOWN as a change and the next
    [cooldown_weeks - 1] calls report CIRCUIT_COOLDOWN without a change
    whatever their drawdowns are; the counter is then 0. *)
Theorem cooldown_lasts_cooldown_weeks (g : RiskGate) (d0 : Q) (ds : list Q) :
  state g <> CIRCUIT_COOLDOWN ->
  circuit_drawdown g <= d0 ->
  List.length ds = Z.to_nat (cooldown_weeks g - 1) ->
  run_gate g (d0 :: ds)
  = (set_gate g CIRCUIT_COOLDOWN 0,
     (CIRCUIT_COOLDOWN, true) :: map (fun _ => (CIRCUIT_COOLDOWN, false)) ds).
Proof.
  intros Hs Hd Hlen. cbn [run_gate].
  assert (Hstep : on_rebalance g d0
                  = (set_gate g CIRCUIT_COOLDOWN (Z.max (cooldown_weeks g - 1) 0),
                     (CIRCUIT_COOLDOWN, true))).
  { unfold on_rebalance, next_state, threshold_regime.
    apply RiskState_eqb_neq in Hs. apply Qle_bool_iff in Hd.
    rewrite Hs, Hd. reflexivity. }
  rewrite Hstep.
  rewrite (cooldown_runs_down ds
             (set_gate g CIRCUIT_COOLDOWN (Z.max (cooldown_weeks g - 1) 0))).
  - reflexivity.
  - reflexivity.
  - simpl. rewrite Hlen. lia.
Qed.

Lemma cooldown_lasts_cooldown_weeks_witness :
  run_gate (new_gate (1 # 10) (1 # 5) 4) [22 # 100; 0; 3 # 100; 1 # 2]
  = (mkRiskGate (1 # 10) (1 # 5) 4 CIRCUIT_COOLDOWN 0,
     [(CIRCUIT_COOLDOWN, true); (CIRCUIT_COOLDOWN, false);
      (CIRCUIT_COOLDOWN, false); (CIRCUIT_COOLDOWN, false)]).
Proof.
  apply (cooldown_lasts_cooldown_weeks (new_gate (1 # 10) (1 # 5) 4)
           (22 # 100) [0; 3 # 100; 1 # 2]).
  - discriminate.
  - discriminate.
  - reflexivity.
Defined.

Lemma on_rebalance_gate_ok (g : RiskGate) (d : Q) :
  gate_ok g -> gate_ok (fst (on_rebalance g d)).
Proof.
  intros (H0 & Hcc & Hmax). unfold on_rebalance.
  destruct (RiskState_eqb (next_state g d) CIRCUIT_COOLDOWN
            && negb (RiskState_eqb (state g) CIRCUIT_COOLDOWN)) eqn:E1.
  - unfold gate_ok. simpl. repeat split; lia.
  - destruct (RiskState_eqb (state g) CIRCUIT_COOLDOWN && (0 <? cooldown_left g)%Z) eqn:E2.
    + apply andb_true_iff in E2. destruct E2 as (_ & Hpos). apply Z.ltb_lt in Hpos.
      unfold gate_ok. simpl. repeat split; lia.
    + assert (Hzero : cooldown_left g = 0%Z).
      { destruct (Z.eq_dec (cooldown_left g) 0) as [| Hne]; trivial.
        assert (Hpos : (0 < cooldown_left g)%Z) by lia.
        specialize (Hcc Hpos). apply RiskState_eqb_eq in Hcc.
        apply Z.ltb_lt in Hpos. rewrite Hcc, Hpos in E2. discriminate. }
      unfold gate_ok. simpl. rewrite Hzero. repeat split; lia.
Qed.

(** X2.  The counter of a gate is kept in range: starting from a gate
    whose counter is not negative, is positive in CIRCUIT_COOLDOWN only and
    is at most [cooldown_weeks - 1] (a new gate is one), every gate reached
    by any sequence of rebalances is again such a gate. *)
Theorem gate_counter_in_range (g : RiskGate) (ds : list Q) :
  gate_ok g -> gate_ok (fst (run_gate g ds)).
Proof.
  revert g. induction ds as [| d ds IH]; intros g Hg; simpl; trivial.
  pose proof (on_rebalance_gate_ok g d Hg) as Hstep.
  destruct (on_rebalance g d) as [g1 r]. simpl in Hstep.
  specialize (IH g1 Hstep). destruct (run_gate g1 ds) as [g2 rs]. exact IH.
Qed.

Lemma gate_counter_in_range_witness :
  gate_ok (fst (run_gate (new_gate (1 # 10) (1 # 5) 4) [22 # 100; 0; 3 # 10])).
Proof.
  apply gate_counter_in_range. unfold gate_ok, new_gate. simpl.
  repeat split; discriminate.
Defined.

(** X3.  The flag [on_rebalance] returns says exactly whether the state
    of the gate after the call differs from the state before it; a counter
    that moves is never reported. *)
Theorem changed_iff_state_differs (g : RiskGate) (d : Q) :
  snd (snd (on_rebalance g d)) = true <-> state (fst (on_rebalance g d)) <> state g.
Proof.
  unfold on_rebalance.
  destruct (RiskState_eqb (next_state g d) CIRCUIT_COOLDOWN
            && negb (RiskState_eqb (state g) CIRCUIT_COOLDOWN)) eqn:E1.
  - apply andb_true_iff in E1. destruct E1 as (_ & Hprev).
    apply negb_true_iff, RiskState_eqb_neq in Hprev. simpl. split; auto.
  - destruct (RiskState_eqb (state g) CIRCUIT_COOLDOWN && (0 <? cooldown_left g)%Z) eqn:E2.
    + apply andb_true_iff in E2. destruct E2 as (Hs & _).
      apply RiskState_eqb_eq in Hs. simpl. split; [discriminate | congruence].
    + simpl. rewrite negb_true_iff. apply RiskState_eqb_neq.
Qed.

(** ** The sum of the target weights *)

(** X4.  With configured weights in [0,1] the target never asks for more
    than the whole account: the weights [target_weights] returns sum to at
    most 1 and at least 0, to exactly 1 in CIRCUIT_COOLDOWN and, the winner
    not being the defensive symbol, in DE_RISK. *)
Theorem target_weights_sum (st : RiskState) (eq def : string) (nw dw : Q) :
  unit_weight nw -> unit_weight dw ->
  0 <= weight_sum (target_weights st eq def nw dw) /\
  weight_sum (target_weights st eq def nw dw) <= 1 /\
  (st = CIRCUIT_COOLDOWN -> weight_sum (target_weights st eq def nw dw) == 1) /\
  (st = DE_RISK -> eq <> def -> weight_sum (target_weights st eq def nw dw) == 1).
Proof.
  intros [Hn0 Hn1] [Hd0 Hd1].
  destruct (target_weights_equations eq def nw dw) as (Ec & Ed & En).
  destruct st.
  - rewrite En. simpl. repeat split; try lra; discriminate.
  - rewrite Ed. destruct (String.eqb def eq) eqn:E; simpl.
    + apply String.eqb_eq in E. repeat split; try lra; try discriminate.
      intros _ Hne. congruence.
    + repeat split; try lra; discriminate.
  - rewrite Ec. simpl. repeat split; try lra; discriminate.
Qed.

Lemma target_weights_sum_witness :
  weight_sum (target_weights DE_RISK "510300" "511010" (8 # 10) (1 # 2)) == 1.
Proof.
  assert (H1 : unit_weight (8 # 10)) by (split; discriminate).
  assert (H2 : unit_weight (1 # 2)) by (split; discriminate).
  apply (proj2 (proj2 (proj2
           (target_weights_sum DE_RISK "510300" "511010" (8 # 10) (1 # 2) H1 H2)))).
  - reflexivity.
  - discriminate.
Defined.

(** ** The cost estimate of several trades *)

Lemma est_cost_for_cost (cm : CostModel) (t : TradeIntent) :
  est_cost_for cm (ti_symbol t) (trade_value t) (sell_value t) == trade_cost cm t.
Proof.
  unfold est_cost_for. rewrite estimate_is_sum. destruct t. simpl. ring.
Qed.

Lemma per_symbol_estimate_sum (cm : CostModel) (trades : list TradeIntent) :
  per_symbol_estimate cm trades == sum_costs cm trades.
Proof.
  induction trades as [| t r IH]; simpl; [reflexivity |].
  rewrite IH, est_cost_for_cost. reflexivity.
Qed.

(** X5.  The estimate is additive: the estimate of two lists of trades
    put together is the sum of their estimates, so the total of the
    estimates the paper driver makes one symbol at a time is the estimate
    the backtest makes of the whole list at once. *)
Theorem estimate_additive (cm : CostModel) (a b : list TradeIntent) :
  estimate_for_rebalance cm (a ++ b)
  == estimate_for_rebalance cm a + estimate_for_rebalance cm b /\
  per_symbol_estimate cm a == estimate_for_rebalance cm a.
Proof.
  split.
  - rewrite !estimate_is_sum. apply sum_costs_app.
  - rewrite estimate_is_sum. apply per_symbol_estimate_sum.
Qed.

Lemma sum_costs_floor (cm : CostModel) (trades : list TradeIntent) :
  0 <= stamp_tax_rate cm -> 0 <= slippage_bps cm ->
  Forall (fun t => 0 <= sell_value t) trades ->
  inject_Z (Z.of_nat (List.length (charged trades))) * min_commission cm
  <= sum_costs cm trades.
Proof.
  intros Hs Hb Hall. induction Hall as [| t r Ht _ IH].
  - unfold Qle. simpl. lia.
  - change (sum_costs cm (t :: r)) with (trade_cost cm t + sum_costs cm r).
    change (charged (t :: r))
      with (if negb (Qle_bool (trade_value t) 0) then t :: charged r else charged r).
    unfold trade_cost.
    remember (inject_Z (Z.of_nat (List.length (charged r))) * min_commission cm) as floor.
    destruct (Qle_bool (trade_value t) 0) eqn:E; cbn [negb].
    + rewrite <- Heqfloor. lra.
    + apply Qle_bool_false in E.
      assert (Hmax : min_commission cm
                     <= Qmax (trade_value t * commission_rate cm) (min_commission cm))
        by apply Q.le_max_r.
      assert (Hst : 0 <= sell_value t * stamp_tax_rate cm)
        by (apply Qmult_le_0_compat; lra).
      assert (Hsl : 0 <= trade_value t * slippage_bps cm)
        by (apply Qmult_le_0_compat; lra).
      assert (trade_value t * slippage_bps cm / 10000
              == (trade_value t * slippage_bps cm) * (1 # 10000)) as -> by field.
      cbn [List.length]. rewrite Nat2Z.inj_succ, <- Z.add_1_r, inject_Z_plus.
      change (inject_Z 1) with 1.
      rewrite Qmult_plus_distr_l, <- Heqfloor. lra.
Qed.

(** X6.  The minimum commission is charged once per traded symbol (the
    docstring of [estimate_for_rebalance]): with a stamp-tax rate, a
    slippage and sell values that are not negative, the estimate is,
    floats taken as exact rationals, at least [min_commission] times the
    number of trades with a positive [trade_value].  (The sum the float
    loop accumulates can fall short of that product by its rounding.) *)
Theorem estimate_at_least_minimum_per_trade (cm : CostModel) (trades : list TradeIntent) :
  0 <= stamp_tax_rate cm -> 0 <= slippage_bps cm ->
  Forall (fun t => 0 <= sell_value t) trades ->
  inject_Z (Z.of_nat (List.length (charged trades))) * min_commission cm
  <= estimate_for_rebalance cm trades.
Proof.
  intros Hs Hb Hall. rewrite estimate_is_sum. now apply sum_costs_floor.
Qed.

Lemma estimate_at_least_minimum_per_trade_witness :
  inject_Z 2 * 5
  <= estimate_for_rebalance broker_rates [trade_of 10 0; trade_of 0 0; trade_of 20 20].
Proof.
  assert (Hs : 0 <= stamp_tax_rate broker_rates) by discriminate.
  assert (Hb : 0 <= slippage_bps broker_rates) by discriminate.
  apply (estimate_at_least_minimum_per_trade broker_rates
           [trade_of 10 0; trade_of 0 0; trade_of 20 20] Hs Hb).
  repeat constructor; discriminate.
Defined.

(** ** The winner *)

Lemma score_geb_PosInf (a : score) : score_geb a PosInf = true -> a = PosInf.
Proof. destruct a; simpl; congruence. Qed.

Lemma sorted_head_dominates (best : string) (top : score) (rest sorted scores : Dict.t score) :
  sorts_descending scores sorted ->
  sorted = (best, top) :: rest ->
  is_nan top = false ->
  forall s sc, In (s, sc) scores -> is_nan sc = false ->
               (s, sc) = (best, top) \/ score_geb top sc = true.
Proof.
  intros (Hperm & valued & nans & Hsplit & Hval & Hnan & Hsorted) Hhead Htop s sc Hin Hsc.
  assert (Hin' : In (s, sc) sorted) by (eapply Permutation_in; eauto).
  destruct valued as [| v0 valued'].
  - simpl in Hsplit. rewrite Hhead in Hsplit. rewrite <- Hsplit in Hnan.
    apply Forall_inv in Hnan. simpl in Hnan. congruence.
  - rewrite Hsplit in Hhead. simpl in Hhead. injection Hhead as Hv0 Hrest. subst v0.
    rewrite Hsplit in Hin'. simpl in Hin'. destruct Hin' as [Heq | Hin'].
    + left. now symmetry.
    + right. apply in_app_or in Hin'. destruct Hin' as [Hv | Hn].
      * apply StronglySorted_inv in Hsorted. destruct Hsorted as (_ & Hall).
        rewrite Forall_forall in Hall. apply (Hall _ Hv).
      * rewrite Forall_forall in Hnan. specialize (Hnan _ Hn). simpl in Hnan. congruence.
Qed.

(** X7.  [pick_best_equity] on a score series sorted as pandas promises
    (descending, NaN last): the symbol returned is the fallback or a
    candidate with a finite score that no score of the series exceeds; it
    is the fallback when no candidate has a finite score, and also as soon
    as one candidate has the score [+inf], whatever finite scores the
    others have. *)
Theorem pick_best_finite_maximum (scores sorted : Dict.t score) (fallback : string) :
  sorts_descending scores sorted ->
  (pick_best_equity sorted fallback = fallback \/
   exists q,
     In (pick_best_equity sorted fallback, Fin q) scores /\
     forall s sc, In (s, sc) scores -> is_nan sc = false -> score_geb (Fin q) sc = true) /\
  ((forall s sc, In (s, sc) scores -> isfinite sc = false) ->
   pick_best_equity sorted fallback = fallback) /\
  ((exists s, In (s, PosInf) scores) -> pick_best_equity sorted fallback = fallback).
Proof.
  intros Hsort. pose proof Hsort as (Hperm & _).
  destruct sorted as [| [best top] rest] eqn:Hsorted; [simpl; auto |].
  assert (Hbest : In (best, top) scores).
  { eapply Permutation_in; [apply Permutation_sym; exact Hperm |]. simpl. auto. }
  unfold pick_best_equity. repeat split.
  - destruct top as [| q | |]; simpl; auto. right. exists q. split; trivial.
    intros s sc Hin Hsc.
    destruct (sorted_head_dominates best (Fin q) rest _ scores Hsort eq_refl eq_refl
                s sc Hin Hsc) as [Heq | Hge]; trivial.
    inversion Heq; subst. simpl. apply Qle_bool_iff. apply Qle_refl.
  - intros Hnone. now rewrite (Hnone _ _ Hbest).
  - intros (s & Hinf). destruct top as [| q | |]; simpl; trivial.
    destruct (sorted_head_dominates best (Fin q) rest _ scores Hsort eq_refl eq_refl
                s PosInf Hinf eq_refl) as [Heq | Hge].
    + inversion Heq.
    + apply score_geb_PosInf in Hge. discriminate.
Qed.

Lemma pick_best_finite_maximum_witness :
  pick_best_equity tied_scores_reversed "510300" = "510300"%string \/
  exists q,
    In (pick_best_equity tied_scores_reversed "510300", Fin q) tied_scores /\
    forall s sc, In (s, sc) tied_scores -> is_nan sc = false -> score_geb (Fin q) sc = true.
Proof.
  exact (proj1 (pick_best_finite_maximum tied_scores tied_scores_reversed "510300"
                  (proj2 tied_scores_either_order))).
Defined.

(** ** The two no-trade bands *)

Lemma dict_set_new {V} (d : Dict.t V) (k : string) (v : V) :
  ~ In k (Dict.keys d) -> Dict.set d k v = d ++ [(k, v)].
Proof.
  induction d as [| [k' v'] r IH]; simpl; intros Hnot; [reflexivity |].
  destruct (String.eqb k k') eqn:E.
  - apply String.eqb_eq in E. subst. tauto.
  - rewrite IH; tauto.
Qed.

Lemma dict_set_skip {V} (done rest : Dict.t V) (k : string) (v c : V) :
  ~ In k (Dict.keys done) ->
  Dict.set (done ++ (k, v) :: rest) k c = done ++ (k, c) :: rest.
Proof.
  induction done as [| [k' v'] r IH]; simpl; intros Hnot.
  - now rewrite String.eqb_refl.
  - destruct (String.eqb k k') eqn:E.
    + apply String.eqb_eq in E. subst. tauto.
    + rewrite IH; tauto.
Qed.

Lemma bt_band_fold (band : Q) (cw : Dict.t Q) (tw : Dict.t Q) :
  forall adj,
    NoDup (Dict.keys adj ++ Dict.keys tw) ->
    fold_left (bt_band_step band cw) tw adj = adj ++ map (banded band cw) tw.
Proof.
  induction tw as [| item tw IH]; intros adj Hnd; simpl.
  - now rewrite app_nil_r.
  - assert (Hnew : ~ In (fst item) (Dict.keys adj)).
    { simpl in Hnd. apply NoDup_remove_2 in Hnd. intros Hin. apply Hnd.
      apply in_or_app. now left. }
    assert (Hstep : bt_band_step band cw adj item = adj ++ [banded band cw item]).
    { unfold bt_band_step, banded.
      destruct (Qltb _ band); now rewrite dict_set_new. }
    rewrite Hstep, IH.
    + now rewrite <- app_assoc.
    + unfold Dict.keys in *. rewrite map_app. simpl. rewrite <- app_assoc. exact Hnd.
Qed.

Lemma paper_band_fold (band : Q) (cw : Dict.t Q) (rest : Dict.t Q) :
  forall done,
    NoDup (Dict.keys done ++ Dict.keys rest) ->
    fold_left (band_step band cw) rest (done ++ rest) = done ++ map (banded band cw) rest.
Proof.
  induction rest as [| item rest IH]; intros done Hnd; simpl.
  - reflexivity.
  - assert (Hnew : ~ In (fst item) (Dict.keys done)).
    { simpl in Hnd. apply NoDup_remove_2 in Hnd. intros Hin. apply Hnd.
      apply in_or_app. now left. }
    assert (Hstep : band_step band cw (done ++ item :: rest) item
                    = (done ++ [banded band cw item]) ++ rest).
    { unfold band_step, banded. rewrite <- app_assoc. simpl.
      destruct item as [k w]. simpl in *.
      destruct (Qltb _ band); trivial. now apply dict_set_skip. }
    rewrite Hstep, IH.
    + now rewrite <- app_assoc.
    + unfold Dict.keys in *. rewrite map_app. simpl. rewrite <- app_assoc. exact Hnd.
Qed.

Lemma dict_get_map_banded (band : Q) (cw tw : Dict.t Q) (s : string) :
  Dict.get (map (banded band cw) tw) s
  = match Dict.get tw s with
    | Some w => Some (snd (banded band cw (s, w)))
    | None => None
    end.
Proof.
  induction tw as [| [k w] tw IH]; simpl; [reflexivity |].
  destruct (String.eqb s k) eqn:E; trivial.
  apply String.eqb_eq in E. now subst.
Qed.

(** X8.  The no-trade band of the paper driver, which overwrites the
    target dict in place, and the band of the backtest, which builds a new
    dict, give the same weights: a symbol whose target is less than the
    band away from its current weight gets exactly its current weight
    (0 for a symbol without one), any other symbol keeps exactly its target,
    and the symbols and their order are those of the target. *)
Theorem no_trade_band_same_in_both_drivers (band : Q) (cw tw : Dict.t Q) :
  NoDup (Dict.keys tw) ->
  apply_band band cw tw = bt_apply_band band cw tw /\
  Dict.keys (apply_band band cw tw) = Dict.keys tw /\
  forall s w,
    Dict.get tw s = Some w ->
    let c := Dict.get_or cw s 0 in
    (pyabs (w - c) < band -> Dict.get (apply_band band cw tw) s = Some c) /\
    (band <= pyabs (w - c) -> Dict.get (apply_band band cw tw) s = Some w).
Proof.
  intros Hnd.
  assert (Hpaper : apply_band band cw tw = map (banded band cw) tw).
  { unfold apply_band. apply (paper_band_fold band cw tw []). exact Hnd. }
  assert (Hbt : bt_apply_band band cw tw = map (banded band cw) tw).
  { unfold bt_apply_band. apply (bt_band_fold band cw tw []). exact Hnd. }
  rewrite Hpaper, Hbt. split; [reflexivity | split].
  - unfold Dict.keys. rewrite map_map. apply map_ext. intros item. reflexivity.
  - intros s w Hget. cbv zeta. rewrite dict_get_map_banded, Hget.
    unfold banded. simpl. split; intros H.
    + apply Qltb_lt in H. now rewrite H.
    + apply Qltb_ge in H. now rewrite H.
Qed.

Lemma no_trade_band_same_in_both_drivers_witness :
  apply_band (1 # 50) [("511010"%string, 1 # 2)]
    [("510300"%string, 1 # 2); ("511010"%string, 49 # 100)]
  = bt_apply_band (1 # 50) [("511010"%string, 1 # 2)]
      [("510300"%string, 1 # 2); ("511010"%string, 49 # 100)].
Proof.
  apply (no_trade_band_same_in_both_drivers (1 # 50) [("511010"%string, 1 # 2)]
           [("510300"%string, 1 # 2); ("511010"%string, 49 # 100)]).
  repeat constructor; simpl; intuition discriminate.
Defined.

(** ** The maximum drawdown *)

Lemma fold_min_le (l : list Q) (x : Q) :
  fold_left (fun m y => if Qltb y m then y else m) l x <= x.
Proof.
  revert x. induction l as [| y l IH]; intros x; simpl; [apply Qle_refl |].
  destruct (Qltb y x) eqn:E.
  - apply Qltb_lt in E. eapply Qle_trans; [apply IH | lra].
  - apply IH.
Qed.

Lemma fold_min_ge (lo : Q) (l : list Q) (x : Q) :
  lo <= x -> Forall (fun y => lo <= y) l ->
  lo <= fold_left (fun m y => if Qltb y m then y else m) l x.
Proof.
  intros Hx Hall. revert x Hx. induction Hall as [| y l Hy _ IH]; intros x Hx; simpl; trivial.
  destruct (Qltb y x); apply IH; trivial.
Qed.

Lemma drawdowns_ge (l : list Q) :
  forall peak,
    0 < peak -> Forall (fun e => 0 <= e) l ->
    Forall (fun d => - (1) <= d) (drawdowns l (cummax_from peak l)).
Proof.
  induction l as [| e l IH]; intros peak Hpeak Hall; simpl; [constructor |].
  inversion Hall as [| ? ? He Hl]; subst.
  assert (Hp : 0 < pymax peak e).
  { eapply Qlt_le_trans; [exact Hpeak | apply pymax_ge_l]. }
  constructor.
  - pose proof (Qdiv_nonneg e (pymax peak e) He Hp). lra.
  - now apply IH.
Qed.

(** X9.  [_max_drawdown] of an equity curve that starts above 0 is never
    positive (the first day has drawdown 0), and it is not below -1 when
    the equity is never negative; the maximum drawdown of an empty curve is
    not a number. *)
Theorem max_drawdown_not_positive (e0 : Q) (rest : list Q) :
  0 < e0 ->
  _max_drawdown [] = None /\
  exists m,
    _max_drawdown (e0 :: rest) = Some m /\
    m <= 0 /\
    (Forall (fun e => 0 <= e) rest -> - (1) <= m).
Proof.
  intros He0. split; [reflexivity |].
  unfold _max_drawdown. simpl. eexists. split; [reflexivity |].
  assert (Hfirst : e0 / e0 - 1 == 0) by (field; lra).
  split.
  - eapply Qle_trans; [apply fold_min_le |]. lra.
  - intros Hall. apply fold_min_ge.
    + lra.
    + now apply drawdowns_ge.
Qed.

Lemma max_drawdown_not_positive_witness :
  exists m, _max_drawdown [100; 120; 90; 130] = Some m /\ m <= 0.
Proof.
  assert (H : 0 < 100) by reflexivity.
  destruct (proj2 (max_drawdown_not_positive 100 [120; 90; 130] H)) as (m & Hm & Hle & _).
  exists m. split; assumption.
Defined.

(** ** Loading the price table *)

Lemma insert_date_In (d x : date) (idx : list date) :
  In x (insert_date d idx) <-> x = d \/ In x idx.
Proof.
  induction idx as [| y r IH]; simpl.
  - intuition.
  - destruct (d <? y)%Z eqn:E1; [simpl; intuition |].
    destruct (d =? y)%Z eqn:E2.
    + apply Z.eqb_eq in E2. subst. simpl. intuition.
    + simpl. rewrite IH. intuition.
Qed.

Lemma insert_date_sorted (d : date) (idx : list date) :
  StronglySorted Z.lt idx -> StronglySorted Z.lt (insert_date d idx).
Proof.
  induction 1 as [| y r Hr IH Hall]; simpl.
  - repeat constructor.
  - destruct (d <? y)%Z eqn:E1.
    + apply Z.ltb_lt in E1. constructor; [constructor; trivial |].
      constructor; trivial. rewrite Forall_forall in *. intros x Hx.
      specialize (Hall _ Hx). lia.
    + destruct (d =? y)%Z eqn:E2; [now constructor |].
      apply Z.ltb_ge in E1. apply Z.eqb_neq in E2.
      constructor; trivial. rewrite Forall_forall in *. intros x Hx.
      apply insert_date_In in Hx. destruct Hx as [-> | Hx]; [lia | auto].
Qed.

Lemma union_index_sorted (frames : list (string * Frame)) :
  StronglySorted Z.lt (union_index frames).
Proof.
  unfold union_index.
  apply (fold_left_invariant (StronglySorted Z.lt)); [constructor |].
  intros idx fr _ Hidx.
  apply (fold_left_invariant (StronglySorted Z.lt)); trivial.
  intros idx' p _ Hidx'. now apply insert_date_sorted.
Qed.

Lemma ffill_index (symbols : list string) (table : PriceTable) :
  forall last, index (ffill symbols last table) = index table.
Proof.
  induction table as [| [d row] r IH]; intros last; simpl; [reflexivity |].
  unfold index in *. now rewrite IH.
Qed.

Lemma sorted_filter {A} (R : A -> A -> Prop) (f : A -> bool) (l : list A) :
  StronglySorted R l -> StronglySorted R (filter f l).
Proof.
  induction 1 as [| x l Hl IH Hall]; simpl; [constructor |].
  destruct (f x); trivial. constructor; trivial.
  rewrite Forall_forall in *. intros y Hy. apply filter_In in Hy. apply Hall, Hy.
Qed.

Lemma sorted_index_of_rows (table : PriceTable) :
  StronglySorted Z.lt (index table) <->
  StronglySorted (fun a b => (fst a < fst b)%Z) table.
Proof.
  unfold index. induction table as [| r t IH]; simpl.
  - split; constructor.
  - split; intros H; inversion H as [| ? ? Ht Hall]; subst; constructor.
    + now apply IH.
    + rewrite Forall_forall in *. intros y Hy. apply Hall. now apply in_map.
    + now apply IH.
    + rewrite Forall_forall in *. intros y Hy. apply in_map_iff in Hy.
      destruct Hy as (z & <- & Hz). now apply Hall.
Qed.

Lemma dict_mem_set {V} (d : Dict.t V) (k s : string) (v : V) :
  Dict.mem (Dict.set d k v) s = String.eqb s k || Dict.mem d s.
Proof.
  unfold Dict.mem. induction d as [| [k' v'] r IH]; simpl.
  - now destruct (String.eqb s k).
  - destruct (String.eqb k k') eqn:E; simpl.
    + apply String.eqb_eq in E. subst k'.
      destruct (String.eqb s k); reflexivity.
    + destruct (String.eqb s k') eqn:E'; simpl.
      * now rewrite orb_true_r.
      * exact IH.
Qed.

Lemma ffill_row_mem (symbols : list string) (last row : Dict.t Q) (s : string) :
  In s symbols -> Dict.mem last s = true -> Dict.mem (ffill_row symbols last row) s = true.
Proof.
  intros Hin Hlast. unfold ffill_row.
  set (step := fun (acc : Dict.t Q) (s0 : string) =>
                 match Dict.get row s0 with
                 | Some v => Dict.set acc s0 v
                 | None => match Dict.get last s0 with
                           | Some v => Dict.set acc s0 v
                           | None => acc
                           end
                 end).
  assert (Hkeep : forall l acc, Dict.mem acc s = true ->
                                Dict.mem (fold_left step l acc) s = true).
  { induction l as [| x l IH]; intros acc Hacc; simpl; trivial.
    apply IH. unfold step.
    destruct (Dict.get row x); [rewrite dict_mem_set, Hacc; apply orb_true_r |].
    destruct (Dict.get last x); [rewrite dict_mem_set, Hacc; apply orb_true_r | trivial]. }
  generalize (@nil (string * Q)).
  induction symbols as [| x l IH]; intros acc; [contradiction |].
  simpl. destruct Hin as [-> | Hin].
  - apply Hkeep. unfold step.
    destruct (Dict.get row s); [rewrite dict_mem_set, String.eqb_refl; reflexivity |].
    unfold Dict.mem in Hlast.
    destruct (Dict.get last s); [rewrite dict_mem_set, String.eqb_refl; reflexivity |].
    discriminate.
  - now apply IH.
Qed.

Lemma ffill_row_complete (symbols : list string) (last row : Dict.t Q) :
  complete_row symbols last = true ->
  complete_row symbols (ffill_row symbols last row) = true.
Proof.
  unfold complete_row. rewrite !forallb_forall. intros Hlast s Hs.
  apply ffill_row_mem; auto.
Qed.

Lemma ffill_stays_complete (symbols : list string) (table : PriceTable) :
  forall last,
    complete_row symbols last = true ->
    complete_table symbols (ffill symbols last table).
Proof.
  induction table as [| [d row] r IH]; intros last Hlast; simpl; [constructor |].
  pose proof (ffill_row_complete symbols last row Hlast) as Hrow.
  constructor; trivial. now apply IH.
Qed.

Lemma dropna_complete_id (symbols : list string) (table : PriceTable) :
  complete_table symbols table -> dropna symbols table = table.
Proof.
  induction 1 as [| r t Hr _ IH]; simpl; [reflexivity |].
  now rewrite Hr, IH.
Qed.

Lemma dropna_suffix (symbols : list string) (table : PriceTable) :
  forall last,
  exists dropped,
    ffill symbols last table = dropped ++ dropna symbols (ffill symbols last table) /\
    Forall (fun r => complete_row symbols (snd r) = false) dropped.
Proof.
  induction table as [| [d row] r IH]; intros last; simpl.
  - exists []. auto.
  - destruct (complete_row symbols (ffill_row symbols last row)) eqn:E.
    + exists []. simpl. split; [| constructor].
      rewrite dropna_complete_id; trivial. now apply ffill_stays_complete.
    + destruct (IH (ffill_row symbols last row)) as (dropped & Hsplit & Hall).
      exists ((d, ffill_row symbols last row) :: dropped). simpl.
      split; [now rewrite <- Hsplit | now constructor].
Qed.

Lemma read_frames_missing (market_dir : MarketDir) (symbols : list string) (s : string) :
  read_frames market_dir symbols = inl s ->
  In s symbols /\ Dict.get market_dir s = None.
Proof.
  induction symbols as [| x rest IH]; simpl; [discriminate |].
  destruct (Dict.get market_dir x) as [frame |] eqn:E.
  - destruct (read_frames market_dir rest) as [missing | frames]; [| discriminate].
    intros H. inversion H; subst. destruct (IH eq_refl). auto.
  - intros H. inversion H; subst. auto.
Qed.

Lemma read_frames_found (market_dir : MarketDir) (symbols : list string) :
  (forall s, In s symbols -> Dict.get market_dir s <> None) ->
  exists frames, read_frames market_dir symbols = inr frames.
Proof.
  induction symbols as [| x rest IH]; intros Hall; simpl; [eauto |].
  destruct (Dict.get market_dir x) as [frame |] eqn:E.
  - destruct IH as (frames & ->); [intros s Hs; apply Hall; simpl; auto | eauto].
  - exfalso. apply (Hall x); simpl; auto.
Qed.

(** X10.  For at least one symbol and on files that each hold a date
    once, [_load_prices] raises for a symbol without a file and for no
    other reason.  The table it returns
    has a close for every symbol in every row, its dates increase
    strictly, and it is what is left of the forward-filled table of all
    dates of all files when a run of leading rows is dropped, each short
    of a close: from the first date on which every symbol has traded, no
    date is left out. *)
Theorem load_prices_table (market_dir : MarketDir) (symbols : list string) :
  symbols <> [] ->
  distinct_dates market_dir symbols ->
  (forall s, _load_prices market_dir symbols = FileNotFound s ->
             In s symbols /\ Dict.get market_dir s = None) /\
  ((forall s, In s symbols -> Dict.get market_dir s <> None) ->
   exists prices, _load_prices market_dir symbols = Loaded prices) /\
  (forall prices,
      _load_prices market_dir symbols = Loaded prices ->
      complete_table symbols prices /\
      StronglySorted Z.lt (index prices) /\
      exists frames dropped,
        read_frames market_dir symbols = inr frames /\
        ffill symbols [] (concat_sorted frames) = dropped ++ prices /\
        Forall (fun r => complete_row symbols (snd r) = false) dropped).
Proof.
  intros _ _. unfold _load_prices. split; [| split].
  - intros s H. destruct (read_frames market_dir symbols) as [missing | frames] eqn:E;
      [| discriminate].
    inversion H; subst. now apply read_frames_missing.
  - intros Hall. destruct (read_frames_found market_dir symbols Hall) as (frames & ->).
    eauto.
  - intros prices H.
    destruct (read_frames market_dir symbols) as [missing | frames] eqn:E; [discriminate |].
    inversion H; subst prices; clear H. split; [| split].
    + unfold complete_table, dropna. apply Forall_forall. intros r Hr.
      apply filter_In in Hr. apply Hr.
    + apply sorted_index_of_rows. unfold dropna. apply sorted_filter.
      apply sorted_index_of_rows. rewrite ffill_index.
      unfold concat_sorted, index. rewrite map_map. simpl. rewrite map_id.
      apply union_index_sorted.
    + destruct (dropna_suffix symbols (concat_sorted frames) []) as (dropped & Hs & Hd).
      exists frames, dropped. auto.
Qed.

Lemma load_prices_table_witness :
  exists prices,
    _load_prices two_files ["510300"; "511010"]%string = Loaded prices /\
    complete_table ["510300"; "511010"]%string prices /\
    StronglySorted Z.lt (index prices).
Proof.
  assert (Hdistinct : distinct_dates two_files ["510300"; "511010"]%string).
  { intros s frame Hin Hget.
    destruct Hin as [<- | [<- | []]]; vm_compute in Hget;
      rewrite <- (Some_inj _ _ Hget); simpl; repeat constructor; simpl; lia. }
  assert (Hsome : ["510300"; "511010"]%string <> []) by discriminate.
  destruct (load_prices_table two_files ["510300"; "511010"]%string Hsome Hdistinct)
    as (_ & Hfound & Hall).
  destruct Hfound as (prices & Hprices).
  { intros s Hin. destruct Hin as [<- | [<- | []]]; vm_compute; discriminate. }
  exists prices. split; [exact Hprices |].
  destruct (Hall prices Hprices) as (Hcomplete & Hsorted & _). auto.
Defined.

(** ** Look-ups that cannot fail *)

Lemma mask_subset {A} (l : list A) (flag : list bool) (x : A) :
  In x (mask l flag) -> In x l.
Proof.
  intros H. destruct (mask_In _ _ _ H) as (i & Hi & _). eapply nth_error_In; eauto.
Qed.

Lemma get_loc_In (idx : list date) (d : date) :
  In d idx ->
  exists i, get_loc idx d = Ok i /\ (0 <= i < Z.of_nat (List.length idx))%Z.
Proof.
  induction idx as [| x r IH]; intros Hin; [contradiction |].
  simpl get_loc. destruct (d =? x)%Z eqn:E.
  - exists 0%Z. split; trivial. simpl List.length. lia.
  - apply Z.eqb_neq in E. destruct Hin as [-> | Hin]; [congruence |].
    destruct (IH Hin) as (i & Hi & Hrange). rewrite Hi. exists (i + 1)%Z.
    split; trivial. simpl List.length. lia.
Qed.

Lemma py_getitem_total {A} (l : list A) (j : Z) :
  (- Z.of_nat (List.length l) <= j < Z.of_nat (List.length l))%Z ->
  exists a, py_getitem l j = Ok a /\ In a l.
Proof.
  intros Hj. unfold py_getitem.
  set (n := Z.of_nat (List.length l)) in *.
  set (k := if (j <? 0)%Z then (j + n)%Z else j).
  assert (Hk : (0 <= k < n)%Z).
  { unfold k. destruct (j <? 0)%Z eqn:E; [apply Z.ltb_lt in E | apply Z.ltb_ge in E]; lia. }
  assert (E : (k <? 0)%Z = false) by (apply Z.ltb_ge; lia). rewrite E.
  destruct (nth_error l (Z.to_nat k)) as [a |] eqn:En.
  - exists a. split; trivial. eapply nth_error_In; eauto.
  - apply nth_error_None in En. unfold n in Hk. lia.
Qed.

Lemma loc_In (prices : PriceTable) (d : date) :
  In d (index prices) -> exists row, loc prices d = Ok row /\ In (d, row) prices.
Proof.
  unfold index. induction prices as [| [d' row] r IH]; intros Hin; [contradiction |].
  simpl. destruct (d =? d')%Z eqn:E.
  - apply Z.eqb_eq in E. subst. eauto.
  - apply Z.eqb_neq in E. destruct Hin as [Heq | Hin]; [simpl in Heq; congruence |].
    destruct (IH Hin) as (row' & Hrow & Hin'). eauto.
Qed.

Lemma backfill_fold_total (prices : PriceTable) (existing dates : list date) :
  (forall d, In d dates -> In d (index prices)) ->
  forall a, exists a', fold_left (backfill_step prices existing) dates (Ok a) = Ok a'.
Proof.
  induction dates as [| d ds IH]; intros Hin a; cbn [fold_left]; [eauto |].
  assert (Hstep : exists a1, backfill_step prices existing (Ok a) d = Ok a1).
  { unfold backfill_step. cbn [bind].
    destruct (existsb (Z.eqb d) existing); [eauto |].
    destruct (loc_In prices d) as (row & Hrow & _); [apply Hin; simpl; auto |].
    rewrite Hrow. cbn [bind]. eauto. }
  destruct Hstep as (a1 & ->). apply IH. intros d' Hd'. apply Hin. simpl. auto.
Qed.

Lemma backfill_total (prices : PriceTable) (a : PaperAccount) (signal_dt : date) :
  exists a', backfill prices a signal_dt = Ok a'.
Proof.
  unfold backfill. destruct (as_of a) as [last |]; [| eauto].
  apply backfill_fold_total. intros d Hd. apply filter_In in Hd. apply Hd.
Qed.

Lemma fromkeys_fold_In (l : list string) (s : string) :
  forall acc,
    In s (fold_left (fun acc x => if existsb (String.eqb x) acc then acc else acc ++ [x])
                    l acc)
    <-> In s acc \/ In s l.
Proof.
  induction l as [| x l IH]; intros acc; simpl; [tauto |].
  rewrite IH. destruct (existsb (String.eqb x) acc) eqn:E.
  - apply existsb_eqb_In in E. split; [tauto |].
    intros [H | [<- | H]]; auto.
  - rewrite in_app_iff. simpl. tauto.
Qed.

Lemma fromkeys_In (l : list string) (s : string) : In s (fromkeys l) <-> In s l.
Proof. unfold fromkeys. rewrite fromkeys_fold_In. simpl. tauto. Qed.

Lemma complete_row_get (symbols : list string) (row : Dict.t Q) (s : string) :
  complete_row symbols row = true -> In s symbols ->
  exists px, Dict.get row s = Some px.
Proof.
  unfold complete_row. rewrite forallb_forall. intros Hall Hs.
  specialize (Hall _ Hs). unfold Dict.mem in Hall.
  destruct (Dict.get row s); [eauto | discriminate].
Qed.

Lemma current_weights_total (symbols : list string) (pre_positions : Dict.t Z)
    (px_trade : Dict.t Q) (pre_value : Q) :
  complete_row symbols px_trade = true ->
  exists cw, current_weights symbols pre_positions px_trade pre_value = Ok cw.
Proof.
  intros Hrow. unfold current_weights.
  generalize (fold_left (fun d s => Dict.set d s 0) symbols []).
  assert (Hall : forall s, In s symbols -> exists px, Dict.get px_trade s = Some px)
    by (intros s Hs; eapply complete_row_get; eauto).
  clear Hrow. induction symbols as [| s l IH]; intros cw0; cbn [fold_left]; [eauto |].
  assert (Hl : forall s', In s' l -> exists px, Dict.get px_trade s' = Some px)
    by (intros s' Hs'; apply Hall; simpl; auto).
  assert (Hstep : exists cw1,
             current_weights_step pre_positions px_trade pre_value (Ok cw0) s = Ok cw1).
  { unfold current_weights_step. cbn [bind].
    destruct (Dict.get_or pre_positions s 0 <=? 0)%Z; [eauto |].
    destruct (Qltb 0 pre_value); [| eauto].
    destruct (Hall s) as (px & ->); [simpl; auto | eauto]. }
  destruct Hstep as (cw1 & ->). now apply IH.
Qed.

Lemma target_shares_total (tw : Dict.t Q) (pre_positions : Dict.t Z)
    (px_trade : Dict.t Q) (pre_value : Q) :
  (forall s, In s (Dict.keys tw) -> exists px, Dict.get px_trade s = Some px) ->
  exists ts, target_shares_of tw pre_positions px_trade pre_value = Ok ts.
Proof.
  intros Hall. unfold target_shares_of.
  assert (Hfold : forall acc, exists ts,
                    fold_left (target_step px_trade pre_value) tw (Ok acc) = Ok ts).
  { induction tw as [| item tw IH]; intros acc; cbn [fold_left]; [eauto |].
    assert (Hstep : exists ts1, target_step px_trade pre_value (Ok acc) item = Ok ts1).
    { unfold target_step. cbn [bind].
      destruct (Hall (fst item)) as (px & ->); [simpl; auto | eauto]. }
    destruct Hstep as (ts1 & ->).
    apply IH. intros s Hs. apply Hall. simpl. auto. }
  destruct (Hfold []) as (ts & Hts). exists (fold_left zero_step (Dict.keys pre_positions) ts).
  unfold bind. unfold Dict.t in *. now rewrite Hts.
Qed.

Lemma target_weights_keys (st : RiskState) (eq def : string) (nw dw : Q) :
  NoDup (Dict.keys (target_weights st eq def nw dw)) /\
  forall s, In s (Dict.keys (target_weights st eq def nw dw)) -> s = eq \/ s = def.
Proof.
  destruct (target_weights_equations eq def nw dw) as (Ec & Ed & En).
  assert (Hone : forall k : string, NoDup [k])
    by (intros k; constructor; [intros [] | constructor]).
  destruct st.
  - rewrite En. simpl. split; [apply Hone | intros s Hs; simpl in Hs; intuition (subst; auto)].
  - rewrite Ed. destruct (String.eqb def eq) eqn:E; simpl.
    + split; [apply Hone | intros s Hs; simpl in Hs; intuition (subst; auto)].
    + apply String.eqb_neq in E. split; [| intros s Hs; simpl in Hs; intuition (subst; auto)].
      constructor; [| apply Hone]. simpl. intros [H | []]. congruence.
  - rewrite Ec. simpl. split; [apply Hone | intros s Hs; simpl in Hs; intuition (subst; auto)].
Qed.

Lemma apply_band_keys (band : Q) (cw tw : Dict.t Q) :
  NoDup (Dict.keys tw) -> Dict.keys (apply_band band cw tw) = Dict.keys tw.
Proof.
  intros Hnd. unfold apply_band.
  change (fold_left (band_step band cw) tw tw)
    with (fold_left (band_step band cw) tw ([] ++ tw)).
  rewrite (paper_band_fold band cw tw [] Hnd). simpl.
  unfold Dict.keys. rewrite map_map. apply map_ext. intros item. reflexivity.
Qed.

Lemma score_dict_keys {V} (f : string -> V) (symbols : list string) :
  Dict.keys (fold_left (fun d s => Dict.set d s (f s)) symbols []) = fromkeys symbols.
Proof.
  unfold fromkeys.
  assert (H : forall d acc, Dict.keys d = acc ->
              Dict.keys (fold_left (fun d s => Dict.set d s (f s)) symbols d)
              = fold_left (fun acc s => if existsb (String.eqb s) acc then acc else acc ++ [s])
                          symbols acc).
  { induction symbols as [| s r IH]; intros d acc Hd; simpl; trivial.
    apply IH. rewrite dict_set_keys, Hd. reflexivity. }
  now apply H.
Qed.

Lemma pick_best_In (scores : Dict.t score) (fallback : string) :
  pick_best_equity scores fallback = fallback \/
  In (pick_best_equity scores fallback) (Dict.keys scores).
Proof.
  destruct scores as [| [best top] rest]; simpl; auto.
  destruct (isfinite top); simpl; auto.
Qed.

(** ** What a run can end with *)

Section DriverOutcomes.

Variable symbol_score : PriceTable -> Z -> Z -> Q -> string -> score.
Variable sort_values : Dict.t score -> Dict.t score.

(** The sort returns symbols of the series it was given. *)
Hypothesis sort_values_keys :
  forall d s, In s (Dict.keys (sort_values d)) -> In s (Dict.keys d).

Lemma candidates_subset (a : PaperAccount) (dates : list date) (d : date) :
  In d (candidates a dates) -> In d dates.
Proof.
  unfold candidates. destruct (as_of a); trivial.
  intros H. apply filter_In in H. apply H.
Qed.

Lemma winner_is_candidate (prices : PriceTable) (symbols : list string)
    (signal_date : date) (n m : Z) (floor : Q) (fallback : string) :
  In fallback symbols ->
  In (pick_best_equity
        (compute_score symbol_score sort_values prices symbols signal_date n m floor)
        fallback)
     symbols.
Proof.
  intros Hfb.
  destruct (pick_best_In
              (compute_score symbol_score sort_values prices symbols signal_date n m floor)
              fallback) as [-> | Hin]; trivial.
  unfold compute_score in Hin. apply sort_values_keys in Hin.
  rewrite score_dict_keys in Hin. exact (proj1 (fromkeys_In _ _) Hin).
Qed.

Lemma paper_plan_total (cfg : PaperConfig) (prices : PriceTable)
    (store : option PaperAccount) :
  equity_etfs cfg <> [] ->
  complete_table (fromkeys (equity_etfs cfg ++ [defensive_etf cfg])) prices ->
  candidates (load_or_new cfg store) (rebalance_dates_of prices) <> [] ->
  exists plan, paper_plan symbol_score sort_values cfg prices store = Ok plan.
Proof.
  intros Heq Hcomplete Hpending. unfold paper_plan. cbv zeta.
  destruct (rebalance_dates_of prices) as [| r0 rs] eqn:Hreb.
  { exfalso. apply Hpending. unfold candidates. now destruct (as_of _). }
  destruct (candidates (load_or_new cfg store) (r0 :: rs)) as [| trade_dt rest] eqn:Hcand;
    [congruence |].
  assert (Htrade : In trade_dt (index prices)).
  { apply (mask_subset _ (first_day_after_week_end (index prices))).
    fold (rebalance_dates_of prices). rewrite Hreb.
    apply (candidates_subset (load_or_new cfg store)). rewrite Hcand. simpl. auto. }
  destruct (get_loc_In _ _ Htrade) as (i & -> & Hi). cbn [bind].
  destruct (py_getitem_total (index prices) (i - 1)) as (signal_dt & -> & Hsignal); [lia |].
  cbn [bind].
  destruct (backfill_total prices (load_or_new cfg store) signal_dt) as (account1 & ->).
  cbn [bind].
  destruct (loc_In prices signal_dt Hsignal) as (row_signal & -> & _). cbn [bind].
  destruct (equity_etfs cfg) as [| e0 es] eqn:Hequity; [congruence |].
  change (py_getitem (e0 :: es) 0) with (@Ok string e0). cbn [bind].
  destruct (loc_In prices trade_dt Htrade) as (px_trade & -> & Hrow_in). cbn [bind].
  assert (Hrow : complete_row (fromkeys ((e0 :: es) ++ [defensive_etf cfg])) px_trade = true).
  { unfold complete_table in Hcomplete. rewrite Forall_forall in Hcomplete.
    apply (Hcomplete _ Hrow_in). }
  destruct (current_weights_total (fromkeys ((e0 :: es) ++ [defensive_etf cfg]))
              (positions (load_or_new cfg store)) px_trade
              (value_of (cash (load_or_new cfg store)) (positions (load_or_new cfg store))
                 px_trade) Hrow) as (cw & ->).
  cbn [bind].
  match goal with
  | |- exists plan, bind (target_shares_of ?tw ?pre ?px ?pv) _ = Ok plan =>
      destruct (target_shares_total tw pre px pv) as (ts & ->)
  end.
  - intros s Hs. apply (complete_row_get _ _ _ Hrow). apply fromkeys_In.
    match type of Hs with
    | In s (Dict.keys (apply_band ?band ?c (target_weights ?st ?w ?def ?nw ?dw))) =>
        destruct (target_weights_keys st w def nw dw) as (Hnd & Hkeys);
        rewrite (apply_band_keys band c _ Hnd) in Hs;
        destruct (Hkeys s Hs) as [-> | ->]
    end.
    + apply in_or_app. left. apply winner_is_candidate. simpl. auto.
    + apply in_or_app. right. simpl. auto.
  - cbn [bind]. eauto.
Qed.

(** X11.  On a table of strictly increasing dates that has a close for
    every configured symbol in every row (the table [_load_prices] returns
    from files that each hold a date once), with at least one equity
    fund configured and a sort that returns symbols of the series it was
    given, a run of the paper driver ends in one of three ways and no
    other: the data-insufficient error when the table has no rebalance
    date, the up-to-date error when it has some but none is pending, and a
    saved account otherwise; no look-up of the run fails. *)
Theorem driver_outcomes (cfg : PaperConfig) (prices : PriceTable)
    (store : option PaperAccount) :
  StronglySorted Z.lt (index prices) ->
  equity_etfs cfg <> [] ->
  complete_table (fromkeys (equity_etfs cfg ++ [defensive_etf cfg])) prices ->
  let dates := rebalance_dates_of prices in
  let pending := candidates (load_or_new cfg store) dates in
  (dates = [] ->
   run_paper_once symbol_score sort_values cfg prices store
   = (Raise DataInsufficient, store)) /\
  (dates <> [] -> pending = [] ->
   run_paper_once symbol_score sort_values cfg prices store
   = (Raise AccountUpToDate, store)) /\
  (pending <> [] ->
   exists trades account',
     run_paper_once symbol_score sort_values cfg prices store
     = (Ok trades, Some account')).
Proof.
  intros _ Heq Hcomplete. cbv zeta. split; [| split].
  - intros Hdates. unfold run_paper_once, paper_advance, paper_plan.
    now rewrite Hdates.
  - intros Hdates Hpending. unfold run_paper_once, paper_advance, paper_plan.
    destruct (rebalance_dates_of prices) as [| r0 rs]; [congruence |].
    now rewrite Hpending.
  - intros Hpending.
    destruct (paper_plan_total cfg prices store Heq Hcomplete Hpending) as (plan & Hplan).
    destruct (execute_runs (cost_model cfg) (defensive_etf cfg) plan) as (a & Ha & _).
    cbv zeta in Ha.
    unfold run_paper_once, paper_advance. rewrite Hplan. cbn [bind]. rewrite Ha. eauto.
Qed.

End DriverOutcomes.

Lemma driver_outcomes_witness :
  exists trades account',
    run_example small_account_cfg flat_prices None = (Ok trades, Some account').
Proof.
  assert (Hsort : forall (d : Dict.t score) (s : string),
             In s (Dict.keys (kept_order d)) -> In s (Dict.keys d))
    by (intros d s H; exact H).
  assert (Hdates : StronglySorted Z.lt (index flat_prices))
    by (simpl; repeat constructor; lia).
  assert (Heq : equity_etfs small_account_cfg <> []) by discriminate.
  assert (Hcomplete : complete_table
                        (fromkeys (equity_etfs small_account_cfg
                                   ++ [defensive_etf small_account_cfg]))
                        flat_prices)
    by (repeat constructor).
  apply (proj2 (proj2 (driver_outcomes short_history_score kept_order Hsort
                         small_account_cfg flat_prices None Hdates Heq Hcomplete))).
  vm_compute. discriminate.
Defined.

(** ** One rebalance date per run *)

Lemma mask_sorted {A} (R : A -> A -> Prop) (l : list A) :
  StronglySorted R l -> forall flag, StronglySorted R (mask l flag).
Proof.
  induction 1 as [| x l Hl IH Hall]; intros flag; simpl; [constructor |].
  destruct flag as [| b flag]; [constructor |].
  destruct b; [| apply IH]. constructor; [apply IH |].
  rewrite Forall_forall in *. intros y Hy. apply Hall. eapply mask_subset; eauto.
Qed.

Lemma filter_after_head (d : date) (rest : list date) :
  StronglySorted Z.lt (d :: rest) ->
  filter (fun x => (d <? x)%Z) (d :: rest) = rest /\ Forall (fun x => (d < x)%Z) rest.
Proof.
  intros Hs. apply StronglySorted_inv in Hs. destruct Hs as (_ & Hall).
  split; trivial. simpl. rewrite Z.ltb_irrefl.
  induction Hall as [| x l Hx _ IH]; simpl; [reflexivity |].
  apply Z.ltb_lt in Hx. now rewrite Hx, IH.
Qed.

Lemma filter_filter_narrower {A} (f g : A -> bool) (l : list A) :
  (forall x, f x = true -> g x = true) -> filter f (filter g l) = filter f l.
Proof.
  intros Himp. induction l as [| x l IH]; simpl; [reflexivity |].
  destruct (g x) eqn:Eg; simpl.
  - now rewrite IH.
  - destruct (f x) eqn:Ef; trivial. rewrite (Himp x Ef) in Eg. discriminate.
Qed.

Lemma candidates_after (a a' : PaperAccount) (dates : list date) (d : date)
    (rest : list date) :
  StronglySorted Z.lt dates ->
  candidates a dates = d :: rest ->
  as_of a' = Some d ->
  candidates a' dates = rest /\ Forall (fun x => (d < x)%Z) rest.
Proof.
  intros Hs Hcand Hasof. unfold candidates in *. rewrite Hasof.
  destruct (as_of a) as [last |].
  - assert (Hlast : (last < d)%Z).
    { assert (Hin : In d (filter (fun x => (last <? x)%Z) dates))
        by (rewrite Hcand; simpl; auto).
      apply filter_In in Hin. now apply Z.ltb_lt. }
    rewrite <- (filter_filter_narrower (fun x => (d <? x)%Z) (fun x => (last <? x)%Z)).
    + rewrite Hcand. apply filter_after_head. rewrite <- Hcand. now apply sorted_filter.
    + intros x Hx. apply Z.ltb_lt in Hx. apply Z.ltb_lt. lia.
  - subst dates. now apply filter_after_head.
Qed.

Section DriverProgress.

Variable symbol_score : PriceTable -> Z -> Z -> Q -> string -> score.
Variable sort_values : Dict.t score -> Dict.t score.

(** X12.  A run that saves an account has traded on the first pending
    rebalance date and set [as_of] to it, a date strictly after the
    [as_of] it started from.  On a table of increasing dates the dates
    pending for the saved account are the other dates that were pending,
    all later than the new [as_of]: a date is never traded twice and each
    run uses up exactly one. *)
Theorem run_consumes_first_pending_date (cfg : PaperConfig) (prices : PriceTable)
    (store : option PaperAccount) (trades : list TradeRow) (account' : PaperAccount) :
  run_paper_once symbol_score sort_values cfg prices store = (Ok trades, Some account') ->
  exists d rest,
    candidates (load_or_new cfg store) (rebalance_dates_of prices) = d :: rest /\
    as_of account' = Some d /\
    (forall last, as_of (load_or_new cfg store) = Some last -> (last < d)%Z) /\
    (StronglySorted Z.lt (index prices) ->
     candidates account' (rebalance_dates_of prices) = rest /\
     Forall (fun x => (d < x)%Z) rest).
Proof.
  intros H.
  apply run_once_saved in H. destruct H as (a0 & Ha0 & H).
  assert (a0 = account') by congruence. subst a0. clear Ha0.
  apply advance_inv in H. destruct H as (plan & Hplan & Hexec).
  apply paper_plan_inv in Hplan. cbv zeta in Hplan.
  destruct Hplan as (_ & (rest & Hcand) & _).
  destruct (execute_runs (cost_model cfg) (defensive_etf cfg) plan)
    as (a & Ha & Hasof & _).
  rewrite Ha in Hexec. assert (a = account') by congruence. subst a.
  exists (p_trade_dt plan), rest.
  split; [exact Hcand | split; [exact Hasof | split]].
  - intros last Hlast.
    assert (Hin : In (p_trade_dt plan)
                     (candidates (load_or_new cfg store) (rebalance_dates_of prices)))
      by (rewrite Hcand; simpl; auto).
    unfold candidates in Hin. rewrite Hlast in Hin.
    apply filter_In in Hin. now apply Z.ltb_lt.
  - intros Hs. apply (candidates_after (load_or_new cfg store)); trivial.
    unfold rebalance_dates_of. now apply mask_sorted.
Qed.

End DriverProgress.

Lemma run_consumes_first_pending_date_witness :
  exists d rest,
    candidates (new_account 10) (rebalance_dates_of flat_prices) = d :: rest /\
    as_of (fst first_run_outcome) = Some d.
Proof.
  assert (H : run_example small_account_cfg flat_prices None
              = (Ok (snd first_run_outcome), Some (fst first_run_outcome)))
    by (vm_compute; reflexivity).
  destruct (run_consumes_first_pending_date short_history_score kept_order
              small_account_cfg flat_prices None _ _ H)
    as (d & rest & Hcand & Hasof & _).
  exists d, rest. split; assumption.
Defined.

(** ** Cash and the trade rows *)

Lemma net_cash_app (l : list TradeRow) (r : TradeRow) :
  net_cash (l ++ [r]) == net_cash l + cash_flow r.
Proof.
  induction l as [| x l IH]; simpl; [ring |]. rewrite IH. ring.
Qed.

Lemma total_cost_app (l : list TradeRow) (r : TradeRow) :
  total_cost (l ++ [r]) == total_cost l + tr_cost r.
Proof.
  induction l as [| x l IH]; simpl; [ring |]. rewrite IH. ring.
Qed.

Lemma sell_step_cash (cm : CostModel) (px_trade : Dict.t Q) (pre_positions : Dict.t Z)
    (st : ExecState) (item : string * Z) (c0 : Q) :
  ex_cash st == c0 + net_cash (ex_trades st) ->
  ex_cash (sell_step cm px_trade pre_positions st item)
  == c0 + net_cash (ex_trades (sell_step cm px_trade pre_positions st item)).
Proof.
  intros H. unfold sell_step.
  destruct (0 <=? _)%Z; trivial.
  destruct (Dict.get px_trade (fst item)) as [px |]; trivial.
  destruct (Qle_bool px 0); trivial.
  cbn [ex_cash ex_trades]. rewrite net_cash_app, H.
  unfold cash_flow. cbn [tr_delta tr_px tr_cost].
  rewrite inject_Z_opp. ring.
Qed.

Lemma buy_one_cash_flow (cm : CostModel) (px_trade : Dict.t Q) (pre_positions : Dict.t Z)
    (st : ExecState) (s : string) (tgt : Z) (c0 : Q) :
  ex_cash st == c0 + net_cash (ex_trades st) ->
  ex_cash (buy_one cm px_trade pre_positions st s tgt)
  == c0 + net_cash (ex_trades (buy_one cm px_trade pre_positions st s tgt)).
Proof.
  intros H. unfold buy_one.
  destruct (_ <=? 0)%Z; trivial.
  destruct (Dict.get px_trade s) as [px |]; trivial.
  destruct (Qle_bool px 0); trivial.
  destruct (buy_loop cm s px (ex_cash st) _) as [buy |];
    cbn [ex_cash ex_trades]; rewrite net_cash_app, H;
    unfold cash_flow; cbn [tr_delta tr_px tr_cost]; ring.
Qed.

Lemma trade_loops_cash (cm : CostModel) (defensive : string) (px_trade : Dict.t Q)
    (pre_positions target_shares : Dict.t Z) (c0 : Q) (pos : Dict.t Z) :
  let st1 := sell_phase cm px_trade pre_positions target_shares (mkExecState c0 pos []) in
  let st2 := fold_left (buy_listed cm px_trade pre_positions target_shares)
                       (buy_syms defensive target_shares) st1 in
  ex_cash st2 == c0 + net_cash (ex_trades st2).
Proof.
  cbv zeta.
  apply (fold_left_invariant (fun st => ex_cash st == c0 + net_cash (ex_trades st))).
  - unfold sell_phase.
    apply (fold_left_invariant (fun st => ex_cash st == c0 + net_cash (ex_trades st))).
    + simpl. ring.
    + intros st item _ H. now apply sell_step_cash.
  - intros st s _ H. unfold buy_listed. now apply buy_one_cash_flow.
Qed.

Section DriverCash.

Variable symbol_score : PriceTable -> Z -> Z -> Q -> string -> score.
Variable sort_values : Dict.t score -> Dict.t score.

(** X13.  The cash of the saved account is the cash the run started from
    plus what its trade rows say: for each row, minus the share delta at the
    row's price, minus the row's cost.  A HOLD row moves nothing. *)
Theorem saved_cash_matches_trade_rows (cfg : PaperConfig) (prices : PriceTable)
    (store : option PaperAccount) (trades : list TradeRow) (account' : PaperAccount) :
  run_paper_once symbol_score sort_values cfg prices store = (Ok trades, Some account') ->
  cash account' == cash (load_or_new cfg store) + net_cash trades.
Proof.
  intros H.
  apply run_once_saved in H. destruct H as (a0 & Ha0 & H).
  assert (a0 = account') by congruence. subst a0. clear Ha0.
  apply advance_inv in H. destruct H as (plan & Hplan & Hexec).
  apply paper_plan_inv in Hplan. cbv zeta in Hplan.
  destruct Hplan as (_ & _ & _ & Hcash & _).
  destruct (execute_runs (cost_model cfg) (defensive_etf cfg) plan)
    as (a & Ha & _ & Hc & _).
  rewrite Ha in Hexec.
  assert (a = account') by congruence. subst a.
  assert (Htr : trades = ex_trades
     (fold_left
        (buy_listed (cost_model cfg) (p_px_trade plan) (p_pre_positions plan)
           (p_target_shares plan))
        (buy_syms (defensive_etf cfg) (p_target_shares plan))
        (sell_phase (cost_model cfg) (p_px_trade plan) (p_pre_positions plan)
           (p_target_shares plan)
           (mkExecState (p_pre_cash plan) (positions (p_account plan)) []))))
    by congruence.
  rewrite Hc, Htr, <- Hcash. apply trade_loops_cash.
Qed.

End DriverCash.

Lemma saved_cash_matches_trade_rows_witness :
  cash (fst first_run_outcome) == 10 + net_cash (snd first_run_outcome).
Proof.
  apply (saved_cash_matches_trade_rows short_history_score kept_order
           small_account_cfg flat_prices None).
  vm_compute. reflexivity.
Defined.

(** ** Positions through the trade loops *)

Lemma dict_get_set {V} (d : Dict.t V) (k s : string) (v : V) :
  Dict.get (Dict.set d k v) s = if String.eqb s k then Some v else Dict.get d s.
Proof.
  induction d as [| [k' v'] r IH]; simpl; [reflexivity |].
  destruct (String.eqb k k') eqn:E; simpl.
  - apply String.eqb_eq in E. subst k'. now destruct (String.eqb s k).
  - rewrite IH. destruct (String.eqb s k) eqn:E1; trivial.
    apply String.eqb_eq in E1. subst s. now rewrite E.
Qed.

Lemma held_set (d : Dict.t Z) (k s : string) (v : Z) :
  held (Dict.set d k v) s = if String.eqb s k then v else held d s.
Proof.
  unfold held, Dict.get_or. rewrite dict_get_set. now destruct (String.eqb s k).
Qed.

Lemma dict_get_absent {V} (d : Dict.t V) (k : string) :
  ~ In k (Dict.keys d) -> Dict.get d k = None.
Proof.
  induction d as [| [k' v'] r IH]; simpl; [reflexivity |]. intros Hnot.
  destruct (String.eqb k k') eqn:E.
  - apply String.eqb_eq in E. subst. tauto.
  - apply IH. tauto.
Qed.

Lemma dict_get_unique {V} (d : Dict.t V) (k : string) (v : V) :
  NoDup (Dict.keys d) -> In (k, v) d -> Dict.get d k = Some v.
Proof.
  induction d as [| [k' v'] r IH]; simpl; [contradiction |].
  intros Hnd [E | Hin].
  - inversion E; subst. now rewrite String.eqb_refl.
  - inversion Hnd as [| ? ? Hk Hr]; subst.
    destruct (String.eqb k k') eqn:E; [| auto].
    apply String.eqb_eq in E. subst k'.
    exfalso. apply Hk. change k with (fst (k, v)). now apply in_map.
Qed.

Lemma held_drop_zero (d : Dict.t Z) (s : string) :
  NoDup (Dict.keys d) -> held (drop_zero d) s = held d s.
Proof.
  unfold held, Dict.get_or.
  induction d as [| [k v] r IH]; simpl; [reflexivity |].
  intros Hnd. inversion Hnd as [| ? ? Hk Hr]; subst.
  destruct (v =? 0)%Z eqn:Ev; simpl.
  - destruct (String.eqb s k) eqn:E; [| auto].
    apply String.eqb_eq in E. subst s. apply Z.eqb_eq in Ev. subst v.
    rewrite (IH Hr), (dict_get_absent r k Hk). reflexivity.
  - destruct (String.eqb s k); auto.
Qed.

Lemma cur_is_held (pre_positions : Dict.t Z) (st : ExecState) (s : string) :
  keeps_keys pre_positions st ->
  Dict.get_or (ex_positions st) s (Dict.get_or pre_positions s 0%Z)
  = held (ex_positions st) s.
Proof.
  intros H. specialize (H s). unfold held, Dict.get_or, Dict.mem in *.
  destruct (Dict.get (ex_positions st) s); trivial.
  destruct (Dict.get pre_positions s); trivial.
  discriminate H. reflexivity.
Qed.

(** A sell step leaves the positions alone or writes the target over a
    larger position. *)
Lemma sell_step_positions (cm : CostModel) (px_trade : Dict.t Q) (pre_positions : Dict.t Z)
    (st : ExecState) (item : string * Z) :
  keeps_keys pre_positions st ->
  let st' := sell_step cm px_trade pre_positions st item in
  ex_positions st' = ex_positions st \/
  (ex_positions st' = Dict.set (ex_positions st) (fst item) (snd item) /\
   (snd item < held (ex_positions st) (fst item))%Z).
Proof.
  intros Hkeys. cbv zeta. unfold sell_step. rewrite (cur_is_held _ _ _ Hkeys).
  destruct (0 <=? _)%Z eqn:Ed; [now left |].
  destruct (Dict.get px_trade (fst item)) as [px |]; [| now left].
  destruct (Qle_bool px 0); [now left |].
  right. cbn [ex_positions]. apply Z.leb_gt in Ed. split; [| lia].
  f_equal. lia.
Qed.

(** With a positive price the step leaves at most the target. *)
Lemma sell_step_reaches (cm : CostModel) (px_trade : Dict.t Q) (pre_positions : Dict.t Z)
    (st : ExecState) (item : string * Z) (px : Q) :
  keeps_keys pre_positions st ->
  Dict.get px_trade (fst item) = Some px -> 0 < px ->
  (held (ex_positions (sell_step cm px_trade pre_positions st item)) (fst item)
   <= snd item)%Z.
Proof.
  intros Hkeys Hpx Hpos. unfold sell_step. rewrite (cur_is_held _ _ _ Hkeys), Hpx.
  destruct (0 <=? _)%Z eqn:Ed; [apply Z.leb_le in Ed; lia |].
  destruct (Qle_bool px 0) eqn:E; [apply Qle_bool_iff in E; lra |].
  cbn [ex_positions]. rewrite held_set, String.eqb_refl. lia.
Qed.

(** A buy leaves the positions alone or adds at least one share and at
    most the shares missing to the target. *)
Lemma buy_one_positions (cm : CostModel) (px_trade : Dict.t Q) (pre_positions : Dict.t Z)
    (st : ExecState) (s : string) (tgt : Z) :
  keeps_keys pre_positions st ->
  let st' := buy_one cm px_trade pre_positions st s tgt in
  ex_positions st' = ex_positions st \/
  exists b, ex_positions st' = Dict.set (ex_positions st) s (held (ex_positions st) s + b)%Z
            /\ (1 <= b <= tgt - held (ex_positions st) s)%Z.
Proof.
  intros Hkeys. cbv zeta. unfold buy_one. rewrite (cur_is_held _ _ _ Hkeys).
  destruct (_ <=? 0)%Z eqn:Ed; [now left |].
  destruct (Dict.get px_trade s) as [px |]; [| now left].
  destruct (Qle_bool px 0); [now left |].
  destruct (buy_loop cm s px (ex_cash st) _) as [buy |] eqn:Eb; [| now left].
  right. exists buy. cbn [ex_positions]. split; trivial.
  apply buy_loop_Some in Eb. apply Z.leb_gt in Ed. lia.
Qed.

Lemma set_keeps_keys (pre_positions pos : Dict.t Z) (k : string) (v : Z) :
  (forall s, Dict.mem pre_positions s = true -> Dict.mem pos s = true) ->
  forall s, Dict.mem pre_positions s = true -> Dict.mem (Dict.set pos k v) s = true.
Proof.
  intros H s Hs. rewrite dict_mem_set, (H s Hs). apply orb_true_r.
Qed.

Lemma sell_step_keys (cm : CostModel) (px_trade : Dict.t Q) (pre_positions : Dict.t Z)
    (st : ExecState) (item : string * Z) :
  keeps_keys pre_positions st ->
  keeps_keys pre_positions (sell_step cm px_trade pre_positions st item).
Proof.
  intros Hkeys. unfold keeps_keys.
  destruct (sell_step_positions cm px_trade pre_positions st item Hkeys) as [-> | (-> & _)];
    [exact Hkeys | now apply set_keeps_keys].
Qed.

Lemma buy_one_keys (cm : CostModel) (px_trade : Dict.t Q) (pre_positions : Dict.t Z)
    (st : ExecState) (s : string) (tgt : Z) :
  keeps_keys pre_positions st ->
  keeps_keys pre_positions (buy_one cm px_trade pre_positions st s tgt).
Proof.
  intros Hkeys. unfold keeps_keys.
  destruct (buy_one_positions cm px_trade pre_positions st s tgt Hkeys)
    as [-> | (b & -> & _)];
    [exact Hkeys | now apply set_keeps_keys].
Qed.

Lemma sell_step_NoDup (cm : CostModel) (px_trade : Dict.t Q) (pre_positions : Dict.t Z)
    (st : ExecState) (item : string * Z) :
  keeps_keys pre_positions st ->
  NoDup (Dict.keys (ex_positions st)) ->
  NoDup (Dict.keys (ex_positions (sell_step cm px_trade pre_positions st item))).
Proof.
  intros Hkeys Hnd.
  destruct (sell_step_positions cm px_trade pre_positions st item Hkeys) as [-> | (-> & _)];
    [exact Hnd | now apply dict_set_NoDup].
Qed.

Lemma buy_one_NoDup (cm : CostModel) (px_trade : Dict.t Q) (pre_positions : Dict.t Z)
    (st : ExecState) (s : string) (tgt : Z) :
  keeps_keys pre_positions st ->
  NoDup (Dict.keys (ex_positions st)) ->
  NoDup (Dict.keys (ex_positions (buy_one cm px_trade pre_positions st s tgt))).
Proof.
  intros Hkeys Hnd.
  destruct (buy_one_positions cm px_trade pre_positions st s tgt Hkeys)
    as [-> | (b & -> & _)];
    [exact Hnd | now apply dict_set_NoDup].
Qed.

(** The target the loops use for a listed symbol is the one the dict
    gives. *)
Lemma listed_target (target_shares : Dict.t Z) (item : string * Z) (default : Z) :
  NoDup (Dict.keys target_shares) -> In item target_shares ->
  Dict.get_or target_shares (fst item) default = snd item.
Proof.
  intros Hnd Hin. unfold Dict.get_or. destruct item as [k t]. simpl.
  now rewrite (dict_get_unique _ _ _ Hnd Hin).
Qed.

Lemma key_target (target_shares : Dict.t Z) (k : string) (d1 d2 : Z) :
  In k (Dict.keys target_shares) ->
  Dict.get_or target_shares k d1 = Dict.get_or target_shares k d2.
Proof.
  intros Hin. unfold Dict.get_or.
  destruct (dict_get_In _ _ Hin) as (v & ->). reflexivity.
Qed.

Lemma sell_step_between (cm : CostModel) (px_trade : Dict.t Q)
    (pre_positions target_shares : Dict.t Z) (st : ExecState) (item : string * Z)
    (s : string) :
  NoDup (Dict.keys target_shares) -> In item target_shares ->
  keeps_keys pre_positions st ->
  between_held_and_target pre_positions target_shares s (ex_positions st) ->
  between_held_and_target pre_positions target_shares s
    (ex_positions (sell_step cm px_trade pre_positions st item)).
Proof.
  intros Hnd Hin Hkeys Hb. unfold between_held_and_target in *. cbv zeta in *.
  destruct (sell_step_positions cm px_trade pre_positions st item Hkeys)
    as [-> | (-> & Hlt)]; trivial.
  rewrite held_set. destruct (String.eqb s (fst item)) eqn:E; trivial.
  apply String.eqb_eq in E. subst s.
  rewrite (listed_target _ _ _ Hnd Hin). lia.
Qed.

Lemma buy_listed_between (cm : CostModel) (px_trade : Dict.t Q)
    (pre_positions target_shares : Dict.t Z) (st : ExecState) (k s : string) :
  In k (Dict.keys target_shares) ->
  keeps_keys pre_positions st ->
  between_held_and_target pre_positions target_shares s (ex_positions st) ->
  between_held_and_target pre_positions target_shares s
    (ex_positions (buy_listed cm px_trade pre_positions target_shares st k)).
Proof.
  intros Hin Hkeys Hb. unfold between_held_and_target, buy_listed in *. cbv zeta in *.
  destruct (buy_one_positions cm px_trade pre_positions st k
              (Dict.get_or target_shares k 0%Z) Hkeys)
    as [-> | (b & -> & Hb1)]; trivial.
  rewrite held_set. destruct (String.eqb s k) eqn:E; trivial.
  apply String.eqb_eq in E. subst s.
  rewrite (key_target _ _ (held pre_positions k) 0%Z Hin) in *. lia.
Qed.

Lemma buy_listed_below (cm : CostModel) (px_trade : Dict.t Q)
    (pre_positions target_shares : Dict.t Z) (st : ExecState) (k s : string) (tgt : Z) :
  Dict.get target_shares s = Some tgt ->
  keeps_keys pre_positions st ->
  (held (ex_positions st) s <= tgt)%Z ->
  (held (ex_positions (buy_listed cm px_trade pre_positions target_shares st k)) s
   <= tgt)%Z.
Proof.
  intros Hts Hkeys Hb. unfold buy_listed.
  destruct (buy_one_positions cm px_trade pre_positions st k
              (Dict.get_or target_shares k 0%Z) Hkeys)
    as [-> | (b & -> & Hb1)]; trivial.
  rewrite held_set. destruct (String.eqb s k) eqn:E; trivial.
  apply String.eqb_eq in E. subst k.
  unfold Dict.get_or in Hb1. rewrite Hts in Hb1. lia.
Qed.

(** The sell loop brings a priced symbol of the targets down to its
    target. *)
Lemma sell_fold_reaches (cm : CostModel) (px_trade : Dict.t Q)
    (pre_positions target_shares : Dict.t Z) (s : string) (tgt : Z) (px : Q) :
  NoDup (Dict.keys target_shares) ->
  Dict.get px_trade s = Some px -> 0 < px ->
  forall l st,
    (forall item, In item l -> In item target_shares) ->
    keeps_keys pre_positions st ->
    (held (ex_positions st) s <= tgt)%Z \/ In (s, tgt) l ->
    (held (ex_positions (fold_left (sell_step cm px_trade pre_positions) l st)) s
     <= tgt)%Z.
Proof.
  intros Hnd Hpx Hpos. induction l as [| item l IH]; intros st Hsub Hkeys H; simpl.
  - destruct H as [H | []]. exact H.
  - apply IH.
    + intros i Hi. apply Hsub. now right.
    + now apply sell_step_keys.
    + destruct H as [H | [E | Hin]].
      * left.
        destruct (sell_step_positions cm px_trade pre_positions st item Hkeys)
          as [-> | (-> & Hlt)]; trivial.
        rewrite held_set. destruct (String.eqb s (fst item)) eqn:E; trivial.
        apply String.eqb_eq in E. subst s.
        assert (Hitem : In item target_shares) by (apply Hsub; now left).
        pose proof (listed_target _ _ 0%Z Hnd Hitem) as Ht.
        lia.
      * left. subst item.
        apply (sell_step_reaches cm px_trade pre_positions st (s, tgt) px);
          trivial.
      * now right.
Qed.

Lemma trade_loops_positions (cm : CostModel) (defensive : string) (px_trade : Dict.t Q)
    (pre_positions target_shares : Dict.t Z) (c0 : Q) (s : string) :
  NoDup (Dict.keys pre_positions) -> NoDup (Dict.keys target_shares) ->
  let st1 := sell_phase cm px_trade pre_positions target_shares
                        (mkExecState c0 pre_positions []) in
  let st2 := fold_left (buy_listed cm px_trade pre_positions target_shares)
                       (buy_syms defensive target_shares) st1 in
  NoDup (Dict.keys (ex_positions st2)) /\
  between_held_and_target pre_positions target_shares s (ex_positions st2) /\
  (forall tgt px,
      Dict.get target_shares s = Some tgt -> Dict.get px_trade s = Some px -> 0 < px ->
      (held (ex_positions st2) s <= tgt)%Z).
Proof.
  intros Hpre Hts. cbv zeta.
  set (st0 := mkExecState c0 pre_positions []).
  assert (Hkeys0 : keeps_keys pre_positions st0) by (intros k Hk; exact Hk).
  assert (Hsell :
    NoDup (Dict.keys (ex_positions
                        (sell_phase cm px_trade pre_positions target_shares st0))) /\
    keeps_keys pre_positions (sell_phase cm px_trade pre_positions target_shares st0) /\
    between_held_and_target pre_positions target_shares s
      (ex_positions (sell_phase cm px_trade pre_positions target_shares st0))).
  { unfold sell_phase.
    apply (fold_left_invariant
             (fun st => NoDup (Dict.keys (ex_positions st)) /\
                        keeps_keys pre_positions st /\
                        between_held_and_target pre_positions target_shares s
                          (ex_positions st))).
    - split; [exact Hpre | split; [exact Hkeys0 |]].
      unfold between_held_and_target. simpl. lia.
    - intros st item Hin (Hnd & Hkeys & Hb).
      split; [now apply sell_step_NoDup | split; [now apply sell_step_keys |]].
      now apply sell_step_between. }
  destruct Hsell as (Hnd1 & Hkeys1 & Hb1).
  assert (Hbuy :
    let st2 := fold_left (buy_listed cm px_trade pre_positions target_shares)
                 (buy_syms defensive target_shares)
                 (sell_phase cm px_trade pre_positions target_shares st0) in
    NoDup (Dict.keys (ex_positions st2)) /\ keeps_keys pre_positions st2 /\
    between_held_and_target pre_positions target_shares s (ex_positions st2)).
  { cbv zeta.
    apply (fold_left_invariant
             (fun st => NoDup (Dict.keys (ex_positions st)) /\
                        keeps_keys pre_positions st /\
                        between_held_and_target pre_positions target_shares s
                          (ex_positions st))); [auto |].
    intros st k Hin (Hnd & Hkeys & Hb). unfold buy_listed at 1 2.
    split; [now apply buy_one_NoDup | split; [now apply buy_one_keys |]].
    apply buy_listed_between; trivial. now apply buy_syms_listed in Hin. }
  cbv zeta in Hbuy. destruct Hbuy as (Hnd2 & _ & Hb2).
  split; [exact Hnd2 | split; [exact Hb2 |]].
  intros tgt px Ht Hpx Hpos.
  assert (Hreach : (held (ex_positions
                            (sell_phase cm px_trade pre_positions target_shares st0)) s
                    <= tgt)%Z).
  { unfold sell_phase.
    apply (sell_fold_reaches cm px_trade pre_positions target_shares s tgt px);
      trivial.
    right. now apply dict_get_Some_In. }
  apply (fold_left_invariant
           (fun st => keeps_keys pre_positions st /\
                      (held (ex_positions st) s <= tgt)%Z)); [auto |].
  intros st k _ (Hkeys & Hle). split.
  - unfold buy_listed. now apply buy_one_keys.
  - now apply buy_listed_below.
Qed.

Section DriverPositions.

Variable symbol_score : PriceTable -> Z -> Z -> Q -> string -> score.
Variable sort_values : Dict.t score -> Dict.t score.

(** X14.  What a run saves of a symbol lies between the shares held before
    it and the share target of its plan: a sale writes the target, a buy
    adds no more than the shares missing to it.  A symbol of the targets
    with a positive price on the trade date ends at or below its target,
    so a position above its target is sold down to exactly the target,
    while a buy may fall short of it. *)
Theorem saved_positions_between_held_and_target (cfg : PaperConfig)
    (prices : PriceTable) (store : option PaperAccount) (trades : list TradeRow)
    (account' : PaperAccount) :
  run_paper_once symbol_score sort_values cfg prices store = (Ok trades, Some account') ->
  NoDup (Dict.keys (positions (load_or_new cfg store))) ->
  exists plan,
    paper_plan symbol_score sort_values cfg prices store = Ok plan /\
    forall s,
      between_held_and_target (positions (load_or_new cfg store))
                              (p_target_shares plan) s (positions account') /\
      (forall tgt px,
          Dict.get (p_target_shares plan) s = Some tgt ->
          Dict.get (p_px_trade plan) s = Some px -> 0 < px ->
          (held (positions account') s <= tgt)%Z).
Proof.
  intros H Hnd.
  apply run_once_saved in H. destruct H as (a0 & Ha0 & H).
  assert (a0 = account') by congruence. subst a0. clear Ha0.
  apply advance_inv in H. destruct H as (plan & Hplan & Hexec).
  exists plan. split; [exact Hplan |].
  apply paper_plan_inv in Hplan. cbv zeta in Hplan.
  destruct Hplan as (_ & _ & Hpos & _ & Hpos' & _ & _ & _ & _ & _ & Hts).
  apply target_shares_NoDup in Hts.
  destruct (execute_runs (cost_model cfg) (defensive_etf cfg) plan)
    as (a & Ha & _ & _ & Hp & _).
  rewrite Ha in Hexec.
  assert (a = account') by congruence. subst a.
  intros s. rewrite Hp, Hpos', <- Hpos.
  rewrite <- Hpos in Hnd.
  destruct (trade_loops_positions (cost_model cfg) (defensive_etf cfg) (p_px_trade plan)
              (p_pre_positions plan) (p_target_shares plan) (p_pre_cash plan) s Hnd Hts)
    as (Hnd2 & Hb & Hle).
  split.
  - unfold between_held_and_target in *. cbv zeta in *.
    rewrite (held_drop_zero _ _ Hnd2). exact Hb.
  - intros tgt px Ht Hpx Hpos0. rewrite (held_drop_zero _ _ Hnd2). eauto.
Qed.

End DriverPositions.

Lemma saved_positions_between_held_and_target_witness :
  exists plan,
    paper_plan short_history_score kept_order small_account_cfg flat_prices None
    = Ok plan /\
    forall s,
      between_held_and_target [] (p_target_shares plan) s
                              (positions (fst first_run_outcome)).
Proof.
  assert (H : run_example small_account_cfg flat_prices None
              = (Ok (snd first_run_outcome), Some (fst first_run_outcome)))
    by (vm_compute; reflexivity).
  assert (Hnd : NoDup (Dict.keys (positions (load_or_new small_account_cfg None))))
    by (simpl; constructor).
  destruct (saved_positions_between_held_and_target short_history_score kept_order
              small_account_cfg flat_prices None _ _ H Hnd)
    as (plan & Hplan & Hall).
  exists plan. split; [exact Hplan |]. intros s. apply (Hall s).
Defined.

(** ** The value of the account through the trade loops *)

(** Writing one position changes the holdings by the change of that
    position at its price. *)
Lemma holdings_value_set (d : Dict.t Z) (row : Dict.t Q) (k : string) (v : Z) :
  holdings_value (Dict.set d k v) row
  == holdings_value d row + priced row (k, v) - priced row (k, held d k).
Proof.
  unfold held, Dict.get_or.
  induction d as [| [k' v'] r IH]; simpl.
  - unfold priced. simpl. destruct (Dict.get row k); ring.
  - destruct (String.eqb k k') eqn:E; simpl.
    + apply String.eqb_eq in E. subst k'. unfold priced. simpl.
      destruct (Dict.get row k); ring.
    + rewrite IH. ring.
Qed.

Lemma holdings_value_drop_zero (d : Dict.t Z) (row : Dict.t Q) :
  holdings_value (drop_zero d) row == holdings_value d row.
Proof.
  induction d as [| [k v] r IH]; simpl; [reflexivity |].
  destruct (v =? 0)%Z eqn:E; simpl.
  - apply Z.eqb_eq in E. subst v. rewrite IH. unfold priced. simpl.
    destruct (Dict.get row k); ring.
  - rewrite IH. reflexivity.
Qed.

Lemma sell_step_balance (cm : CostModel) (px_trade : Dict.t Q) (pre_positions : Dict.t Z)
    (st : ExecState) (item : string * Z) (v0 : Q) :
  keeps_keys pre_positions st ->
  value_balanced px_trade v0 st ->
  value_balanced px_trade v0 (sell_step cm px_trade pre_positions st item).
Proof.
  unfold value_balanced. intros Hkeys Hval. unfold sell_step.
  rewrite (cur_is_held _ _ _ Hkeys).
  destruct (0 <=? _)%Z; trivial.
  destruct (Dict.get px_trade (fst item)) as [px |] eqn:Epx; trivial.
  destruct (Qle_bool px 0); trivial.
  cbn [ex_cash ex_positions ex_trades].
  rewrite holdings_value_set, total_cost_app. cbn [tr_cost].
  unfold priced. cbn [fst snd]. rewrite Epx.
  unfold Z.sub. rewrite !inject_Z_plus, !inject_Z_opp, !inject_Z_plus, !inject_Z_opp.
  lra.
Qed.

Lemma buy_one_balance (cm : CostModel) (px_trade : Dict.t Q) (pre_positions : Dict.t Z)
    (st : ExecState) (s : string) (tgt : Z) (v0 : Q) :
  keeps_keys pre_positions st ->
  value_balanced px_trade v0 st ->
  value_balanced px_trade v0 (buy_one cm px_trade pre_positions st s tgt).
Proof.
  unfold value_balanced. intros Hkeys Hval. unfold buy_one.
  rewrite (cur_is_held _ _ _ Hkeys).
  destruct (_ <=? 0)%Z; trivial.
  destruct (Dict.get px_trade s) as [px |] eqn:Epx; trivial.
  destruct (Qle_bool px 0); trivial.
  destruct (buy_loop cm s px (ex_cash st) _) as [buy |];
    cbn [ex_cash ex_positions ex_trades].
  - rewrite holdings_value_set, total_cost_app. cbn [tr_cost].
    unfold priced. cbn [fst snd]. rewrite Epx.
    rewrite !inject_Z_plus. lra.
  - rewrite total_cost_app. cbn [tr_cost]. lra.
Qed.

Lemma trade_loops_balance (cm : CostModel) (defensive : string) (px_trade : Dict.t Q)
    (pre_positions target_shares : Dict.t Z) (c0 : Q) :
  let st1 := sell_phase cm px_trade pre_positions target_shares
                        (mkExecState c0 pre_positions []) in
  let st2 := fold_left (buy_listed cm px_trade pre_positions target_shares)
                       (buy_syms defensive target_shares) st1 in
  value_balanced px_trade (value_of c0 pre_positions px_trade) st2.
Proof.
  cbv zeta.
  apply (fold_left_invariant
           (fun st => keeps_keys pre_positions st /\
                      value_balanced px_trade (value_of c0 pre_positions px_trade) st)).
  - unfold sell_phase.
    apply (fold_left_invariant
             (fun st => keeps_keys pre_positions st /\
                        value_balanced px_trade (value_of c0 pre_positions px_trade) st)).
    + split; [intros k Hk; exact Hk |].
      unfold value_balanced. cbn [ex_cash ex_positions ex_trades].
      rewrite value_of_sum. simpl. ring.
    + intros st item _ (Hkeys & H).
      split; [now apply sell_step_keys | now apply sell_step_balance].
  - intros st s _ (Hkeys & H). unfold buy_listed.
    split; [now apply buy_one_keys | now apply buy_one_balance].
Qed.

Lemma execute_history (cm : CostModel) (defensive : string) (plan : Plan)
    (account' : PaperAccount) (trades : list TradeRow) :
  execute cm defensive plan = Ok (account', trades) ->
  history account'
  = history (p_account plan)
    ++ [(p_trade_dt plan, _account_value account' (p_px_trade plan))].
Proof.
  unfold execute. intros H. apply bind_Ok in H. destruct H as (st2 & _ & H).
  inversion H; subst. reflexivity.
Qed.

Section DriverValue.

Variable symbol_score : PriceTable -> Z -> Z -> Q -> string -> score.
Variable sort_values : Dict.t score -> Dict.t score.

(** X15.  Trading moves value between cash and positions and loses only
    the costs: at the prices of the trade date, the saved account is worth
    what the account was worth before the run less the costs of the trade
    rows, and that value is the last entry of the saved history. *)
Theorem run_keeps_value_less_costs (cfg : PaperConfig) (prices : PriceTable)
    (store : option PaperAccount) (trades : list TradeRow) (account' : PaperAccount) :
  run_paper_once symbol_score sort_values cfg prices store = (Ok trades, Some account') ->
  exists d px_trade earlier,
    as_of account' = Some d /\
    loc prices d = Ok px_trade /\
    _account_value account' px_trade
    == _account_value (load_or_new cfg store) px_trade - total_cost trades /\
    history account' = earlier ++ [(d, _account_value account' px_trade)].
Proof.
  intros H.
  apply run_once_saved in H. destruct H as (a0 & Ha0 & H).
  assert (a0 = account') by congruence. subst a0. clear Ha0.
  apply advance_inv in H. destruct H as (plan & Hplan & Hexec).
  apply paper_plan_inv in Hplan. cbv zeta in Hplan.
  destruct Hplan as (_ & _ & Hpos & Hcash & Hpos' & _ & Hloc & _).
  pose proof (execute_history _ _ _ _ _ Hexec) as Hhist.
  destruct (execute_runs (cost_model cfg) (defensive_etf cfg) plan)
    as (a & Ha & Hasof & Hc & Hp & _).
  rewrite Ha in Hexec.
  assert (a = account') by congruence. subst a.
  assert (Htr : trades = ex_trades
     (fold_left
        (buy_listed (cost_model cfg) (p_px_trade plan) (p_pre_positions plan)
           (p_target_shares plan))
        (buy_syms (defensive_etf cfg) (p_target_shares plan))
        (sell_phase (cost_model cfg) (p_px_trade plan) (p_pre_positions plan)
           (p_target_shares plan)
           (mkExecState (p_pre_cash plan) (positions (p_account plan)) []))))
    by congruence.
  exists (p_trade_dt plan), (p_px_trade plan), (history (p_account plan)).
  split; [exact Hasof | split; [exact Hloc | split; [| exact Hhist]]].
  unfold _account_value at 1. rewrite Hc, Hp, value_of_sum, holdings_value_drop_zero.
  rewrite Htr. rewrite Hpos', <- Hpos.
  pose proof (trade_loops_balance (cost_model cfg) (defensive_etf cfg) (p_px_trade plan)
                (p_pre_positions plan) (p_target_shares plan) (p_pre_cash plan)) as Hbal.
  cbv zeta in Hbal. unfold value_balanced in Hbal. rewrite Hbal. unfold _account_value. rewrite <- Hcash, <- Hpos. reflexivity.
Qed.

End DriverValue.

Lemma run_keeps_value_less_costs_witness :
  exists d px_trade,
    as_of (fst first_run_outcome) = Some d /\
    loc flat_prices d = Ok px_trade /\
    _account_value (fst first_run_outcome) px_trade
    == 10 - total_cost (snd first_run_outcome).
Proof.
  assert (H : run_example small_account_cfg flat_prices None
              = (Ok (snd first_run_outcome), Some (fst first_run_outcome)))
    by (vm_compute; reflexivity).
  destruct (run_keeps_value_less_costs short_history_score kept_order
              small_account_cfg flat_prices None _ _ H)
    as (d & px & earlier & Hasof & Hloc & Hval & _).
  exists d, px. repeat split; trivial.
Defined.

(** ** The history and the peak *)

Lemma peak_covers_raised (a a' : PaperAccount) :
  history a' = history a -> equity_peak a <= equity_peak a' ->
  peak_covers_history a -> peak_covers_history a'.
Proof.
  unfold peak_covers_history. intros -> Hpk H.
  eapply Forall_impl; [| exact H]. simpl. intros dv Hdv. lra.
Qed.

Lemma peak_covers_appended (a a' : PaperAccount) (d : date) (v : Q) :
  history a' = history a ++ [(d, v)] -> equity_peak a' = pymax (equity_peak a) v ->
  peak_covers_history a -> peak_covers_history a'.
Proof.
  unfold peak_covers_history. intros -> -> H. apply Forall_app. split.
  - eapply Forall_impl; [| exact H]. simpl. intros dv Hdv.
    pose proof (pymax_ge_l (equity_peak a) v). lra.
  - apply Forall_cons; [| apply Forall_nil]. simpl. apply pymax_ge_r.
Qed.

Lemma backfill_fold_history (prices : PriceTable) (existing dates : list date)
    (a0 a' : PaperAccount) :
  fold_left (backfill_step prices existing) dates (Ok a0) = Ok a' ->
  (exists added, history a' = history a0 ++ added) /\
  (peak_covers_history a0 -> peak_covers_history a').
Proof.
  intros H.
  apply (fold_result_invariant
           (fun a => (exists added, history a = history a0 ++ added) /\
                     (peak_covers_history a0 -> peak_covers_history a))
           (backfill_step prices existing) dates) with (acc := Ok a0); trivial.
  - intros a d a1 _ Hstep ((added & Hadd) & Hcov).
    unfold backfill_step in Hstep. cbn [bind] in Hstep.
    destruct (existsb (Z.eqb d) existing).
    + assert (a1 = a) by congruence. subst a1. eauto.
    + apply bind_Ok in Hstep. destruct Hstep as (row & _ & Hrec).
      assert (a1 = record_valuation a d (_account_value a row)) by congruence.
      subst a1. split.
      * exists (added ++ [(d, _account_value a row)]). simpl.
        now rewrite Hadd, app_assoc.
      * intros H0. eapply peak_covers_appended; [| | exact (Hcov H0)]; reflexivity.
  - intros a E. assert (a = a0) by congruence. subst a. split; [| trivial].
    exists []. now rewrite app_nil_r.
Qed.

Lemma backfill_history (prices : PriceTable) (a a' : PaperAccount) (signal_dt : date) :
  backfill prices a signal_dt = Ok a' ->
  (exists added, history a' = history a ++ added) /\
  (peak_covers_history a -> peak_covers_history a').
Proof.
  unfold backfill. destruct (as_of a) as [last |].
  - apply backfill_fold_history.
  - intros H. assert (a' = a) by congruence. subst a'. split; [| trivial].
    exists []. now rewrite app_nil_r.
Qed.

Section DriverHistory.

Variable symbol_score : PriceTable -> Z -> Z -> Q -> string -> score.
Variable sort_values : Dict.t score -> Dict.t score.

Lemma paper_plan_history (cfg : PaperConfig) (prices : PriceTable)
    (store : option PaperAccount) (plan : Plan) :
  paper_plan symbol_score sort_values cfg prices store = Ok plan ->
  exists backfilled,
    backfill prices (load_or_new cfg store) (p_signal_dt plan) = Ok backfilled /\
    history (p_account plan) = history backfilled /\
    equity_peak backfilled <= equity_peak (p_account plan).
Proof.
  unfold paper_plan. intros H.
  destruct (rebalance_dates_of prices) as [| r0 rs] eqn:Hreb; [discriminate |].
  destruct (candidates (load_or_new cfg store) (r0 :: rs)) as [| trade_dt rest] eqn:Hcand;
    [discriminate |].
  apply bind_Ok in H. destruct H as (i & Hloc & H).
  apply bind_Ok in H. destruct H as (signal_dt & Hsig & H).
  apply bind_Ok in H. destruct H as (account1 & Hfill & H).
  apply bind_Ok in H. destruct H as (row_signal & Hrow & H).
  apply bind_Ok in H. destruct H as (fallback & Hfb & H).
  apply bind_Ok in H. destruct H as (px_trade & Hpx & H).
  apply bind_Ok in H. destruct H as (cw & Hcw & H).
  apply bind_Ok in H. destruct H as (ts & Hts & H).
  inversion H; subst plan; clear H. simpl.
  exists account1. repeat split; trivial. apply pymax_ge_l.
Qed.

Lemma run_once_history (cfg : PaperConfig) (prices : PriceTable) (a : PaperAccount) :
  exists a',
    snd (run_paper_once symbol_score sort_values cfg prices (Some a)) = Some a' /\
    (exists added, history a' = history a ++ added) /\
    (peak_covers_history a -> peak_covers_history a').
Proof.
  unfold run_paper_once.
  destruct (paper_advance symbol_score sort_values cfg prices (Some a))
    as [[account' trades] | e] eqn:E; simpl.
  - exists account'. split; trivial.
    apply advance_inv in E. destruct E as (plan & Hplan & Hexec).
    apply paper_plan_history in Hplan.
    destruct Hplan as (backfilled & Hfill & Hh & Hpk).
    apply backfill_history in Hfill. simpl in Hfill.
    destruct Hfill as ((added & Hadd) & Hcov).
    pose proof (execute_history _ _ _ _ _ Hexec) as Hhist.
    destruct (execute_runs (cost_model cfg) (defensive_etf cfg) plan)
      as (a1 & Ha1 & _ & _ & _ & Hpk' & _).
    rewrite Ha1 in Hexec. assert (a1 = account') by congruence. subst a1.
    split.
    + eexists. rewrite Hhist, Hh, Hadd, <- app_assoc. reflexivity.
    + intros H0. eapply peak_covers_appended; [exact Hhist | exact Hpk' |].
      eapply peak_covers_raised; [exact Hh | exact Hpk | auto].
  - exists a. split; trivial. split; [| trivial]. exists []. now rewrite app_nil_r.
Qed.

(** X16.  The history of the account file is only ever appended to: after
    any number of runs, whether they saved an account or raised, the stored
    history starts with the history there was. *)
Theorem history_is_append_only (runs : list (PaperConfig * PriceTable))
    (a : PaperAccount) :
  exists a' added,
    run_many symbol_score sort_values runs (Some a) = Some a' /\
    history a' = history a ++ added.
Proof.
  revert a. induction runs as [| [cfg prices] runs IH]; intros a; simpl.
  - exists a, []. now rewrite app_nil_r.
  - destruct (run_once_history cfg prices a) as (a1 & -> & (added1 & Hadd1) & _).
    destruct (IH a1) as (a' & added & Hrun & Hadd).
    exists a', (added1 ++ added). split; trivial.
    now rewrite Hadd, Hadd1, app_assoc.
Qed.

(** X17.  If no valuation of the stored history is above the stored peak,
    the same holds after any number of runs: every valuation a run appends
    (a backfilled day, the post-trade value) is taken into the peak by the
    maximum on the same line. *)
Theorem peak_covers_history_kept (runs : list (PaperConfig * PriceTable))
    (a : PaperAccount) :
  peak_covers_history a ->
  exists a',
    run_many symbol_score sort_values runs (Some a) = Some a' /\
    peak_covers_history a'.
Proof.
  revert a. induction runs as [| [cfg prices] runs IH]; intros a Ha; simpl.
  - eauto.
  - destruct (run_once_history cfg prices a) as (a1 & -> & _ & Hcov). auto.
Qed.

End DriverHistory.

Lemma peak_covers_history_kept_witness :
  peak_covers_history (new_account 10) /\
  exists a',
    run_many short_history_score kept_order
      [(small_account_cfg, flat_prices); (small_account_cfg, flat_prices)]
      (Some (new_account 10)) = Some a' /\
    peak_covers_history a'.
Proof.
  assert (H : peak_covers_history (new_account 10)) by (unfold peak_covers_history; simpl; constructor).
  split; [exact H |].
  apply (peak_covers_history_kept short_history_score kept_order). exact H.
Defined.

(** ** The gate of a run *)

Lemma drawdown_below_peak (peak value : Q) :
  value <= peak -> 0 <= (if Qltb 0 peak then 1 - value / peak else 0).
Proof.
  intros Hle. destruct (Qltb 0 peak) eqn:E; [| lra].
  apply Qltb_lt in E.
  assert (value / peak <= 1) by (apply Qle_shift_div_r; lra).
  lra.
Qed.

Section DriverGate.

Variable symbol_score : PriceTable -> Z -> Z -> Q -> string -> score.
Variable sort_values : Dict.t score -> Dict.t score.

Lemma paper_plan_gate (cfg : PaperConfig) (prices : PriceTable)
    (store : option PaperAccount) (plan : Plan) :
  paper_plan symbol_score sort_values cfg prices store = Ok plan ->
  exists backfilled row_signal,
    backfill prices (load_or_new cfg store) (p_signal_dt plan) = Ok backfilled /\
    loc prices (p_signal_dt plan) = Ok row_signal /\
    p_gate plan
    = fst (on_rebalance (stored_gate cfg (load_or_new cfg store))
                        (paper_drawdown backfilled row_signal)).
Proof.
  unfold paper_plan. intros H.
  destruct (rebalance_dates_of prices) as [| r0 rs] eqn:Hreb; [discriminate |].
  destruct (candidates (load_or_new cfg store) (r0 :: rs)) as [| trade_dt rest] eqn:Hcand;
    [discriminate |].
  apply bind_Ok in H. destruct H as (i & Hloc & H).
  apply bind_Ok in H. destruct H as (signal_dt & Hsig & H).
  apply bind_Ok in H. destruct H as (account1 & Hfill & H).
  apply bind_Ok in H. destruct H as (row_signal & Hrow & H).
  apply bind_Ok in H. destruct H as (fallback & Hfb & H).
  apply bind_Ok in H. destruct H as (px_trade & Hpx & H).
  apply bind_Ok in H. destruct H as (cw & Hcw & H).
  apply bind_Ok in H. destruct H as (ts & Hts & H).
  inversion H; subst plan; clear H. cbn [p_gate p_signal_dt].
  exists account1, row_signal. split; [exact Hfill | split; [exact Hrow |]].
  apply backfill_keeps in Hfill. destruct Hfill as (_ & _ & _ & _ & Hst & Hleft).
  unfold stored_gate, paper_drawdown. rewrite <- Hst, <- Hleft. reflexivity.
Qed.

Lemma paper_drawdown_nonneg (account : PaperAccount) (row_signal : Dict.t Q) :
  0 <= paper_drawdown account row_signal.
Proof.
  unfold paper_drawdown. cbv zeta. apply drawdown_below_peak. apply pymax_ge_r.
Qed.

(** X18.  A run that saves an account has put the gate through exactly one
    [on_rebalance], from the state and the counter of the stored account.
    The drawdown of that call is the one of lines 135-137, taken on the
    account after the backfill at the row of the signal date: one minus the
    signal-date value over the peak raised to that value (0 when that peak
    is not positive).  It is not negative.  The state and the counter
    saved are those of the gate after the call. *)
Theorem saved_gate_is_one_rebalance_on (cfg : PaperConfig) (prices : PriceTable)
    (store : option PaperAccount) (trades : list TradeRow) (account' : PaperAccount) :
  run_paper_once symbol_score sort_values cfg prices store = (Ok trades, Some account') ->
  exists plan backfilled row_signal,
    paper_plan symbol_score sort_values cfg prices store = Ok plan /\
    backfill prices (load_or_new cfg store) (p_signal_dt plan) = Ok backfilled /\
    loc prices (p_signal_dt plan) = Ok row_signal /\
    let drawdown := paper_drawdown backfilled row_signal in
    let gate := fst (on_rebalance (stored_gate cfg (load_or_new cfg store)) drawdown) in
    0 <= drawdown /\
    p_gate plan = gate /\
    gate_state account' = state gate /\
    gate_cooldown_left account' = cooldown_left gate.
Proof.
  intros H.
  apply run_once_saved in H. destruct H as (a0 & Ha0 & H).
  assert (a0 = account') by congruence. subst a0. clear Ha0.
  apply advance_inv in H. destruct H as (plan & Hplan & Hexec).
  destruct (paper_plan_gate _ _ _ _ Hplan) as (backfilled & row & Hfill & Hrow & Hgate).
  destruct (execute_runs (cost_model cfg) (defensive_etf cfg) plan)
    as (a & Ha & _ & _ & _ & _ & Hst & Hleft).
  rewrite Ha in Hexec. assert (a = account') by congruence. subst a.
  exists plan, backfilled, row.
  split; [exact Hplan | split; [exact Hfill | split; [exact Hrow |]]].
  cbv zeta. rewrite <- Hgate.
  split; [apply paper_drawdown_nonneg | auto].
Qed.

End DriverGate.

Lemma saved_gate_is_one_rebalance_on_witness :
  exists backfilled row_signal,
    0 <= paper_drawdown backfilled row_signal /\
    gate_state (fst first_run_outcome)
    = state (fst (on_rebalance (stored_gate small_account_cfg (new_account 10))
                               (paper_drawdown backfilled row_signal))).
Proof.
  assert (H : run_example small_account_cfg flat_prices None
              = (Ok (snd first_run_outcome), Some (fst first_run_outcome)))
    by (vm_compute; reflexivity).
  destruct (saved_gate_is_one_rebalance_on short_history_score kept_order
              small_account_cfg flat_prices None _ _ H)
    as (plan & backfilled & row & _ & _ & _ & Hdd & _ & Hst & _).
  exists backfilled, row. split; [exact Hdd | exact Hst].
Defined.

(** ** The rows of the trades list *)

Lemma est_cost_for_nonneg (cm : CostModel) (s : string) (dv sv : Q) :
  nonneg_rates cm -> 0 <= sv -> 0 <= est_cost_for cm s dv sv.
Proof.
  intros (Hc & Hs & Hb) Hsv.
  pose proof (est_cost_for_cost cm (mkTradeIntent s dv sv)) as E. simpl in E.
  rewrite E. apply trade_cost_nonneg; trivial.
Qed.

Lemma total_cost_nonneg (trades : list TradeRow) :
  Forall (fun r => 0 <= tr_cost r) trades -> 0 <= total_cost trades.
Proof.
  induction 1 as [| r l Hr Hl IH]; simpl; lra.
Qed.

Lemma sell_step_rows (cm : CostModel) (px_trade : Dict.t Q) (pre_positions : Dict.t Z)
    (st : ExecState) (item : string * Z) (P : TradeRow -> Prop) :
  (forall r, sound_row r -> (nonneg_rates cm -> 0 <= tr_cost r) -> P r) ->
  Forall P (ex_trades st) ->
  Forall P (ex_trades (sell_step cm px_trade pre_positions st item)).
Proof.
  intros HP Hst. unfold sell_step.
  destruct (0 <=? _)%Z eqn:Ed; trivial.
  destruct (Dict.get px_trade (fst item)) as [px |]; trivial.
  destruct (Qle_bool px 0) eqn:Epx; trivial.
  apply Z.leb_gt in Ed. apply Qle_bool_false in Epx.
  cbn [ex_trades]. apply Forall_app. split; trivial.
  apply Forall_cons; [| apply Forall_nil]. apply HP.
  - unfold sound_row. simpl. split; trivial. split; lia.
  - intros Hrates. cbn [tr_cost]. apply est_cost_for_nonneg; trivial.
    apply Qmult_le_0_compat; [| lra].
    change 0 with (inject_Z 0). rewrite <- Zle_Qle. lia.
Qed.

Lemma buy_one_rows (cm : CostModel) (px_trade : Dict.t Q) (pre_positions : Dict.t Z)
    (st : ExecState) (s : string) (tgt : Z) (P : TradeRow -> Prop) :
  (forall r, sound_row r -> (nonneg_rates cm -> 0 <= tr_cost r) -> P r) ->
  Forall P (ex_trades st) ->
  Forall P (ex_trades (buy_one cm px_trade pre_positions st s tgt)).
Proof.
  intros HP Hst. unfold buy_one.
  destruct (_ <=? 0)%Z eqn:Ed; trivial.
  destruct (Dict.get px_trade s) as [px |]; trivial.
  destruct (Qle_bool px 0) eqn:Epx; trivial.
  apply Z.leb_gt in Ed. apply Qle_bool_false in Epx.
  destruct (buy_loop cm s px (ex_cash st) _) as [buy |] eqn:Eb;
    cbn [ex_trades]; apply Forall_app; (split; [trivial |]);
    (apply Forall_cons; [| apply Forall_nil]); apply HP.
  - apply buy_loop_Some in Eb. unfold sound_row. simpl. split; trivial. lia.
  - intros Hrates. cbn [tr_cost]. apply est_cost_for_nonneg; trivial. lra.
  - unfold sound_row. simpl. split; trivial. repeat split.
    unfold Dict.get_or. now destruct (Dict.get (ex_positions st) s).
  - intros _. simpl. lra.
Qed.

Section DriverRows.

Variable symbol_score : PriceTable -> Z -> Z -> Q -> string -> score.
Variable sort_values : Dict.t score -> Dict.t score.

(** X19.  Every row of the trades of a run has a price above zero; a SELL
    row has a negative delta that lands on its target, a BUY row a positive
    delta that does not go beyond its target, a HOLD row no delta, no cost
    and the held shares as its target.  With rates that are not negative no
    row has a negative cost, and neither has the run. *)
Theorem trade_rows_are_sound (cfg : PaperConfig) (prices : PriceTable)
    (store : option PaperAccount) (trades : list TradeRow) (saved : option PaperAccount) :
  run_paper_once symbol_score sort_values cfg prices store = (Ok trades, saved) ->
  Forall sound_row trades /\
  (nonneg_rates (cost_model cfg) ->
   Forall (fun r => 0 <= tr_cost r) trades /\ 0 <= total_cost trades).
Proof.
  intros H.
  apply run_once_saved in H. destruct H as (account' & _ & H).
  apply advance_inv in H. destruct H as (plan & _ & Hexec).
  destruct (execute_runs (cost_model cfg) (defensive_etf cfg) plan)
    as (a & Ha & _).
  rewrite Ha in Hexec.
  assert (Htr : trades = ex_trades
     (fold_left
        (buy_listed (cost_model cfg) (p_px_trade plan) (p_pre_positions plan)
           (p_target_shares plan))
        (buy_syms (defensive_etf cfg) (p_target_shares plan))
        (sell_phase (cost_model cfg) (p_px_trade plan) (p_pre_positions plan)
           (p_target_shares plan)
           (mkExecState (p_pre_cash plan) (positions (p_account plan)) []))))
    by congruence.
  assert (Hall : Forall (fun r => sound_row r /\
                                  (nonneg_rates (cost_model cfg) -> 0 <= tr_cost r))
                        trades).
  { rewrite Htr.
    apply (fold_left_invariant
             (fun st => Forall (fun r => sound_row r /\
                                         (nonneg_rates (cost_model cfg) -> 0 <= tr_cost r))
                               (ex_trades st))).
    - unfold sell_phase.
      apply (fold_left_invariant
               (fun st => Forall (fun r => sound_row r /\
                                           (nonneg_rates (cost_model cfg) -> 0 <= tr_cost r))
                                 (ex_trades st))).
      + apply Forall_nil.
      + intros st item _ Hst. apply sell_step_rows; auto.
    - intros st s _ Hst. unfold buy_listed. apply buy_one_rows; auto. }
  split.
  - eapply Forall_impl; [| exact Hall]. simpl. tauto.
  - intros Hrates.
    assert (Hcost : Forall (fun r => 0 <= tr_cost r) trades)
      by (eapply Forall_impl; [| exact Hall]; simpl; tauto).
    split; [exact Hcost | now apply total_cost_nonneg].
Qed.

End DriverRows.

Lemma trade_rows_are_sound_witness :
  Forall sound_row (snd first_run_outcome).
Proof.
  apply (trade_rows_are_sound short_history_score kept_order
           small_account_cfg flat_prices None _ (Some (fst first_run_outcome))).
  vm_compute. reflexivity.
Defined.

(** ** The recorder of the backtest *)

Lemma date_get_set (d : list (date * Q)) (k k' : date) (v : Q) :
  date_get (date_set d k v) k' = if (k' =? k)%Z then Some v else date_get d k'.
Proof.
  induction d as [| [k0 v0] r IH]; simpl; [reflexivity |].
  destruct (k =? k0)%Z eqn:E; simpl.
  - apply Z.eqb_eq in E. subst k0. now destruct (k' =? k)%Z.
  - rewrite IH. destruct (k' =? k)%Z eqn:E1; trivial.
    apply Z.eqb_eq in E1. subst k'. now rewrite E.
Qed.

Lemma recorded_ok (perm : Perm) (d : date) (v : Q) :
  perm_ok perm ->
  perm_ok (DailyRecorder perm d v) /\
  exists pk, perm_peak (DailyRecorder perm d v) = Some pk /\ v <= pk.
Proof.
  intros (Heq & Hpk). split; [split |].
  - intros d' v'. unfold DailyRecorder. cbn [equity_by_date peak_by_date].
    rewrite !date_get_set. destruct (d' =? d)%Z.
    + intros E. assert (v' = v) by congruence. subst v'.
      eexists. split; [reflexivity | apply pymax_ge_r].
    + apply Heq.
  - intros d' p. unfold DailyRecorder. cbn [equity_by_date peak_by_date perm_peak].
    rewrite !date_get_set. destruct (d' =? d)%Z.
    + intros E. assert (p = pymax match perm_peak perm with
                                      | Some p0 => p0
                                      | None => v
                                      end v) by congruence. subst p.
      split; [eauto |]. eexists. split; [reflexivity | apply Qle_refl].
    + intros E. destruct (Hpk d' p E) as (Hv & pk0 & Hpk0 & Hle).
      split; trivial. rewrite Hpk0. eexists. split; [reflexivity |].
      pose proof (pymax_ge_l pk0 v). lra.
  - unfold DailyRecorder. cbn [perm_peak]. eexists. split; [reflexivity |].
    apply pymax_ge_r.
Qed.

Lemma writes_ok (writes : list perm_write) : perm_ok (fold_left write_perm writes empty_perm).
Proof.
  apply (fold_left_invariant perm_ok).
  - split; intros d v E; discriminate E.
  - intros perm [d v | d v] _ H.
    + apply (recorded_ok perm d v H).
    + change (write_perm perm (AfterCosts d v)) with (DailyRecorder perm d v).
      apply (recorded_ok perm d v H).
Qed.

(** X20.  In the backtest the drawdown [ComputeTarget] gives the gate is
    never negative.  [DailyRecorder] has run on the same day with the same
    portfolio value; whatever days were recorded before, and whatever
    values [ApplyCosts] has written over them, the value of the signal date
    is at most the peak recorded with it, and the value of the day is at
    most the running peak. *)
Theorem backtest_drawdown_not_negative (writes : list perm_write) (now signal_date : date)
    (value : Q) :
  0 <= signal_drawdown (DailyRecorder (fold_left write_perm writes empty_perm) now value)
                       signal_date value.
Proof.
  destruct (recorded_ok _ now value (writes_ok writes)) as ((Heq & Hpk) & pk & Hpeak & Hle).
  unfold signal_drawdown.
  set (perm := DailyRecorder (fold_left write_perm writes empty_perm) now value) in *.
  destruct (date_get (equity_by_date perm) signal_date) as [sv |] eqn:Esv.
  - destruct (Heq _ _ Esv) as (p & -> & Hsv). now apply drawdown_below_peak.
  - destruct (date_get (peak_by_date perm) signal_date) as [p |] eqn:Ep.
    + destruct (Hpk _ _ Ep) as ((v & Hv) & _). congruence.
    + rewrite Hpeak. now apply drawdown_below_peak.
Qed.

(** ** The trades [ApplyCosts] estimates *)

Lemma sold_weight_bounds (w0 w1 : Q) :
  0 <= pymax (w0 - w1) 0 /\ pymax (w0 - w1) 0 <= pyabs (w1 - w0).
Proof.
  unfold pymax, pyabs.
  destruct (Qltb (w0 - w1) 0) eqn:E1; destruct (Qltb (w1 - w0) 0) eqn:E2;
    try apply Qltb_lt in E1; try apply Qltb_ge in E1;
    try apply Qltb_lt in E2; try apply Qltb_ge in E2; split; lra.
Qed.

Lemma cost_intents_sold (symbols : list string) (pre_weights post_weights : Dict.t Q)
    (pre_value : Q) :
  0 <= pre_value ->
  Forall (fun t => 0 <= sell_value t /\ sell_value t <= trade_value t)
         (cost_intents symbols pre_weights post_weights pre_value).
Proof.
  intros Hv. unfold cost_intents.
  apply (fold_left_invariant
           (Forall (fun t => 0 <= sell_value t /\ sell_value t <= trade_value t)));
    [apply Forall_nil |].
  intros trades s _ H. unfold cost_intent_step.
  destruct (Qle_bool _ 0); trivial.
  apply Forall_app. split; trivial. apply Forall_cons; [| apply Forall_nil].
  cbn [sell_value trade_value].
  destruct (sold_weight_bounds (Dict.get_or pre_weights s 0) (Dict.get_or post_weights s 0))
    as (H0 & H1).
  split.
  - apply Qmult_le_0_compat; trivial.
  - apply Qmult_le_compat_r; trivial.
Qed.

Lemma sum_costs_nonneg (cm : CostModel) (trades : list TradeIntent) :
  nonneg_rates cm ->
  Forall (fun t => 0 <= sell_value t) trades -> 0 <= sum_costs cm trades.
Proof.
  intros (Hc & Hs & Hb). induction 1 as [| t l Ht Hl IH]; simpl; [lra |].
  pose proof (trade_cost_nonneg cm t Hc Hs Hb Ht). lra.
Qed.

(** X21.  What [ApplyCosts] hands to the cost model: for a portfolio value
    that is not negative, each trade has a sold value between zero and its
    traded value, and with rates that are not negative the estimate it
    takes from the portfolio is not negative. *)
Theorem apply_costs_estimate_not_negative (cm : CostModel) (symbols : list string)
    (pre_weights post_weights : Dict.t Q) (pre_value : Q) :
  nonneg_rates cm -> 0 <= pre_value ->
  Forall (fun t => 0 <= sell_value t /\ sell_value t <= trade_value t)
         (cost_intents symbols pre_weights post_weights pre_value) /\
  0 <= estimate_for_rebalance cm (cost_intents symbols pre_weights post_weights pre_value).
Proof.
  intros Hrates Hv.
  pose proof (cost_intents_sold symbols pre_weights post_weights pre_value Hv) as H.
  split; trivial.
  rewrite estimate_is_sum. apply sum_costs_nonneg; trivial.
  eapply Forall_impl; [| exact H]. simpl. tauto.
Qed.

Lemma apply_costs_estimate_not_negative_witness :
  0 <= estimate_for_rebalance broker_rates
         (cost_intents ["510300"; "511010"]%string
            [("510300"%string, 8 # 10); ("511010"%string, 2 # 10)]
            [("510300"%string, 3 # 10); ("511010"%string, 7 # 10)] 100000).
Proof.
  apply (apply_costs_estimate_not_negative broker_rates).
  - unfold nonneg_rates. simpl. repeat split; unfold Qle; simpl; lia.
  - unfold Qle. simpl. lia.
Defined.

(** ** Reading the configuration *)

(** X22.  [AppConfig.get] walks its keys one mapping at a time: either the
    first keys lead to a value, the same for every default, and the
    remaining keys are looked up from that value; or a key among the first
    is missing (or its parent is not a mapping), the look-up of the first
    keys gives back whatever default it gets, and so does the longer
    one. *)
Theorem config_get_walks_the_path (ks1 ks2 : list string) (raw default : yaml) :
  (exists v,
      (forall d, AppConfig_get raw ks1 d = v) /\
      AppConfig_get raw (ks1 ++ ks2) default = AppConfig_get v ks2 default) \/
  ((forall d, AppConfig_get raw ks1 d = d) /\
   AppConfig_get raw (ks1 ++ ks2) default = default).
Proof.
  revert raw. induction ks1 as [| k ks IH]; intros raw; simpl.
  - left. exists raw. auto.
  - destruct raw as [s | m]; [right; auto |].
    destruct (yaml_lookup m k) as [v |]; [apply IH | right; auto].
Qed.

(** ** The dates of the history *)

Lemma sorted_snoc (l : list date) (d : date) :
  StronglySorted Z.lt l -> Forall (fun x => (x < d)%Z) l ->
  StronglySorted Z.lt (l ++ [d]).
Proof.
  induction 1 as [| x l Hl IH Hx]; intros Hd; simpl.
  - repeat constructor.
  - inversion Hd; subst. constructor; [auto |].
    apply Forall_app. split; trivial. repeat constructor. trivial.
Qed.

Lemma backfill_fold_dates (prices : PriceTable) (existing : list date) :
  forall (dates : list date) (a0 a' : PaperAccount),
    StronglySorted Z.lt dates ->
    StronglySorted Z.lt (map fst (history a0)) ->
    (forall h d, In h (map fst (history a0)) -> In d dates -> (h < d)%Z) ->
    fold_left (backfill_step prices existing) dates (Ok a0) = Ok a' ->
    StronglySorted Z.lt (map fst (history a')) /\
    (forall h, In h (map fst (history a')) ->
               In h (map fst (history a0)) \/ In h dates).
Proof.
  induction dates as [| d l IH]; intros a0 a' Hs Hh Hlt H; cbn [fold_left] in H.
  - assert (a' = a0) by congruence. subst a'. auto.
  - destruct (backfill_step prices existing (Ok a0) d) as [a1 | e] eqn:E.
    2:{ rewrite fold_left_Raise in H by apply backfill_step_Raise. discriminate. }
    inversion Hs as [| ? ? Hl Hd]; subst.
    assert (Ha1 : map fst (history a1) = map fst (history a0) \/
                  map fst (history a1) = map fst (history a0) ++ [d]).
    { unfold backfill_step in E. cbn [bind] in E.
      destruct (existsb (Z.eqb d) existing).
      - left. congruence.
      - right. apply bind_Ok in E. destruct E as (row & _ & E).
        assert (a1 = record_valuation a0 d (_account_value a0 row)) by congruence.
        subst a1. simpl. now rewrite map_app. }
    destruct (IH a1 a' Hl) as (Hsorted & Hin); trivial.
    + destruct Ha1 as [-> | ->]; trivial.
      apply sorted_snoc; trivial. apply Forall_forall. intros h Hh'.
      apply Hlt; simpl; auto.
    + intros h d' Hh' Hd'. destruct Ha1 as [E1 | E1]; rewrite E1 in Hh'.
      * apply Hlt; simpl; auto.
      * apply in_app_or in Hh'. destruct Hh' as [Hh' | [<- | []]].
        -- apply Hlt; simpl; auto.
        -- rewrite Forall_forall in Hd. now apply Hd.
    + split; trivial. intros h Hh'. destruct (Hin h Hh') as [H1 | H1]; [| simpl; auto].
      destruct Ha1 as [E1 | E1]; rewrite E1 in H1; [auto |].
      apply in_app_or in H1. destruct H1 as [H1 | [<- | []]]; simpl; auto.
Qed.

(** After the backfill the history is still in order and ends by the
    signal date. *)
Lemma backfill_dates (prices : PriceTable) (a a' : PaperAccount) (signal_dt : date) :
  StronglySorted Z.lt (index prices) ->
  history_in_order a ->
  (forall last, as_of a = Some last -> (last <= signal_dt)%Z) ->
  backfill prices a signal_dt = Ok a' ->
  StronglySorted Z.lt (map fst (history a')) /\
  Forall (fun d => (d <= signal_dt)%Z) (map fst (history a')).
Proof.
  intros Hidx (Hs & Hlast) Hsig. unfold backfill.
  destruct (as_of a) as [last |].
  - intros H. apply backfill_fold_dates in H; trivial.
    + destruct H as (Hsorted & Hin). split; trivial.
      apply Forall_forall. intros h Hh. destruct (Hin h Hh) as [H1 | H1].
      * rewrite Forall_forall in Hlast. specialize (Hlast h H1).
        specialize (Hsig last eq_refl). lia.
      * apply filter_In in H1. destruct H1 as (_ & H1).
        apply andb_true_iff in H1. destruct H1 as (_ & H1). now apply Z.leb_le.
    + now apply sorted_filter.
    + intros h d Hh Hd. rewrite Forall_forall in Hlast. specialize (Hlast h Hh).
      apply filter_In in Hd. destruct Hd as (_ & Hd).
      apply andb_true_iff in Hd. destruct Hd as (Hd & _). apply Z.ltb_lt in Hd. lia.
  - intros H. assert (a' = a) by congruence. subst a'. rewrite Hlast. simpl.
    split; constructor.
Qed.

Section DriverDates.

Variable symbol_score : PriceTable -> Z -> Z -> Q -> string -> score.
Variable sort_values : Dict.t score -> Dict.t score.

(** X23.  On a price table whose dates go up strictly, a run keeps the
    history in order: the backfilled days come after the last trade date
    and end by the signal date, the trade date comes after the signal date,
    and it is the new [as_of].  So the dates of the saved history go up
    strictly and none is after [as_of]. *)
Theorem history_dates_stay_in_order (cfg : PaperConfig) (prices : PriceTable)
    (store : option PaperAccount) (trades : list TradeRow) (account' : PaperAccount) :
  StronglySorted Z.lt (index prices) ->
  history_in_order (load_or_new cfg store) ->
  run_paper_once symbol_score sort_values cfg prices store = (Ok trades, Some account') ->
  history_in_order account'.
Proof.
  intros Hidx Hord H.
  apply run_once_saved in H. destruct H as (a0 & Ha0 & H).
  assert (a0 = account') by congruence. subst a0. clear Ha0.
  apply advance_inv in H. destruct H as (plan & Hplan & Hexec).
  pose proof (paper_plan_dates _ _ _ _ _ _ Hplan) as (Hreb & i & Hloc & Hsig).
  pose proof (paper_plan_history _ _ _ _ _ _ Hplan) as (backfilled & Hfill & Hh & _).
  apply paper_plan_inv in Hplan. cbv zeta in Hplan.
  destruct Hplan as (_ & (rest & Hcand) & _).
  destruct (flagged_date_lookup _ _ Hidx Hreb) as (i' & signal & Hloc' & _ & Hsig' & _ & Hlt).
  assert (i' = i) by congruence. subst i'.
  assert (signal = p_signal_dt plan) by congruence. subst signal.
  assert (Hlast : forall last, as_of (load_or_new cfg store) = Some last ->
                               (last < p_trade_dt plan)%Z).
  { intros last Hl.
    assert (Hin : In (p_trade_dt plan)
                     (candidates (load_or_new cfg store) (rebalance_dates_of prices)))
      by (rewrite Hcand; simpl; auto).
    unfold candidates in Hin. rewrite Hl in Hin.
    apply filter_In in Hin. now apply Z.ltb_lt. }
  pose proof (execute_history _ _ _ _ _ Hexec) as Hhist.
  destruct (execute_runs (cost_model cfg) (defensive_etf cfg) plan)
    as (a & Ha & Hasof & _).
  rewrite Ha in Hexec. assert (a = account') by congruence. subst a.
  unfold history_in_order. rewrite Hasof, Hhist, Hh, map_app. simpl.
  destruct (as_of (load_or_new cfg store)) as [last |] eqn:El.
  - (* the account has traded before *)
    destruct (Z_le_gt_dec last (p_signal_dt plan)) as [Hle | Hgt].
    + apply backfill_dates in Hfill; trivial.
      2:{ intros l0 E. rewrite El in E. assert (l0 = last) by congruence. now subst. }
      destruct Hfill as (Hsorted & Hbound). split.
      * apply sorted_snoc; trivial.
        eapply Forall_impl; [| exact Hbound]. simpl. intros; lia.
      * apply Forall_app. split; [| repeat constructor; lia].
        eapply Forall_impl; [| exact Hbound]. simpl. intros; lia.
    + (* no day to fill *)
      assert (Hb : backfilled = load_or_new cfg store).
      { unfold backfill in Hfill. rewrite El in Hfill.
        rewrite filter_none in Hfill; [simpl in Hfill; congruence |].
        intros d _. apply andb_false_iff.
        destruct (Z.ltb_spec last d); destruct (Z.leb_spec d (p_signal_dt plan));
          auto; lia. }
      rewrite Hb. destruct Hord as (Hs & Hl). rewrite El in Hl.
      specialize (Hlast last eq_refl). split.
      * apply sorted_snoc; trivial.
        eapply Forall_impl; [| exact Hl]. simpl. intros; lia.
      * apply Forall_app. split; [| repeat constructor; lia].
        eapply Forall_impl; [| exact Hl]. simpl. intros; lia.
  - (* a new account *)
    assert (Hb : backfilled = load_or_new cfg store).
    { unfold backfill in Hfill. rewrite El in Hfill. congruence. }
    rewrite Hb. destruct Hord as (_ & Hl). rewrite El in Hl. rewrite Hl. simpl.
    split; repeat constructor. lia.
Qed.

End DriverDates.

Lemma history_dates_stay_in_order_witness :
  history_in_order (fst first_run_outcome).
Proof.
  apply (history_dates_stay_in_order short_history_score kept_order
           small_account_cfg flat_prices None (snd first_run_outcome)).
  - simpl. repeat constructor; lia.
  - unfold history_in_order. simpl. split; [constructor | reflexivity].
  - vm_compute. reflexivity.
Defined.
